(** * dns402: payment discovery over DNS TXT records

    A shallow embedding of the dns402 TypeScript sources
    ([core/types.ts], [core/dns.ts], [core/solana.ts],
    [client/client.ts], [server/middleware.ts]) together with the
    properties of the record codec, the session caches, the client
    orchestration and the server gate.

    Conventions of the embedding:
    - a JavaScript string is a [string]; the texts of DNS records, HTTP
      headers and URLs are made of 7-bit characters, and a character above
      127 is carried through as an opaque symbol (neither white space nor
      a letter);
    - a JavaScript [number] holding a price or a ledger amount is a value of
      an abstract type [F] with the operations of the class [JSNumber]
      (IEEE-754 arithmetic is not re-implemented: every theorem holds for
      any implementation of the class, and [dnum] is an exact decimal
      implementation used to evaluate the code on concrete inputs);
    - a [number] holding a time stamp in milliseconds or a count of seconds
      is an integer [Z]; the result of [parseInt] is an [intnum], an integer
      or [NaN];
    - [undefined] and [null] are [None];
    - a [Map<string, V>] and a [Record<string, string>] are [gmap string V];
    - [async] functions are trees of external calls ([proc]); a thrown
      error or a rejected promise is the [Err] case of [result]. *)

From Stdlib Require Import ZArith String Ascii List Lia Bool.
From stdpp Require Import base option strings list gmap fin_maps.

Local Open Scope string_scope.
Local Open Scope Z_scope.

(** ** JavaScript strings *)

Module JsString.

(** [WhiteSpace] and [LineTerminator] code points below 128, the ones
    removed by [String.prototype.trim]. *)
Definition is_ws (c : ascii) : bool :=
  match c with
  | "009" | "010" | "011" | "012" | "013" | " " => true
  | _ => false
  end%char.

Definition eqc (a b : ascii) : bool := Ascii.eqb a b.

(** [s.length > 0], the truth value of a string. *)
Definition nonempty (s : string) : bool :=
  match s with EmptyString => false | String _ _ => true end.

(** Truth value of [string | undefined]. *)
Definition truthy (o : option string) : bool :=
  match o with Some s => nonempty s | None => false end.

(** [s.split(sep)] for a one-character separator: never the empty list. *)
Fixpoint split (sep : ascii) (s : string) : list string :=
  match s with
  | EmptyString => [EmptyString]
  | String c s' =>
      if eqc c sep then EmptyString :: split sep s'
      else match split sep s' with
           | h :: t => String c h :: t
           | [] => [String c EmptyString]
           end
  end.

(** [parts.join(sep)]. *)
Fixpoint join (sep : string) (parts : list string) : string :=
  match parts with
  | [] => EmptyString
  | [p] => p
  | p :: rest => p ++ sep ++ join sep rest
  end.

Fixpoint trimStart (s : string) : string :=
  match s with
  | EmptyString => EmptyString
  | String c s' => if is_ws c then trimStart s' else s
  end.

Fixpoint trimEnd (s : string) : string :=
  match s with
  | EmptyString => EmptyString
  | String c s' =>
      match trimEnd s' with
      | EmptyString => if is_ws c then EmptyString else String c EmptyString
      | r => String c r
      end
  end.

Definition trim (s : string) : string := trimEnd (trimStart s).

Definition upper_char (c : ascii) : ascii :=
  let n := nat_of_ascii c in
  if (97 <=? n)%nat && (n <=? 122)%nat then ascii_of_nat (n - 32) else c.

Definition lower_char (c : ascii) : ascii :=
  let n := nat_of_ascii c in
  if (65 <=? n)%nat && (n <=? 90)%nat then ascii_of_nat (n + 32) else c.

Fixpoint map_chars (f : ascii → ascii) (s : string) : string :=
  match s with
  | EmptyString => EmptyString
  | String c s' => String (f c) (map_chars f s')
  end.

Definition toUpperCase : string → string := map_chars upper_char.
Definition toLowerCase : string → string := map_chars lower_char.

(** [c] occurs in [s]. *)
Fixpoint has_char (c : ascii) (s : string) : bool :=
  match s with
  | EmptyString => false
  | String d s' => eqc d c || has_char c s'
  end.

Fixpoint all_chars (p : ascii → bool) (s : string) : bool :=
  match s with
  | EmptyString => true
  | String d s' => p d && all_chars p s'
  end.

Fixpoint starts_with (p s : string) : bool :=
  match p, s with
  | EmptyString, _ => true
  | String a p', String b s' => eqc a b && starts_with p' s'
  | String _ _, EmptyString => false
  end.

Fixpoint drop (n : nat) (s : string) : string :=
  match n, s with
  | O, _ => s
  | S n', String _ s' => drop n' s'
  | S _, EmptyString => EmptyString
  end.

End JsString.
Import JsString.

(** ** JavaScript numbers *)

(** The result of [parseInt(s, 10)] and the integral [number]s of the
    program ([ttl], [sessionTTL]): [NaN] or a whole number. A [ttl] with
    a fractional part is outside this type, and the statements that
    print one bound it by [MAX_SAFE_INTEGER]. *)
Inductive intnum : Type :=
| IntNaN
| IntVal (z : Z).

Module JsInt.

Definition digit_of (c : ascii) : option Z :=
  let n := nat_of_ascii c in
  if (48 <=? n)%nat && (n <=? 57)%nat then Some (Z.of_nat (n - 48)) else None.

Definition char_of_digit (d : Z) : ascii := ascii_of_nat (48 + Z.to_nat d).

(** Longest prefix of decimal digits, most significant first; [None]
    when the text does not start with a digit. *)
Fixpoint read_digits (acc : option Z) (s : string) : option Z :=
  match s with
  | EmptyString => acc
  | String c s' =>
      match digit_of c with
      | Some d => read_digits (Some (10 * default 0 acc + d)) s'
      | None => acc
      end
  end.

(** [parseInt(s, 10)]: leading white space, an optional sign, digits. *)
Definition parseInt (s : string) : intnum :=
  match trimStart s with
  | String "-" r =>
      match read_digits None r with Some n => IntVal (- n) | None => IntNaN end
  | String "+" r =>
      match read_digits None r with Some n => IntVal n | None => IntNaN end
  | r =>
      match read_digits None r with Some n => IntVal n | None => IntNaN end
  end.

(** Decimal digits of a natural number, [fuel] bounding their count. *)
Fixpoint digits (fuel : nat) (n : Z) (acc : string) : string :=
  match fuel with
  | O => acc
  | S fuel' =>
      if n <? 10 then String (char_of_digit n) acc
      else digits fuel' (n / 10) (String (char_of_digit (n mod 10)) acc)
  end.

Definition nat_toString (n : Z) : string :=
  digits (S (Z.to_nat (Z.log2 n))) n EmptyString.

(** [String(z)] for an integer below [10^21]. *)
Definition toString (z : Z) : string :=
  if z <? 0 then String "-" (nat_toString (- z)) else nat_toString z.

(** [`${n}`] for an integral number of magnitude below [10^21], which
    the language prints in plain digits (from [10^21] on it prints an
    exponent, which is not modelled). *)
Definition int_toString (n : intnum) : string :=
  match n with IntNaN => "NaN" | IntVal z => toString z end.

(** Truth value: [NaN] and [0] are false. *)
Definition truthy (n : option intnum) : bool :=
  match n with
  | Some (IntVal z) => negb (z =? 0)
  | _ => false
  end.

(** [n || d] read as an integer: [NaN], [0] and [undefined] give [d]. *)
Definition or_default (n : option intnum) (d : Z) : Z :=
  match n with
  | Some (IntVal z) => if z =? 0 then d else z
  | _ => d
  end.

Definition MAX_SAFE_INTEGER : Z := 2 ^ 53 - 1.

End JsInt.

(** Operations of the language on [number]s that hold prices and amounts. *)
Class JSNumber (F : Type) := {
  (** [Number.prototype.toString()] and template-literal conversion *)
  num_toString : F → string;
  (** the global [parseFloat] *)
  parseFloat : string → F;
  (** the number written [m * 10^e] in the source text *)
  num_lit : Z → Z → F;
  num_nan : F;
  num_sub : F → F → F;
  num_mul : F → F → F;
  num_div : F → F → F;
  (** [a > b] and [a >= b] *)
  num_gt : F → F → bool;
  num_ge : F → F → bool;
  (** [ToBoolean] *)
  num_truthy : F → bool;
}.

(** ** core/types.ts *)

Section Types.
Context {F : Type}.

Record DNS402Record := {
  version : string;
  price : F;
  currency : string;
  network : string;
  wallet : string;
  ttl : option intnum;
  model : option string;
  callback : option string;
  mint : option string;
}.

Record PaymentProof := {
  signature : string;
  payer : string;
  timestamp : Z;
}.

Record DNS402Session := {
  domain : string;
  token : option string;
  proof : PaymentProof;
  expiresAt : Z;
}.

(** The argument of [generateRecord]. *)
Record RecordConfig := {
  cfg_price : F;
  cfg_currency : string;
  cfg_wallet : string;
  cfg_ttl : option intnum;
  cfg_model : option string;
  cfg_callback : option string;
  cfg_mint : option string;
}.

End Types.
Arguments DNS402Record : clear implicits.
Arguments RecordConfig : clear implicits.

Module Headers.
Definition HOST := "DNS402-Host".
Definition PRICE := "DNS402-Price".
Definition CURRENCY := "DNS402-Currency".
Definition NETWORK := "DNS402-Network".
Definition WALLET := "DNS402-Wallet".
Definition SESSION_TTL := "DNS402-Session-TTL".
Definition PROOF := "X-DNS402-Proof".
Definition PAYER := "X-DNS402-Payer".
Definition TOKEN := "X-DNS402-Token".
End Headers.

Module USDC_MINTS.
Definition mainnet := "EPjFWdd5AufqSSqeM2qN1xzybapC8G4wEGGkZwyTDt1v".
Definition devnet := "4zMMC9srt5Ri5X14GAgXhaHii3GnPAEERYPJgZJDncDU".
End USDC_MINTS.

(** ** core/dns.ts: the record codec *)

Section Codec.
Context {F : Type} `{JSNumber F}.

(** [txt.split(';').map(p => p.trim()).filter(Boolean)] *)
Definition record_parts (txt : string) : list string :=
  List.filter nonempty (List.map trim (split ";" txt)).

(** Body of the [for (const part of parts)] loop. *)
Definition parsePair (data : gmap string string) (part : string)
  : gmap string string :=
  let fields := split "=" part in
  match fields !! 0%nat, fields !! 1%nat with
  | Some key, Some value =>
      if nonempty key && nonempty value
      then <[trim key := trim value]> data
      else data
  | _, _ => data
  end.

Definition record_data (txt : string) : gmap string string :=
  fold_left parsePair (record_parts txt) ∅.

Definition parseRecord (txt : string) : option (DNS402Record F) :=
  let data := record_data txt in
  if negb (bool_decide (data !! "v" = Some "dns402"))
     || negb (truthy (data !! "p"))
     || negb (truthy (data !! "c"))
     || negb (truthy (data !! "n"))
     || negb (truthy (data !! "w"))
  then None
  else Some {|
    version := default "" (data !! "v");
    price := parseFloat (default "" (data !! "p"));
    currency := toUpperCase (default "" (data !! "c"));
    network := toLowerCase (default "" (data !! "n"));
    wallet := default "" (data !! "w");
    ttl := if truthy (data !! "t")
           then Some (JsInt.parseInt (default "" (data !! "t")))
           else None;
    model := if truthy (data !! "m") then data !! "m" else Some "per-request";
    callback := data !! "cb";
    mint := data !! "mint";
  |}.

Definition push_if (c : bool) (part : string) (parts : list string)
  : list string :=
  if c then parts ++ [part] else parts.

Definition generateRecord (config : RecordConfig F) : string :=
  let parts :=
    [ "v=dns402";
      "p=" ++ num_toString (cfg_price config);
      "c=" ++ cfg_currency config;
      "n=solana";
      "w=" ++ cfg_wallet config ] in
  let parts := push_if (JsInt.truthy (cfg_ttl config))
                 ("t=" ++ JsInt.int_toString (default IntNaN (cfg_ttl config))) parts in
  let parts := push_if (truthy (cfg_model config))
                 ("m=" ++ default "" (cfg_model config)) parts in
  let parts := push_if (truthy (cfg_callback config))
                 ("cb=" ++ default "" (cfg_callback config)) parts in
  let parts := push_if (truthy (cfg_mint config))
                 ("mint=" ++ default "" (cfg_mint config)) parts in
  join ";" parts.

(** A [DNS402Record] passed where [generateRecord] expects its config
    (structural typing: the extra fields are not read). *)
Definition config_of_record (r : DNS402Record F) : RecordConfig F :=
  {| cfg_price := price r; cfg_currency := currency r;
     cfg_wallet := wallet r; cfg_ttl := ttl r; cfg_model := model r;
     cfg_callback := callback r; cfg_mint := mint r |}.

End Codec.

(** ** An exact decimal implementation of [JSNumber]

    [DFin m e] is the number [m * 10^e]; a finite double is identified with
    the decimal that [Number.prototype.toString] prints for it.  Sums,
    products and comparisons are exact (no rounding to 53 bits), quotients
    are truncated after 17 extra digits.  The instance is used to run the
    embedded code on concrete inputs. *)
Inductive dnum : Type :=
| DNaN
| DInf (neg : bool)
| DFin (m : Z) (e : Z).

Module Dec.

Fixpoint strip_zeros (fuel : nat) (m e : Z) : Z * Z :=
  match fuel with
  | O => (m, e)
  | S fuel' =>
      if m mod 10 =? 0 then strip_zeros fuel' (m / 10) (e + 1) else (m, e)
  end.

(** Normal form: no trailing zero in the digits, exponent 0 for zero. *)
Definition mk (m e : Z) : dnum :=
  if m =? 0 then DFin 0 0
  else let '(m', e') := strip_zeros (S (Z.to_nat (Z.log2 (Z.abs m)))) m e in
       DFin m' e'.

(** Digits at the head of [s]: their value, their count, the rest. *)
Fixpoint span_digits (acc : Z) (count : Z) (s : string) : Z * Z * string :=
  match s with
  | EmptyString => (acc, count, s)
  | String c s' =>
      match JsInt.digit_of c with
      | Some d => span_digits (10 * acc + d) (count + 1) s'
      | None => (acc, count, s)
      end
  end.

(** [ExponentPart]: [e] or [E], an optional sign, at least one digit;
    0 when the text has none. *)
Definition read_exponent (s : string) : Z :=
  match s with
  | String "e" r | String "E" r =>
      match r with
      | String "-" r' =>
          let '(v, n, _) := span_digits 0 0 r' in if n =? 0 then 0 else - v
      | String "+" r' =>
          let '(v, n, _) := span_digits 0 0 r' in if n =? 0 then 0 else v
      | _ =>
          let '(v, n, _) := span_digits 0 0 r in if n =? 0 then 0 else v
      end
  | _ => 0
  end.

Definition read_unsigned (neg : bool) (s : string) : dnum :=
  if starts_with "Infinity" s then DInf neg
  else
    let '(iv, ic, r1) := span_digits 0 0 s in
    let '(fv, fc, r2) :=
      match r1 with
      | String "." r => span_digits 0 0 r
      | _ => (0, 0, r1)
      end in
    if (ic =? 0) && (fc =? 0) then DNaN
    else
      let m := iv * 10 ^ fc + fv in
      mk (if neg then - m else m) (read_exponent r2 - fc).

(** The global [parseFloat]: the longest prefix that is a
    [StrDecimalLiteral], [NaN] when there is none. *)
Definition parseFloat (s : string) : dnum :=
  match trimStart s with
  | String "-" r => read_unsigned true r
  | String "+" r => read_unsigned false r
  | r => read_unsigned false r
  end.

Fixpoint zeros (n : nat) : string :=
  match n with O => EmptyString | S n' => String "0" (zeros n') end.

Fixpoint take (n : nat) (s : string) : string :=
  match n, s with
  | S n', String c s' => String c (take n' s')
  | _, _ => EmptyString
  end.

(** [Number::toString] on the digits [ds] of a positive number whose
    value is [0.ds * 10^n]. *)
Definition print_positive (ds : string) (n : Z) : string :=
  let k := Z.of_nat (String.length ds) in
  if (k <=? n) && (n <=? 21) then ds ++ zeros (Z.to_nat (n - k))
  else if (0 <? n) && (n <=? 21)
       then take (Z.to_nat n) ds ++ "." ++ drop (Z.to_nat n) ds
  else if (-6 <? n) && (n <=? 0) then "0." ++ zeros (Z.to_nat (- n)) ++ ds
  else
    let ex := n - 1 in
    let exs := (if ex <? 0 then "e-" else "e+") ++ JsInt.nat_toString (Z.abs ex) in
    if k =? 1 then ds ++ exs
    else take 1 ds ++ "." ++ drop 1 ds ++ exs.

Definition toString (x : dnum) : string :=
  match x with
  | DNaN => "NaN"
  | DInf true => "-Infinity"
  | DInf false => "Infinity"
  | DFin m e =>
      if m =? 0 then "0"
      else
        let ds := JsInt.nat_toString (Z.abs m) in
        let body := print_positive ds (Z.of_nat (String.length ds) + e) in
        if m <? 0 then String "-" body else body
  end.

(** Both mantissas at the smaller exponent. *)
Definition align (m1 e1 m2 e2 : Z) : Z * Z * Z :=
  let e := Z.min e1 e2 in (m1 * 10 ^ (e1 - e), m2 * 10 ^ (e2 - e), e).

Definition neg (x : dnum) : dnum :=
  match x with
  | DNaN => DNaN
  | DInf b => DInf (negb b)
  | DFin m e => DFin (- m) e
  end.

Definition add (x y : dnum) : dnum :=
  match x, y with
  | DNaN, _ | _, DNaN => DNaN
  | DInf a, DInf b => if Bool.eqb a b then DInf a else DNaN
  | DInf a, DFin _ _ => DInf a
  | DFin _ _, DInf b => DInf b
  | DFin m1 e1, DFin m2 e2 =>
      let '(a, b, e) := align m1 e1 m2 e2 in mk (a + b) e
  end.

Definition sub (x y : dnum) : dnum := add x (neg y).

Definition mul (x y : dnum) : dnum :=
  match x, y with
  | DNaN, _ | _, DNaN => DNaN
  | DInf a, DInf b => DInf (xorb a b)
  | DInf a, DFin m _ | DFin m _, DInf a =>
      if m =? 0 then DNaN else DInf (xorb a (m <? 0))
  | DFin m1 e1, DFin m2 e2 => mk (m1 * m2) (e1 + e2)
  end.

Definition div (x y : dnum) : dnum :=
  match x, y with
  | DNaN, _ | _, DNaN => DNaN
  | DInf _, DInf _ => DNaN
  | DInf a, DFin m _ => DInf (xorb a (m <? 0))
  | DFin _ _, DInf _ => DFin 0 0
  | DFin m1 e1, DFin m2 e2 =>
      if m2 =? 0 then (if m1 =? 0 then DNaN else DInf (m1 <? 0))
      else mk (Z.quot (m1 * 10 ^ 17) m2) (e1 - e2 - 17)
  end.

Definition gt (x y : dnum) : bool :=
  match x, y with
  | DNaN, _ | _, DNaN => false
  | DInf a, DInf b => negb a && b
  | DInf a, DFin _ _ => negb a
  | DFin _ _, DInf b => b
  | DFin m1 e1, DFin m2 e2 =>
      let '(a, b, _) := align m1 e1 m2 e2 in b <? a
  end.

Definition ge (x y : dnum) : bool :=
  match x, y with
  | DNaN, _ | _, DNaN => false
  | DInf a, DInf b => negb a || b
  | DInf a, DFin _ _ => negb a
  | DFin _ _, DInf b => b
  | DFin m1 e1, DFin m2 e2 =>
      let '(a, b, _) := align m1 e1 m2 e2 in b <=? a
  end.

Definition truthy (x : dnum) : bool :=
  match x with
  | DNaN => false
  | DInf _ => true
  | DFin m _ => negb (m =? 0)
  end.

(** The number written by the digits at the head of [s], after [acc]. *)
Fixpoint dval (acc : Z) (s : string) : Z :=
  match s with
  | EmptyString => acc
  | String c s' =>
      match JsInt.digit_of c with
      | Some d => dval (10 * acc + d) s'
      | None => acc
      end
  end.

(** Values in normal form, the ones [mk] builds. *)
Definition normal (x : dnum) : Prop :=
  match x with
  | DFin m e => (m = 0 ∧ e = 0) ∨ m mod 10 ≠ 0
  | _ => True
  end.

End Dec.

#[export] Instance dnum_number : JSNumber dnum := {|
  num_toString := Dec.toString;
  parseFloat := Dec.parseFloat;
  num_lit := Dec.mk;
  num_nan := DNaN;
  num_sub := Dec.sub;
  num_mul := Dec.mul;
  num_div := Dec.div;
  num_gt := Dec.gt;
  num_ge := Dec.ge;
  num_truthy := Dec.truthy;
|}.


(** ** Asynchronous code as trees of external calls *)

(** A thrown error or a rejected promise carries its message. *)
Inductive result (A : Type) : Type :=
| Ok (a : A)
| Err (message : string).
Arguments Ok {A} a.
Arguments Err {A} message.

Section Proc.
Context {C : Type} {R : C → Type}.

(** A computation that returns or performs the call [c] and continues
    with its reply. *)
Inductive proc (A : Type) : Type :=
| Ret (a : A)
| Call (c : C) (k : R c → proc A).
Arguments Ret {A} a.
Arguments Call {A} c k.

Fixpoint bind {A B} (p : proc A) (f : A → proc B) : proc B :=
  match p with
  | Ret a => f a
  | Call c k => Call c (λ r, bind (k r) f)
  end.

Definition call (c : C) : proc (R c) := Call c Ret.

(** One external call together with the reply it received. *)
Inductive event : Type := Ev (c : C) (r : R c).

(** [exec p tr a]: [p] can perform exactly the calls of [tr], receiving
    the recorded replies, and then return [a]. *)
Fixpoint exec {A} (p : proc A) (tr : list event) (a : A) : Prop :=
  match p with
  | Ret a' => tr = [] ∧ a' = a
  | Call c k => ∃ r tr', tr = Ev c r :: tr' ∧ exec (k r) tr' a
  end.

(** An environment answers a call knowing the calls made so far. *)
Definition oracle : Type := ∀ c : C, list event → R c.

Fixpoint run_from {A} (env : oracle) (past : list event) (p : proc A)
  : list event * A :=
  match p with
  | Ret a => ([], a)
  | Call c k =>
      let r := env c past in
      let '(tr, a) := run_from env (past ++ [Ev c r]) (k r) in
      (Ev c r :: tr, a)
  end.

Definition run {A} (env : oracle) (p : proc A) : list event * A :=
  run_from env [] p.

(** Exceptions on top of [proc]. *)
Definition ret {A} (a : A) : proc (result A) := Ret (Ok a).
Definition throw {A} (message : string) : proc (result A) := Ret (Err message).

Definition bind_ok {A B} (p : proc (result A)) (f : A → proc (result B))
  : proc (result B) :=
  bind p (λ r, match r with Ok a => f a | Err e => Ret (Err e) end).

(** [try { p } catch { h }] *)
Definition try_catch {A} (p : proc (result A)) (h : string → proc (result A))
  : proc (result A) :=
  bind p (λ r, match r with Ok a => Ret (Ok a) | Err e => h e end).

End Proc.
Arguments proc {C} R A.
Arguments Ret {C R A} a.
Arguments Call {C R A} c k.
Arguments event {C} R.
Arguments Ev {C R} c r.
Arguments oracle {C} R.

(** ** The platform: HTTP, the ledger client library, URLs *)

(** The [init] argument of [fetch]; the headers are keyed by lower-cased
    name, as the [Headers] class keeps them. *)
Record RequestInit := {
  init_method : option string;
  init_headers : gmap string string;
  init_body : option string;
}.

Record Response := {
  status : Z;
  body : string;
}.

(** Functions of the platform that are pure: [new URL(url).hostname]
    ([None]: the constructor throws) and the validity check of
    [new PublicKey(s)]. A valid [PublicKey] is identified with its
    base-58 text. *)
Class Platform := {
  url_hostname : string → option string;
  is_public_key : string → bool;
}.

Section Ledger.
Context {F : Type}.

Record TokenBalance := {
  accountIndex : Z;
  tb_mint : string;
  owner : option string;
  uiAmount : option F;
}.

(** The error object of a transaction that failed on chain. *)
Record TransactionError := { err_detail : string }.

(** [tx.meta]; [err] is [null] for a transaction that succeeded. *)
Record TransactionMeta := {
  err : option TransactionError;
  preBalances : list F;
  postBalances : list F;
  preTokenBalances : option (list TokenBalance);
  postTokenBalances : option (list TokenBalance);
}.

(** The reply of [connection.getTransaction]; [accountKeys] is
    [tx.transaction.message.getAccountKeys()], which can throw. *)
Record TransactionResponse := {
  meta : option TransactionMeta;
  accountKeys : result (list string);
}.

(** The external calls of the program. *)
Inductive extcall : Type :=
| DateNow
| HttpFetch (url : string) (init : option RequestInit)
| DnsResolver (domain : string)
| ResolveTxt (name : string)
| SendPayment (record : DNS402Record F)
| GetTransaction (signature : string)
| OnPayment (payment : PaymentProof).

Definition reply (c : extcall) : Type :=
  match c with
  | DateNow => Z
  | HttpFetch _ _ => result Response
  | DnsResolver _ => result (option string)
  | ResolveTxt _ => result (list (list string))
  | SendPayment _ => result PaymentProof
  | GetTransaction _ => result (option TransactionResponse)
  | OnPayment _ => result unit
  end.

End Ledger.
Arguments TokenBalance : clear implicits.
Arguments TransactionMeta : clear implicits.
Arguments TransactionResponse : clear implicits.
Arguments extcall : clear implicits.

Abbreviation io F := (proc (@reply F)).
Abbreviation trace F := (list (event (@reply F))).
Notation "'let*' x := p 'in' q" := (bind p (λ x, q))
  (at level 10, x pattern, p at level 100, q at level 200, only parsing).
Notation "'let*?' x := p 'in' q" := (bind_ok p (λ x, q))
  (at level 10, x pattern, p at level 100, q at level 200, only parsing).

(** ** core/solana.ts: verification of a payment *)

Section Solana.
Context {F : Type} `{JSNumber F} `{Platform}.

Definition LAMPORTS_PER_SOL : F := num_lit 1 9.

(** [expectedAmount * 0.99] *)
Definition min_accepted (expectedAmount : F) : F :=
  num_mul expectedAmount (num_lit 99 (-2)).

(** [new PublicKey(value)] *)
Definition new_PublicKey (value : string) : result string :=
  if is_public_key value then Ok value else Err "Invalid public key input".

(** [array[i]] read as a number: [NaN] in arithmetic when out of range. *)
Definition at_index (xs : list F) (i : nat) : F := default num_nan (xs !! i).

(** [(postBalances[i] - preBalances[i]) / LAMPORTS_PER_SOL] *)
Definition sol_received (meta : TransactionMeta F) (i : nat) : F :=
  num_div (num_sub (at_index (postBalances meta) i) (at_index (preBalances meta) i))
          LAMPORTS_PER_SOL.

(** The loop [for (let i = 0; i < accountKeys.length; i++)], from index
    [i] over the remaining keys. *)
Fixpoint scan_accounts (meta : TransactionMeta F) (recipient : string)
    (expectedAmount : F) (i : nat) (keys : list string) : bool :=
  match keys with
  | [] => false
  | key :: rest =>
      if bool_decide (key = recipient)
         && num_ge (sol_received meta i) (min_accepted expectedAmount)
      then true
      else scan_accounts meta recipient expectedAmount (S i) rest
  end.

(** [x || 0] for [x : number | null | undefined] *)
Definition amount_or_zero (x : option F) : F :=
  match x with
  | Some v => if num_truthy v then v else num_lit 0 0
  | None => num_lit 0 0
  end.

(** [preTokenBalances.find(p => p.accountIndex === post.accountIndex)] *)
Definition find_pre (pres : list (TokenBalance F)) (post : TokenBalance F)
  : option (TokenBalance F) :=
  List.find (λ p, accountIndex p =? accountIndex post) pres.

Definition token_received (pres : list (TokenBalance F)) (post : TokenBalance F) : F :=
  let preAmount := amount_or_zero (find_pre pres post ≫= uiAmount) in
  let postAmount := amount_or_zero (uiAmount post) in
  num_sub postAmount preAmount.

(** The loop [for (const post of postTokenBalances)]. *)
Fixpoint scan_tokens (pres : list (TokenBalance F)) (expectedRecipient : string)
    (expectedAmount : F) (posts : list (TokenBalance F)) : bool :=
  match posts with
  | [] => false
  | post :: rest =>
      if bool_decide (owner post = Some expectedRecipient)
         && num_ge (token_received pres post) (min_accepted expectedAmount)
      then true
      else scan_tokens pres expectedRecipient expectedAmount rest
  end.

(** The body of the [try] block once [getTransaction] has answered. *)
Definition check_transaction (tx : option (TransactionResponse F))
    (expectedRecipient : string) (expectedAmount : F) (currency : string)
  : result bool :=
  match tx with
  | None => Ok false
  | Some tx =>
      match meta tx with
      | None => Ok false
      | Some m =>
          match err m with
          | Some _ => Ok false
          | None =>
              match new_PublicKey expectedRecipient with
              | Err e => Err e
              | Ok recipientPubkey =>
                  if bool_decide (currency = "SOL") then
                    match accountKeys tx with
                    | Err e => Err e
                    | Ok keys =>
                        Ok (scan_accounts m recipientPubkey expectedAmount 0 keys)
                    end
                  else
                    Ok (scan_tokens (default [] (preTokenBalances m))
                          expectedRecipient expectedAmount
                          (default [] (postTokenBalances m)))
              end
          end
      end
  end.

Definition verifyPayment (signature expectedRecipient : string)
    (expectedAmount : F) (currency : string) : io F (result bool) :=
  try_catch
    (let*? tx := call (GetTransaction signature) in
     Ret (check_transaction tx expectedRecipient expectedAmount currency))
    (λ _, ret false).

End Solana.

(** ** core/dns.ts: resolution of the record of a domain *)

Section Resolve.
Context {F : Type} `{JSNumber F}.

Definition is_digit (c : ascii) : bool :=
  match JsInt.digit_of c with Some _ => true | None => false end.

Definition is_line_terminator (c : ascii) : bool :=
  match c with "010" | "013" => true | _ => false end%char.

(** [.replace(/^https?:\/\//, '')] *)
Definition strip_scheme (s : string) : string :=
  if starts_with "https://" s then drop 8 s
  else if starts_with "http://" s then drop 7 s
  else s.

(** [.replace(/\/.*$/, '')]: from the first slash that has no line
    terminator after it. *)
Fixpoint strip_path (s : string) : string :=
  match s with
  | EmptyString => EmptyString
  | String c s' =>
      if eqc c "/" && all_chars (λ d, negb (is_line_terminator d)) s'
      then EmptyString
      else String c (strip_path s')
  end.

(** [.replace(/:\d+$/, '')] *)
Fixpoint strip_port (s : string) : string :=
  match s with
  | EmptyString => EmptyString
  | String c s' =>
      if eqc c ":" && nonempty s' && all_chars is_digit s'
      then EmptyString
      else String c (strip_port s')
  end.

Definition clean_domain (domain : string) : string :=
  strip_port (strip_path (strip_scheme domain)).

(** The loop over the TXT records: chunks joined, first record that
    parses. *)
Fixpoint first_parsed (records : list (list string)) : option (DNS402Record F) :=
  match records with
  | [] => None
  | record :: rest =>
      match parseRecord (join "" record) with
      | Some parsed => Some parsed
      | None => first_parsed rest
      end
  end.

Definition resolveRecord (domain : string) : io F (result (option (DNS402Record F))) :=
  let recordDomain := "_402." ++ clean_domain domain in
  try_catch
    (let*? records := call (ResolveTxt recordDomain) in
     ret (first_parsed records))
    (λ _, ret None).

End Resolve.

(** ** server/middleware.ts: the gate *)

Section Server.
Context {F : Type} `{JSNumber F} `{Platform}.

Record PaymentSession := {
  ps_payer : string;
  ps_signature : string;
  ps_expiresAt : Z;
}.

Record DNS402ServerConfig := {
  srv_wallet : string;
  srv_price : F;
  srv_currency : string;
  srv_sessionTTL : option intnum;
  (** whether an [onPayment] callback is configured *)
  srv_onPayment : bool;
}.

(** The headers of the incoming request, keyed by lower-cased name. *)
Record Request := { req_headers : gmap string string }.

(** A field value of a JSON body. *)
Inductive json : Type :=
| JString (s : string)
| JNumber (x : F)
| JInteger (z : Z).

(** What the handler did with the request: [next()], or a response with
    its status, headers and JSON body. *)
Inductive reaction : Type :=
| Forwarded
| Replied (code : Z) (headers : list (string * string))
          (payload : list (string * json)).

(** The response that [send402] writes: status, headers in the order
    they are set, JSON body. It is the response for a configuration
    whose price, currency and wallet the HTTP layer takes as header
    values; [res.set] throws on a text with a character it refuses (a
    line feed, say), an error which this value does not show. *)
Definition send402 (config : DNS402ServerConfig) : reaction :=
  let sessionTTL := JsInt.or_default (srv_sessionTTL config) 3600 in
  Replied 402
    [ (Headers.PRICE, num_toString (srv_price config));
      (Headers.CURRENCY, srv_currency config);
      (Headers.NETWORK, "solana");
      (Headers.WALLET, srv_wallet config);
      (Headers.SESSION_TTL, JsInt.toString sessionTTL) ]
    [ ("error", JString "Payment Required");
      ("price", JNumber (srv_price config));
      ("currency", JString (srv_currency config));
      ("network", JString "solana");
      ("wallet", JString (srv_wallet config));
      ("sessionTTL", JInteger sessionTTL) ].

Definition reply403 : reaction :=
  Replied 403 []
    [ ("error", JString "Invalid payment proof");
      ("message", JString "Payment verification failed") ].

(** The callback of [setInterval]: entries with [expiresAt < now] are
    deleted. *)
Definition sweep_at (now : Z) (sessions : gmap string PaymentSession)
  : gmap string PaymentSession :=
  filter (λ entry, ¬ (ps_expiresAt entry.2 < now)) sessions.

Definition sweep (sessions : gmap string PaymentSession)
  : io F (gmap string PaymentSession) :=
  let* now := call DateNow in Ret (sweep_at now sessions).

(** The lookup of lines 37-38 at a given reading of the clock. *)
Definition live_session (sessions : gmap string PaymentSession) (payer : string)
    (now : Z) : option PaymentSession :=
  match sessions !! payer with
  | Some session => if ps_expiresAt session >? now then Some session else None
  | None => None
  end.

(** From "Verify payment" to the end of the handler. *)
Definition verify_and_grant (config : DNS402ServerConfig) (proof payer : string)
    (sessions : gmap string PaymentSession)
  : io F (gmap string PaymentSession * result reaction) :=
  let sessionTTL := JsInt.or_default (srv_sessionTTL config) 3600 * 1000 in
  let* isValid := verifyPayment proof (srv_wallet config) (srv_price config)
                    (srv_currency config) in
  match isValid with
  | Err e => Ret (sessions, Err e)
  | Ok false => Ret (sessions, Ok reply403)
  | Ok true =>
      let* now := call DateNow in
      let session := {| ps_payer := payer; ps_signature := proof;
                        ps_expiresAt := now + sessionTTL |} in
      let sessions := <[payer := session]> sessions in
      if srv_onPayment config then
        let* stamp := call DateNow in
        let* done := call (OnPayment {| signature := proof; payer := payer;
                                        timestamp := stamp |}) in
        match done with
        | Err e => Ret (sessions, Err e)
        | Ok _ => Ret (sessions, Ok Forwarded)
        end
      else Ret (sessions, Ok Forwarded)
  end.

(** From "No valid session, check for payment proof" on. *)
Definition challenge_or_verify (config : DNS402ServerConfig)
    (proof payer : option string) (sessions : gmap string PaymentSession)
  : io F (gmap string PaymentSession * result reaction) :=
  if negb (truthy proof) || negb (truthy payer)
  then Ret (sessions, Ok (send402 config))
  else verify_and_grant config (default "" proof) (default "" payer) sessions.

(** The request handler returned by [dns402(config)], on the session
    table of its closure. *)
Definition dns402 (config : DNS402ServerConfig) (req : Request)
    (sessions : gmap string PaymentSession)
  : io F (gmap string PaymentSession * result reaction) :=
  let proof := req_headers req !! toLowerCase Headers.PROOF in
  let payer := req_headers req !! toLowerCase Headers.PAYER in
  if truthy payer then
    match sessions !! default "" payer with
    | Some session =>
        let* now := call DateNow in
        if ps_expiresAt session >? now
        then Ret (sessions, Ok Forwarded)
        else challenge_or_verify config proof payer sessions
    | None => challenge_or_verify config proof payer sessions
    end
  else challenge_or_verify config proof payer sessions.

End Server.
Arguments DNS402ServerConfig : clear implicits.
Arguments json : clear implicits.
Arguments reaction : clear implicits.

(** ** client/client.ts *)

Section Client.
Context {F : Type} `{JSNumber F} `{Platform}.

Record AutoPay := {
  enabled : bool;
  maxAmount : F;
  ap_currency : string;
}.

Record DNS402ClientConfig := {
  autoPay : option AutoPay;
  sessionCache : bool;
  (** whether a custom [dnsResolver] is configured *)
  dnsResolver : bool;
}.

Definition discover (config : DNS402ClientConfig) (domain : string)
  : io F (result (option (DNS402Record F))) :=
  if dnsResolver config then
    let*? txt := call (DnsResolver domain) in
    if negb (truthy txt) then ret None
    else ret (parseRecord (default "" txt))
  else resolveRecord domain.

(** [pay] past the cache check. *)
Definition pay_fresh (config : DNS402ClientConfig) (domain : string)
    (cache : gmap string DNS402Session)
  : io F (gmap string DNS402Session * result DNS402Session) :=
  let* found := discover config domain in
  match found with
  | Err e => Ret (cache, Err e)
  | Ok None => Ret (cache, Err ("No DNS402 record found for " ++ domain))
  | Ok (Some record) =>
      let* sent := call (SendPayment record) in
      match sent with
      | Err e => Ret (cache, Err e)
      | Ok proof =>
          let* now := call DateNow in
          let session :=
            {| domain := domain; token := None; proof := proof;
               expiresAt := now + JsInt.or_default (ttl record) 3600 * 1000 |} in
          Ret (if sessionCache config then <[domain := session]> cache else cache,
               Ok session)
      end
  end.

Definition pay (config : DNS402ClientConfig) (domain : string)
    (cache : gmap string DNS402Session)
  : io F (gmap string DNS402Session * result DNS402Session) :=
  match cache !! domain with
  | Some cached =>
      let* now := call DateNow in
      if expiresAt cached >? now then Ret (cache, Ok cached)
      else pay_fresh config domain cache
  | None => pay_fresh config domain cache
  end.

(** [{ ...init, headers }] with the two proof headers set. *)
Definition with_proof (init : option RequestInit) (proof : PaymentProof)
  : RequestInit :=
  {| init_method := init ≫= init_method;
     init_headers :=
       <[toLowerCase Headers.PAYER := payer proof]>
         (<[toLowerCase Headers.PROOF := signature proof]>
            (default ∅ (init_headers <$> init)));
     init_body := init ≫= init_body |}.

Definition fetchWithProof (url : string) (init : option RequestInit)
    (proof : PaymentProof) : io F (result Response) :=
  call (HttpFetch url (Some (with_proof init proof))).

(** "Check auto-pay settings": the message of the error thrown, if any. *)
Definition autopay_refusal (config : DNS402ClientConfig) (record : DNS402Record F)
  : option string :=
  match autoPay config with
  | Some ap =>
      if enabled ap then
        if num_gt (price record) (maxAmount ap) then
          Some ("Price " ++ num_toString (price record) ++ " " ++ currency record
                ++ " exceeds auto-pay limit of " ++ num_toString (maxAmount ap)
                ++ " " ++ ap_currency ap)
        else if negb (bool_decide (currency record = ap_currency ap)) then
          Some ("Currency mismatch: expected " ++ ap_currency ap ++ ", got "
                ++ currency record)
        else None
      else Some ("Payment required: " ++ num_toString (price record) ++ " "
                 ++ currency record ++ ". Enable autoPay or call pay() first.")
  | None => Some ("Payment required: " ++ num_toString (price record) ++ " "
                  ++ currency record ++ ". Enable autoPay or call pay() first.")
  end.

(** [fetch] from "First attempt" on. *)
Definition fetch_unpaid (config : DNS402ClientConfig) (url domain : string)
    (init : option RequestInit) (cache : gmap string DNS402Session)
  : io F (gmap string DNS402Session * result Response) :=
  let* first := call (HttpFetch url init) in
  match first with
  | Err e => Ret (cache, Err e)
  | Ok response =>
      if negb (status response =? 402) then Ret (cache, Ok response)
      else
        let* found := discover config domain in
        match found with
        | Err e => Ret (cache, Err e)
        | Ok None =>
            Ret (cache, Err ("402 received but no DNS402 record found for " ++ domain))
        | Ok (Some record) =>
            match autopay_refusal config record with
            | Some message => Ret (cache, Err message)
            | None =>
                let* paid := pay config domain cache in
                match paid with
                | (cache, Err e) => Ret (cache, Err e)
                | (cache, Ok session) =>
                    let* retried := fetchWithProof url init (proof session) in
                    Ret (cache, retried)
                end
            end
        end
  end.

Definition fetch (config : DNS402ClientConfig) (url : string)
    (init : option RequestInit) (cache : gmap string DNS402Session)
  : io F (gmap string DNS402Session * result Response) :=
  match url_hostname url with
  | None => Ret (cache, Err "Invalid URL")
  | Some domain =>
      match cache !! domain with
      | Some cached =>
          let* now := call DateNow in
          if expiresAt cached >? now then
            let* answered := fetchWithProof url init (proof cached) in
            Ret (cache, answered)
          else fetch_unpaid config url domain init cache
      | None => fetch_unpaid config url domain init cache
      end
  end.

Definition clearCache (cache : gmap string DNS402Session)
  : gmap string DNS402Session := ∅.

Definition getSession (domain : string) (cache : gmap string DNS402Session)
  : io F (option DNS402Session) :=
  match cache !! domain with
  | Some session =>
      let* now := call DateNow in
      Ret (if expiresAt session >? now then Some session else None)
  | None => Ret None
  end.

End Client.
Arguments AutoPay : clear implicits.
Arguments DNS402ClientConfig : clear implicits.

(** ** Observations on traces *)

Section Observe.
Context {F : Type}.

(** The reading of the clock recorded by an event. *)
Definition clock_reading (e : event (@reply F)) : option Z :=
  match e with
  | Ev c r =>
      match c return reply c → option Z with
      | DateNow => λ now, Some now
      | _ => λ _, None
      end r
  end.

(** The record handed to the ledger-send collaborator. *)
Definition sent_record (e : event (@reply F)) : option (DNS402Record F) :=
  match e with
  | Ev (SendPayment record) _ => Some record
  | _ => None
  end.

Definition is_send (e : event (@reply F)) : bool :=
  match sent_record e with Some _ => true | None => false end.

(** The request of an HTTP call. *)
Definition http_request (e : event (@reply F)) : option (string * option RequestInit) :=
  match e with
  | Ev (HttpFetch url init) _ => Some (url, init)
  | _ => None
  end.

Definition is_http (e : event (@reply F)) : bool :=
  match http_request e with Some _ => true | None => false end.

(** The signature looked up on the ledger. *)
Definition ledger_query (e : event (@reply F)) : option string :=
  match e with
  | Ev (GetTransaction signature) _ => Some signature
  | _ => None
  end.

(** The payment reported to [onPayment]. *)
Definition reported_payment (e : event (@reply F)) : option PaymentProof :=
  match e with
  | Ev (OnPayment payment) _ => Some payment
  | _ => None
  end.

End Observe.

(** ** The session table of the gate under interleaved operations *)

Section Store.

(** What can happen to the table between a [set] and a later lookup: the
    timer callback running at some reading of the clock, and the handler
    storing a session for some payer. *)
Inductive store_op : Type :=
| OpSweep (now : Z)
| OpSet (payer : string) (session : PaymentSession).

Definition apply_op (sessions : gmap string PaymentSession) (op : store_op)
  : gmap string PaymentSession :=
  match op with
  | OpSweep now => sweep_at now sessions
  | OpSet payer session => <[payer := session]> sessions
  end.

Definition apply_ops (ops : list store_op) (sessions : gmap string PaymentSession)
  : gmap string PaymentSession :=
  fold_left apply_op ops sessions.

(** [op] does not overwrite the entry of [key]: it is a sweep, at any
    reading of the clock, or stores a session for another payer. *)
Definition op_keeps (key : string) (op : store_op) : Prop :=
  match op with
  | OpSweep _ => True
  | OpSet payer _ => payer ≠ key
  end.

(** A sweep that ran at a reading of the clock after [expiry]. *)
Definition swept_after (expiry : Z) (op : store_op) : Prop :=
  match op with
  | OpSweep now => expiry < now
  | OpSet _ _ => False
  end.

(** [op] happens no later than the lookup at time [t] and does not
    overwrite the entry of [key]. *)
Definition op_before (key : string) (t : Z) (op : store_op) : Prop :=
  match op with
  | OpSweep now => now ≤ t
  | OpSet payer _ => payer ≠ key
  end.

End Store.

(** ** Vocabulary for the statements about verification *)

Section Verdict.
Context {F : Type} `{JSNumber F} `{Platform}.

(** What [verifyPayment] returns once [getTransaction] has answered:
    an error raised inside the [try] block counts as [false]. *)
Definition verdict (answer : result (option (TransactionResponse F)))
    (expectedRecipient : string) (expectedAmount : F) (currency : string) : bool :=
  match answer with
  | Err _ => false
  | Ok tx =>
      match check_transaction tx expectedRecipient expectedAmount currency with
      | Ok b => b
      | Err _ => false
      end
  end.

(** [x || 0], as a relation: a number other than zero and [NaN] counts
    as itself; zero, [NaN], [null] and [undefined] count as [0]. *)
Definition counts_as (x : option F) (v : F) : Prop :=
  match x with
  | Some a => (num_truthy a = true ∧ v = a)
              ∨ (num_truthy a = false ∧ v = num_lit 0 0)
  | None => v = num_lit 0 0
  end.

(** [found] is the first balance of [pres] at the account index
    [index], and nothing when no balance of [pres] has that index. *)
Definition first_at_index (pres : list (TokenBalance F)) (index : Z)
    (found : option (TokenBalance F)) : Prop :=
  match found with
  | Some pre =>
      ∃ n, pres !! n = Some pre ∧ accountIndex pre = index ∧
           ∀ k p, (k < n)%nat → pres !! k = Some p → accountIndex p ≠ index
  | None => ∀ p, p ∈ pres → accountIndex p ≠ index
  end.

(** Some account key of the transaction is the recipient, and the
    lamport balance at its position, after minus before and divided by
    [10^9], is at least 99 % of the expected amount. A balance missing
    from either list counts as [NaN]. *)
Definition credited_sol (m : TransactionMeta F) (keys : list string)
    (recipient : string) (expectedAmount : F) : Prop :=
  ∃ i, keys !! i = Some recipient ∧
       num_ge (num_div (num_sub (default num_nan (postBalances m !! i))
                                (default num_nan (preBalances m !! i)))
                       (num_lit 1 9))
              (num_mul expectedAmount (num_lit 99 (-2))) = true.

(** Some token balance after the transaction is owned by the recipient,
    and its amount minus the amount of the first balance before the
    transaction at the same account index (nothing when there is none)
    is at least 99 % of the expected amount. *)
Definition credited_token (m : TransactionMeta F)
    (recipient : string) (expectedAmount : F) : Prop :=
  ∃ post pre after before,
    post ∈ default [] (postTokenBalances m) ∧
    owner post = Some recipient ∧
    first_at_index (default [] (preTokenBalances m)) (accountIndex post) pre ∧
    counts_as (uiAmount post) after ∧
    counts_as (pre ≫= uiAmount) before ∧
    num_ge (num_sub after before)
           (num_mul expectedAmount (num_lit 99 (-2))) = true.

(** The transaction was found with its metadata, succeeded, and credits
    the recipient, whose text is a valid public key (and, for SOL, the
    account keys of the transaction could be read). *)
Definition accepted (answer : result (option (TransactionResponse F)))
    (expectedRecipient : string) (expectedAmount : F) (currency : string) : Prop :=
  ∃ tx m,
    answer = Ok (Some tx) ∧ meta tx = Some m ∧ err m = None ∧
    is_public_key expectedRecipient = true ∧
    if bool_decide (currency = "SOL")
    then ∃ keys, accountKeys tx = Ok keys ∧
                 credited_sol m keys expectedRecipient expectedAmount
    else credited_token m expectedRecipient expectedAmount.

(** The session the gate stores for a verified proof. *)
Definition granted (config : DNS402ServerConfig F) (proof payer : string) (now : Z)
  : PaymentSession :=
  {| ps_payer := payer; ps_signature := proof;
     ps_expiresAt := now + JsInt.or_default (srv_sessionTTL config) 3600 * 1000 |}.

(** The event is the ledger lookup of a payment that verifies against
    the configuration of the gate. *)
Definition verified (config : DNS402ServerConfig F) (e : event (@reply F)) : bool :=
  match e with
  | Ev c r =>
      match c return reply c → bool with
      | GetTransaction _ =>
          λ answer, verdict answer (srv_wallet config) (srv_price config)
                      (srv_currency config)
      | _ => λ _, false
      end r
  end.

End Verdict.

(** ** Vocabulary for the statements about the client *)

Section ClientVocabulary.
Context {F : Type}.

(** A ledger-send call that succeeded. *)
Definition payment_succeeded (e : event (@reply F)) : bool :=
  match e with
  | Ev c r =>
      match c return reply c → bool with
      | SendPayment _ => λ r, match r with Ok _ => true | Err _ => false end
      | _ => λ _, false
      end r
  end.

(** Neither an HTTP call nor a ledger-send call. *)
Definition quiet (e : event (@reply F)) : Prop :=
  is_send e = false ∧ is_http e = false.

(** The session [pay] builds from a record, a proof and a reading of the
    clock. *)
Definition session_for (domain : string) (record : DNS402Record F)
    (proof : PaymentProof) (now : Z) : DNS402Session :=
  {| domain := domain; token := None; proof := proof;
     expiresAt := now + JsInt.or_default (ttl record) 3600 * 1000 |}.

End ClientVocabulary.

(** ** Vocabulary for the statements about the codec *)

Section CodecVocabulary.
Context {F : Type} `{JSNumber F}.

(** The entry that the loop body stores for a part, if any. *)
Definition pair_of (part : string) : option (string * string) :=
  let fields := split "=" part in
  match fields !! 0%nat, fields !! 1%nat with
  | Some key, Some value =>
      if nonempty key && nonempty value then Some (trim key, trim value) else None
  | _, _ => None
  end.



(** A text that goes through the wire format unchanged as a value:
    not empty, no [;], no [=], no white space at either end. *)
Definition clean (s : string) : bool :=
  nonempty s && negb (has_char ";" s) && negb (has_char "=" s)
  && bool_decide (trimStart s = s) && bool_decide (trimEnd s = s).

(** A character that is neither white space nor a separator of the
    wire format. *)
Definition plain_char (c : ascii) : bool :=
  negb (is_ws c || eqc c ";" || eqc c "=").

Definition opt_clean (o : option string) : bool :=
  match o with Some s => clean s | None => true end.

(** The constraints of the data model on a [PaymentTerms] value: the
    protocol tag, a non-negative price, the [solana] network, a positive
    integral [ttl] when there is one, one of the three payment models. *)
Definition valid_terms (t : DNS402Record F) : Prop :=
  version t = "dns402" ∧
  num_ge (price t) (num_lit 0 0) = true ∧
  nonempty (currency t) = true ∧
  network t = "solana" ∧
  nonempty (wallet t) = true ∧
  (∀ n, ttl t = Some n → ∃ z, n = IntVal z ∧ 0 < z ≤ JsInt.MAX_SAFE_INTEGER) ∧
  (model t = Some "per-request" ∨ model t = Some "session"
   ∨ model t = Some "subscription").

(** What the wire format needs on top: texts that survive [;]/[=]
    splitting and trimming, an upper-case currency, and a price that the
    language prints as such a text and reads back as the same number. *)
Definition wire_safe (t : DNS402Record F) : Prop :=
  clean (currency t) = true ∧
  toUpperCase (currency t) = currency t ∧
  clean (wallet t) = true ∧
  opt_clean (callback t) = true ∧
  opt_clean (mint t) = true ∧
  clean (num_toString (price t)) = true ∧
  parseFloat (num_toString (price t)) = price t.

End CodecVocabulary.

(** ** Concrete environments, for running the code *)

Module Demo.

Definition is_base58 (c : ascii) : bool :=
  let n := nat_of_ascii c in
  ((49 <=? n) && (n <=? 57)                       (* 1-9 *)
   || (65 <=? n) && (n <=? 90) && negb (n =? 73) && negb (n =? 79)   (* A-Z but I, O *)
   || (97 <=? n) && (n <=? 122) && negb (n =? 108))%nat.             (* a-z but l *)

(** The host of [https://host/path], and the shape of the base-58 text
    of a 32-byte key: 32 to 44 base-58 characters. *)
#[export] Instance platform : Platform := {|
  url_hostname url :=
    if starts_with "https://" url then Some (clean_domain url) else None;
  is_public_key s :=
    all_chars is_base58 s
    && (32 <=? String.length s)%nat && (String.length s <=? 44)%nat;
|}.

Definition merchant : string := "7xKXtg2CW87d97TXJSDpbD5jBkheTqA83TZRuJosgAsU".
Definition customer : string := "9WzDXwBbmkg8ZTbNMqUxvQRAyrZzDsGYdLVL9zYtAWWM".

(** An environment where every collaborator fails and the clock reads
    [now]. *)
Definition offline (now : Z) : oracle (@reply dnum) :=
  λ c _,
    match c return reply c with
    | DateNow => now
    | HttpFetch _ _ => Err "network"
    | DnsResolver _ => Err "dns"
    | ResolveTxt _ => Err "dns"
    | SendPayment _ => Err "ledger"
    | GetTransaction _ => Err "rpc"
    | OnPayment _ => Err "callback"
    end.

Definition price_1_cent : dnum := Dec.mk 1 (-2).

(** The gate of the second end-to-end scenario. *)
Definition gate : DNS402ServerConfig dnum :=
  {| srv_wallet := "W1"; srv_price := price_1_cent; srv_currency := "USDC";
     srv_sessionTTL := Some (IntVal 60); srv_onPayment := false |}.

(** A gate that is paid at the [merchant] address. *)
Definition shop (callback : bool) : DNS402ServerConfig dnum :=
  {| srv_wallet := merchant; srv_price := price_1_cent; srv_currency := "USDC";
     srv_sessionTTL := Some (IntVal 60); srv_onPayment := callback |}.

Definition request (headers : list (string * string)) : Request :=
  {| req_headers := list_to_map headers |}.

(** A confirmed transaction that moved [amount] USDC to the token
    account of [recipient], empty before. *)
Definition usdc_transfer (recipient : string) (amount : dnum)
  : TransactionResponse dnum :=
  {| meta := Some
       {| err := None;
          preBalances := []; postBalances := [];
          preTokenBalances := Some
            [ {| accountIndex := 1; tb_mint := USDC_MINTS.mainnet;
                 owner := Some recipient; uiAmount := None |} ];
          postTokenBalances := Some
            [ {| accountIndex := 1; tb_mint := USDC_MINTS.mainnet;
                 owner := Some recipient; uiAmount := Some amount |} ] |};
     accountKeys := Ok [customer; recipient] |}.

(** A confirmed transaction that took the token account of [recipient]
    from [before] to [after] USDC. *)
Definition usdc_top_up (recipient : string) (before after : dnum)
  : TransactionResponse dnum :=
  {| meta := Some
       {| err := None;
          preBalances := []; postBalances := [];
          preTokenBalances := Some
            [ {| accountIndex := 0; tb_mint := USDC_MINTS.mainnet;
                 owner := Some customer; uiAmount := Some (Dec.mk 80 0) |};
              {| accountIndex := 1; tb_mint := USDC_MINTS.mainnet;
                 owner := Some recipient; uiAmount := Some before |} ];
          postTokenBalances := Some
            [ {| accountIndex := 0; tb_mint := USDC_MINTS.mainnet;
                 owner := Some customer; uiAmount := Some (Dec.mk 79 0) |};
              {| accountIndex := 1; tb_mint := USDC_MINTS.mainnet;
                 owner := Some recipient; uiAmount := Some after |} ] |};
     accountKeys := Ok [customer; recipient] |}.

(** A confirmed transaction in which [recipient] takes part and that
    leaves its lamport balance as it was: the payer loses the fee. *)
Definition no_transfer (recipient : string) : TransactionResponse dnum :=
  {| meta := Some
       {| err := None;
          preBalances := [Dec.mk 5 9; Dec.mk 2 9];
          postBalances := [Dec.mk 4999995 3; Dec.mk 2 9];
          preTokenBalances := None; postTokenBalances := None |};
     accountKeys := Ok [customer; recipient] |}.

(** A ledger that knows one transfer, a clock that reads [now], and an
    [onPayment] callback that fails or not. *)
Definition ledger (tx : option (TransactionResponse dnum)) (now : Z)
    (callback_fails : bool) : oracle (@reply dnum) :=
  λ c _,
    match c return reply c with
    | DateNow => now
    | HttpFetch _ _ => Err "network"
    | DnsResolver _ => Err "dns"
    | ResolveTxt _ => Err "dns"
    | SendPayment _ => Err "ledger"
    | GetTransaction _ => Ok tx
    | OnPayment _ => if callback_fails then Err "callback" else Ok tt
    end.

Definition count_lookups (past : trace dnum) : nat :=
  length (List.filter (λ e, match e with Ev (DnsResolver _) _ => true | _ => false end)
                      past).

(** A server that answers 402 to every request, a resolver that
    publishes [first_txt] and, from the second lookup on, [later_txt],
    and a ledger client that pays. *)
Definition paywall (first_txt later_txt : string) (now : Z) : oracle (@reply dnum) :=
  λ c past,
    match c return reply c with
    | DateNow => now
    | HttpFetch _ _ => Ok {| status := 402; body := "Payment Required" |}
    | DnsResolver _ =>
        Ok (Some (if count_lookups past is O then first_txt else later_txt))
    | ResolveTxt _ => Err "dns"
    | SendPayment _ => Ok {| signature := "sig1"; payer := customer; timestamp := now |}
    | GetTransaction _ => Err "rpc"
    | OnPayment _ => Ok tt
    end.

Definition client (auto : option (AutoPay dnum)) : DNS402ClientConfig dnum :=
  {| autoPay := auto; sessionCache := true; dnsResolver := true |}.

Definition auto_5_cents : AutoPay dnum :=
  {| enabled := true; maxAmount := Dec.mk 5 (-2); ap_currency := "USDC" |}.

Definition cheap_txt : string := "v=dns402;p=0.01;c=USDC;n=solana;w=W1;t=1800".
Definition dear_txt : string := "v=dns402;p=100;c=SOL;n=solana;w=W2;t=1800".

(** Terms whose callback URL has a query string. *)
Definition terms_with_query : DNS402Record dnum :=
  {| version := "dns402"; price := price_1_cent; currency := "USDC";
     network := "solana"; wallet := "W1"; ttl := Some (IntVal 1800);
     model := Some "session"; callback := Some "https://a.io/cb?id=7";
     mint := None |}.

(** Terms whose callback URL has a path parameter. *)
Definition terms_with_parameter : DNS402Record dnum :=
  {| version := "dns402"; price := price_1_cent; currency := "USDC";
     network := "solana"; wallet := "W1"; ttl := Some (IntVal 1800);
     model := Some "session"; callback := Some "https://a.io/cb;lang";
     mint := None |}.

Definition terms_plain : DNS402Record dnum :=
  {| version := "dns402"; price := price_1_cent; currency := "USDC";
     network := "solana"; wallet := "W1"; ttl := Some (IntVal 1800);
     model := Some "session"; callback := Some "https://a.io/cb";
     mint := None |}.

Definition proof1 : PaymentProof :=
  {| signature := "sig1"; payer := customer; timestamp := 1000 |}.

Definition both_headers : Request :=
  request [("x-dns402-proof", "sig1"); ("x-dns402-payer", customer)].

Definition proof_only : Request := request [("x-dns402-proof", "sig1")].

Definition url : string := "https://api.example.com/data".

Definition cheap : DNS402Record dnum :=
  {| version := "dns402"; price := price_1_cent; currency := "USDC";
     network := "solana"; wallet := "W1"; ttl := Some (IntVal 1800);
     model := Some "per-request"; callback := None; mint := None |}.

Definition dear : DNS402Record dnum :=
  {| version := "dns402"; price := Dec.mk 100 0; currency := "SOL";
     network := "solana"; wallet := "W2"; ttl := Some (IntVal 1800);
     model := Some "per-request"; callback := None; mint := None |}.

Definition first_402 : event (@reply dnum) :=
  Ev (HttpFetch url None) (Ok {| status := 402; body := "Payment Required" |}).

Definition retry_402 : event (@reply dnum) :=
  Ev (HttpFetch url (Some (with_proof None proof1)))
     (Ok {| status := 402; body := "Payment Required" |}).


Definition cached : DNS402Session :=
  session_for "api.example.com" cheap proof1 1000.

Definition session_P1 : PaymentSession :=
  {| ps_payer := customer; ps_signature := "sig1"; ps_expiresAt := 61000 |}.

Definition session_P2 : PaymentSession :=
  {| ps_payer := "P2"; ps_signature := "sig2"; ps_expiresAt := 30000 |}.

Definition busy_ops : list store_op :=
  [OpSweep 20000; OpSet "P2" session_P2; OpSweep 60000].

End Demo.


(** ** core/dns.ts and server/middleware.ts: publishing a record *)

Section Publish.
Context {F : Type} `{JSNumber F}.

(** The double-quote character. *)
Definition dquote : string := String (ascii_of_nat 34) EmptyString.

(** [`_402.${domain} TXT "${value}"`]; the config object is handed to
    [generateRecord] as it is. *)
Definition generateDNSRecordString (domain : string) (config : RecordConfig F)
  : string :=
  let value := generateRecord config in
  "_402." ++ domain ++ " TXT " ++ dquote ++ value ++ dquote.

(** The argument of [createDNSRecord] and [createFullDNSRecord]. *)
Record DNSRecordOptions := {
  opt_price : F;
  opt_currency : string;
  opt_wallet : string;
  opt_sessionTTL : option intnum;
  opt_model : option string;
}.

(** The object literal built by both functions: [callback] and [mint]
    are not set. *)
Definition record_config (config : DNSRecordOptions) : RecordConfig F :=
  {| cfg_price := opt_price config; cfg_currency := opt_currency config;
     cfg_wallet := opt_wallet config; cfg_ttl := opt_sessionTTL config;
     cfg_model := opt_model config; cfg_callback := None; cfg_mint := None |}.

Definition createDNSRecord (config : DNSRecordOptions) : string :=
  generateRecord (record_config config).

Definition createFullDNSRecord (domain : string) (config : DNSRecordOptions)
  : string :=
  generateDNSRecordString domain (record_config config).

End Publish.
Arguments DNSRecordOptions : clear implicits.

(** ** core/solana.ts: sending a payment *)

(** [Math.floor] and [Math.pow]. *)
Class JSMath (F : Type) := {
  math_floor : F → F;
  math_pow : F → F → F;
}.

(** The constants that [core/solana.ts] imports from [core/types.ts]
    besides [USDC_MINTS]: the mint of the DNS402 token and the decimals
    of the two tokens. *)
Class TokenConstants (F : Type) := {
  DNS402_MINT : string;
  TOKEN_DECIMALS_USDC : F;
  TOKEN_DECIMALS_DNS402 : F;
}.

(** The instruction builders of the ledger client library
    ([SystemProgram.transfer], [createAssociatedTokenAccountInstruction],
    [createTransferInstruction]): pure, and free to throw on an argument
    they cannot encode.  [I] is the type of instructions. *)
Class InstructionBuilders (F I : Type) := {
  system_transfer : string → string → F → result I;
  create_account_instruction : string → string → string → string → result I;
  create_transfer_instruction : string → string → string → F → result I;
}.

Section Chain.
Context {I : Type}.

(** The calls that the sending functions await.  A [Keypair] is
    identified with the base-58 text of its public key; a [Transaction]
    is the list of its instructions. *)
Inductive chaincall : Type :=
| GetAssociatedTokenAddress (mint owner : string)
| GetAccount (address : string)
| SendAndConfirmTransaction (transaction : list I) (signers : list string)
| ClockNow.

Definition chainreply (c : chaincall) : Type :=
  match c with
  | GetAssociatedTokenAddress _ _ => result string
  | GetAccount _ => result unit
  | SendAndConfirmTransaction _ _ => result string
  | ClockNow => Z
  end.

End Chain.
Arguments chaincall : clear implicits.

Section Send.
Context {F I : Type} `{JSNumber F} `{JSMath F} `{TokenConstants F}
        `{InstructionBuilders F I} `{Platform}.

(** A synchronous step that can throw, inside an [async] function. *)
Definition lift {A} (r : result A) : proc (@chainreply I) (result A) := Ret r.

(** From [sendAndConfirmTransaction] to the returned proof. *)
Definition submit (payer : string) (transaction : list I)
  : proc (@chainreply I) (result PaymentProof) :=
  let*? signature := call (SendAndConfirmTransaction transaction [payer]) in
  let* now := call ClockNow in
  ret {| signature := signature; payer := payer; timestamp := now |}.

Definition sendSOLPayment (payer recipient : string) (amount : F)
  : proc (@chainreply I) (result PaymentProof) :=
  let*? recipientPubkey := lift (new_PublicKey recipient) in
  let lamports := math_floor (num_mul amount LAMPORTS_PER_SOL) in
  let*? transfer := lift (system_transfer payer recipientPubkey lamports) in
  submit payer [transfer].

Definition sendSPLTokenPayment (payer recipient : string) (amount : F)
    (mint : string) (decimals : F)
  : proc (@chainreply I) (result PaymentProof) :=
  let*? tokenMint := lift (new_PublicKey mint) in
  let*? recipientPubkey := lift (new_PublicKey recipient) in
  let*? payerATA := call (GetAssociatedTokenAddress tokenMint payer) in
  let*? recipientATA := call (GetAssociatedTokenAddress tokenMint recipientPubkey) in
  let*? transaction :=
    try_catch
      (let*? _ := call (GetAccount recipientATA) in ret [])
      (λ _, let*? create :=
              lift (create_account_instruction payer recipientATA
                      recipientPubkey tokenMint) in
            ret [create]) in
  let tokenAmount :=
    math_floor (num_mul amount (math_pow (num_lit 10 0) decimals)) in
  let*? transfer :=
    lift (create_transfer_instruction payerATA recipientATA payer tokenAmount) in
  submit payer (transaction ++ [transfer]).

(** [mint || USDC_MINTS.mainnet] *)
Definition mint_or_mainnet (mint : option string) : string :=
  if truthy mint then default "" mint else USDC_MINTS.mainnet.

Definition sendUSDCPayment (payer recipient : string) (amount : F)
    (mint : option string) : proc (@chainreply I) (result PaymentProof) :=
  sendSPLTokenPayment payer recipient amount (mint_or_mainnet mint)
    TOKEN_DECIMALS_USDC.

Definition sendDNS402Payment (payer recipient : string) (amount : F)
  : proc (@chainreply I) (result PaymentProof) :=
  sendSPLTokenPayment payer recipient amount DNS402_MINT TOKEN_DECIMALS_DNS402.

Definition sendPayment (payer : string) (record : DNS402Record F)
  : proc (@chainreply I) (result PaymentProof) :=
  if bool_decide (currency record = "SOL") then
    sendSOLPayment payer (wallet record) (price record)
  else if bool_decide (currency record = "USDC") then
    sendSPLTokenPayment payer (wallet record) (price record)
      (mint_or_mainnet (mint record)) TOKEN_DECIMALS_USDC
  else if bool_decide (currency record = "DNS402") then
    sendDNS402Payment payer (wallet record) (price record)
  else if truthy (mint record) then
    sendSPLTokenPayment payer (wallet record) (price record)
      (default "" (mint record)) (num_lit 6 0)
  else throw ("Unsupported currency: " ++ currency record).

End Send.

(** ** Vocabulary for the statements about sending *)

Section SendVocabulary.
Context {I : Type}.

(** The transaction handed to [sendAndConfirmTransaction]. *)
Definition submitted (e : event (@chainreply I)) : option (list I * list string) :=
  match e with
  | Ev (SendAndConfirmTransaction transaction signers) _ => Some (transaction, signers)
  | _ => None
  end.

Definition is_submit (e : event (@chainreply I)) : bool :=
  match submitted e with Some _ => true | None => false end.

(** The signature of a transaction that was confirmed. *)
Definition confirmed (e : event (@chainreply I)) : option string :=
  match e with
  | Ev c r =>
      match c return chainreply c → option string with
      | SendAndConfirmTransaction _ _ =>
          λ answer, match answer with Ok signature => Some signature | Err _ => None end
      | _ => λ _, None
      end r
  end.

(** A reading of the clock. *)
Definition is_clock (e : event (@chainreply I)) : bool :=
  match e with Ev ClockNow _ => true | _ => false end.

(** An execution that submits at most one transaction, returns a proof
    exactly for a confirmed one - its signature, the key of the payer,
    the clock read after the confirmation - and fails without any
    confirmation otherwise. *)
Definition pays_at_most_once (key : string)
    (tr : list (event (@chainreply I))) (out : result PaymentProof) : Prop :=
  (length (List.filter is_submit tr) ≤ 1)%nat ∧
  (∀ proof, out = Ok proof →
     ∃ pre transaction,
       tr = (pre ++ [Ev (SendAndConfirmTransaction transaction [key])
                        (Ok (signature proof));
                     Ev ClockNow (timestamp proof)])%list ∧
       List.filter is_submit pre = [] ∧ payer proof = key) ∧
  (∀ e, out = Err e → omap confirmed tr = [] ∧ List.filter is_clock tr = []).

End SendVocabulary.

(** ** Vocabulary for the statements about decoding and resolution *)

Section DecodeVocabulary.
Context {F : Type} `{JSNumber F}.

(** The keys that [parseRecord] reads. *)
Definition record_keys : list string :=
  ["v"; "p"; "c"; "n"; "w"; "t"; "m"; "cb"; "mint"].

(** [x || undefined] for an optional text. *)
Definition if_truthy (o : option string) : option string :=
  if truthy o then o else None.

(** An optional text that is not written (absent or empty) or goes
    through the wire format unchanged. *)
Definition skipped_or_clean (o : option string) : bool :=
  negb (truthy o) || opt_clean o.

(** What decoding gives for the record written from [config]. *)
Definition decoded_config (config : RecordConfig F) : DNS402Record F :=
  {| version := "dns402";
     price := cfg_price config;
     currency := toUpperCase (cfg_currency config);
     network := "solana";
     wallet := cfg_wallet config;
     ttl := if JsInt.truthy (cfg_ttl config) then cfg_ttl config else None;
     model := if truthy (cfg_model config) then cfg_model config
              else Some "per-request";
     callback := if_truthy (cfg_callback config);
     mint := if_truthy (cfg_mint config) |}.

(** The options that publish the terms of a gate. *)
Definition gate_options `{Platform} (config : DNS402ServerConfig F)
    (model : option string) : DNSRecordOptions F :=
  {| opt_price := srv_price config; opt_currency := srv_currency config;
     opt_wallet := srv_wallet config; opt_sessionTTL := srv_sessionTTL config;
     opt_model := model |}.

(** A bare host name: no scheme, path or port separator, no line end. *)
Definition bare_host (s : string) : bool :=
  negb (has_char "/" s) && negb (has_char ":" s).

(** A text without line terminator. *)
Definition one_line (s : string) : bool :=
  all_chars (λ d, negb (is_line_terminator d)) s.

(** The TXT records, chunks joined, in the order of the answer. *)
Definition joined (records : list (list string)) : list string :=
  List.map (join "") records.

End DecodeVocabulary.

(** ** Vocabulary for the statements about the client's requests *)

Section RequestVocabulary.
Context {F : Type}.

(** The answer that an HTTP call received. *)
Definition http_answer (e : event (@reply F)) : option (result Response) :=
  match e with
  | Ev c r =>
      match c return reply c → option (result Response) with
      | HttpFetch _ _ => λ answer, Some answer
      | _ => λ _, None
      end r
  end.

(** A DNS lookup, by the custom resolver or by [resolveTxt]. *)
Definition is_lookup (e : event (@reply F)) : bool :=
  match e with
  | Ev (DnsResolver _) _ | Ev (ResolveTxt _) _ => true
  | _ => false
  end.

(** The error with which a custom resolver failed. *)
Definition resolver_error (e : event (@reply F)) : option string :=
  match e with
  | Ev c r =>
      match c return reply c → option string with
      | DnsResolver _ =>
          λ answer, match answer with Err e => Some e | Ok _ => None end
      | _ => λ _, None
      end r
  end.

(** [config.autoPay?.enabled] *)
Definition autoPay_enabled (config : DNS402ClientConfig F) : bool :=
  match autoPay config with Some ap => enabled ap | None => false end.

End RequestVocabulary.

(** ** Vocabulary for the statements about token balances *)

Section BalanceVocabulary.
Context {F : Type}.

(** The answer that a ledger lookup received. *)
Definition ledger_answer (e : event (@reply F))
  : option (result (option (TransactionResponse F))) :=
  match e with
  | Ev c r =>
      match c return reply c → option (result (option (TransactionResponse F))) with
      | GetTransaction _ => λ answer, Some answer
      | _ => λ _, None
      end r
  end.

(** A token balance, a transaction with other mints written in their
    place. *)
Definition with_mint (f : TokenBalance F → string) (b : TokenBalance F)
  : TokenBalance F :=
  {| accountIndex := accountIndex b; tb_mint := f b; owner := owner b;
     uiAmount := uiAmount b |}.

Definition relabel_meta (f : TokenBalance F → string) (m : TransactionMeta F)
  : TransactionMeta F :=
  {| err := err m; preBalances := preBalances m; postBalances := postBalances m;
     preTokenBalances := List.map (with_mint f) <$> preTokenBalances m;
     postTokenBalances := List.map (with_mint f) <$> postTokenBalances m |}.

Definition relabel (f : TokenBalance F → string) (tx : TransactionResponse F)
  : TransactionResponse F :=
  {| meta := relabel_meta f <$> meta tx; accountKeys := accountKeys tx |}.

End BalanceVocabulary.

(** ** More concrete environments *)

Module Samples.
Import Demo.

(** Instructions, as the builders of the ledger library make them. *)
Inductive instruction : Type :=
| SystemTransfer (fromPubkey toPubkey : string) (lamports : dnum)
| CreateTokenAccount (payer associatedToken owner mint : string)
| TokenTransfer (source destination owner : string) (amount : dnum).

(** An amount is encoded when it is a non-negative integer. *)
Definition encodable (x : dnum) : bool :=
  match x with DFin m e => (0 <=? m) && (0 <=? e) | _ => false end.

#[export] Instance builders : InstructionBuilders dnum instruction := {|
  system_transfer fromPubkey toPubkey lamports :=
    if encodable lamports then Ok (SystemTransfer fromPubkey toPubkey lamports)
    else Err "cannot encode the amount";
  create_account_instruction payer associatedToken owner mint :=
    Ok (CreateTokenAccount payer associatedToken owner mint);
  create_transfer_instruction source destination owner amount :=
    if encodable amount then Ok (TokenTransfer source destination owner amount)
    else Err "cannot encode the amount";
|}.

Definition floor (x : dnum) : dnum :=
  match x with
  | DFin m e => if 0 <=? e then x else Dec.mk (m / 10 ^ (- e)) 0
  | _ => x
  end.

(** Powers with a natural exponent. *)
Definition pow (x y : dnum) : dnum :=
  match x, y with
  | DFin b eb, DFin n en =>
      if (0 <=? n) && (0 <=? en)
      then let k := n * 10 ^ en in Dec.mk (b ^ k) (eb * k)
      else DNaN
  | _, _ => DNaN
  end.

#[export] Instance math : JSMath dnum := {| math_floor := floor; math_pow := pow |}.

#[export] Instance tokens : TokenConstants dnum := {|
  DNS402_MINT := "DNS4o2TokenMint11111111111111111111111111111";
  TOKEN_DECIMALS_USDC := Dec.mk 6 0;
  TOKEN_DECIMALS_DNS402 := Dec.mk 6 0;
|}.

(** A ledger library where the token address of [owner] is [ata:owner],
    the token account of the recipient exists or not, and the
    transaction is confirmed or not. *)
Definition chain (account_exists : bool) (confirmation : result string) (now : Z)
  : oracle (@chainreply instruction) :=
  λ c _,
    match c return chainreply c with
    | GetAssociatedTokenAddress _ owner => Ok ("ata:" ++ owner)
    | GetAccount _ => if account_exists then Ok tt else Err "account not found"
    | SendAndConfirmTransaction _ _ => confirmation
    | ClockNow => now
    end.

(** A DNS that answers every TXT lookup with [records]. *)
Definition dns_server (records : list (list string)) : oracle (@reply dnum) :=
  λ c _,
    match c return reply c with
    | DateNow => 0
    | HttpFetch _ _ => Err "network"
    | DnsResolver _ => Err "dns"
    | ResolveTxt _ => Ok records
    | SendPayment _ => Err "ledger"
    | GetTransaction _ => Err "rpc"
    | OnPayment _ => Err "callback"
    end.

(** A server that asks for nothing. *)
Definition open_server (now : Z) : oracle (@reply dnum) :=
  λ c _,
    match c return reply c with
    | DateNow => now
    | HttpFetch _ _ => Ok {| status := 200; body := "hello" |}
    | DnsResolver _ => Err "dns"
    | ResolveTxt _ => Err "dns"
    | SendPayment _ => Err "ledger"
    | GetTransaction _ => Err "rpc"
    | OnPayment _ => Err "callback"
    end.

(** A config with a lower-case currency, a zero [ttl], no model and an
    empty callback. *)
Definition loose_config : RecordConfig dnum :=
  {| cfg_price := price_1_cent; cfg_currency := "usdc"; cfg_wallet := merchant;
     cfg_ttl := Some (IntVal 0); cfg_model := None; cfg_callback := Some "";
     cfg_mint := None |}.

Definition loose_terms : DNS402Record dnum :=
  {| version := "dns402"; price := price_1_cent; currency := "USDC";
     network := "solana"; wallet := merchant; ttl := None;
     model := Some "per-request"; callback := None; mint := None |}.

Definition usdc_terms : DNS402Record dnum :=
  {| version := "dns402"; price := price_1_cent; currency := "USDC";
     network := "solana"; wallet := merchant; ttl := Some (IntVal 1800);
     model := Some "per-request"; callback := None; mint := None |}.

(** Terms in a currency that the client does not know, without mint. *)
Definition euro_terms : DNS402Record dnum :=
  {| version := "dns402"; price := price_1_cent; currency := "EURC";
     network := "solana"; wallet := merchant; ttl := None;
     model := Some "per-request"; callback := None; mint := None |}.

(** One SOL to the merchant. *)
Definition sol_instruction : instruction :=
  SystemTransfer customer merchant (Dec.mk 1 9).

Definition payer_only : Request := request [("x-dns402-payer", customer)].

Definition payment : TransactionResponse dnum := usdc_transfer merchant price_1_cent.

(** The transfer submitted for [usdc_terms]: 0.01 USDC is 10000 units. *)
Definition usdc_instruction : instruction :=
  TokenTransfer ("ata:" ++ customer) ("ata:" ++ merchant) customer (Dec.mk 1 4).

End Samples.


(** * Properties *)

(** ** Executions *)

Section ExecFacts.
Context {C : Type} {R : C → Type}.

Lemma exec_bind {A B} (p : proc R A) (f : A → proc R B) tr b :
  exec (bind p f) tr b ↔
  ∃ t1 a t2, tr = (t1 ++ t2)%list ∧ exec p t1 a ∧ exec (f a) t2 b.
Proof.
  revert tr. induction p as [a|c k IH]; intros tr; simpl.
  - split.
    + intros Hf. exists [], a, tr. auto.
    + intros (t1 & a' & t2 & -> & [-> ->] & Hf). exact Hf.
  - split.
    + intros (r & tr' & -> & Hk). apply IH in Hk as (t1 & a & t2 & -> & Hp & Hf).
      exists (Ev c r :: t1), a, t2. split; [done|]. split; [|done].
      exists r, t1. auto.
    + intros (t1 & a & t2 & -> & (r & t1' & -> & Hk) & Hf).
      exists r, (t1' ++ t2)%list. split; [done|]. apply IH. eauto 6.
Qed.

(** Running against an environment produces an execution. *)
Lemma run_from_exec {A} (env : oracle R) (p : proc R A) past :
  exec p (run_from env past p).1 (run_from env past p).2.
Proof.
  revert past. induction p as [a|c k IH]; intros past; simpl; [done|].
  specialize (IH (env c past) (past ++ [Ev c (env c past)])%list).
  destruct (run_from env _ (k _)) as [tr a]. simpl in *. eauto.
Qed.

Lemma run_exec {A} (env : oracle R) (p : proc R A) tr a :
  run env p = (tr, a) → exec p tr a.
Proof.
  intros Hrun. pose proof (run_from_exec env p []) as Hexec.
  unfold run in Hrun. rewrite Hrun in Hexec. exact Hexec.
Qed.

End ExecFacts.

(** ** Session caches (C5, C6) *)

Section Sessions.
Context {F : Type} `{JSNumber F} `{Platform}.

Lemma sweep_at_lookup now (sessions : gmap string PaymentSession) key :
  sweep_at now sessions !! key =
  match sessions !! key with
  | Some s => if decide (ps_expiresAt s < now) then None else Some s
  | None => None
  end.
Proof.
  unfold sweep_at. destruct (sessions !! key) as [s|] eqn:E.
  - destruct (decide (ps_expiresAt s < now)) as [Hlt|Hge].
    + apply map_lookup_filter_None. right. intros s' Hs'. simpl.
      rewrite E in Hs'. injection Hs' as <-. tauto.
    + apply map_lookup_filter_Some. split; [done|]. simpl. exact Hge.
  - apply map_lookup_filter_None. left. exact E.
Qed.

(** An entry that is live at [t] survives every sweep that runs no later
    than [t]. *)
Lemma apply_ops_live ops key t (sessions : gmap string PaymentSession) s :
  Forall (op_before key t) ops →
  sessions !! key = Some s →
  t < ps_expiresAt s →
  apply_ops ops sessions !! key = Some s.
Proof.
  intros Hops. revert sessions.
  induction Hops as [|op ops Hop _ IH]; intros sessions Hs Hlive; simpl; [done|].
  apply IH; [|done]. destruct op as [now|payer s']; simpl in *.
  - rewrite sweep_at_lookup, Hs. destruct (decide _); [lia|done].
  - rewrite lookup_insert_ne; done.
Qed.

(** The entry of [key] is deleted only by a sweep that runs after its
    expiry. *)
Lemma apply_ops_gone ops key (sessions : gmap string PaymentSession) s :
  Forall (op_keeps key) ops →
  sessions !! key = Some s →
  apply_ops ops sessions !! key = Some s
  ∨ (apply_ops ops sessions !! key = None
     ∧ Exists (swept_after (ps_expiresAt s)) ops).
Proof.
  intros Hops. revert sessions.
  induction Hops as [|op ops Hop Hrest IH]; intros sessions Hs; simpl; [by left|].
  destruct op as [now|payer s']; simpl in *.
  - destruct (decide (ps_expiresAt s < now)) as [Hlt|Hge].
    + right. split; [|by apply Exists_cons_hd].
      assert (sweep_at now sessions !! key = None) as Hgone.
      { rewrite sweep_at_lookup, Hs. by destruct (decide _). }
      clear IH Hs. revert Hgone. generalize (sweep_at now sessions).
      clear Hop. induction Hrest as [|op ops' Hop' _ IH]; intros table Hgone; simpl; [done|].
      apply IH. destruct op as [now'|payer s']; simpl in *.
      * by rewrite sweep_at_lookup, Hgone.
      * by rewrite lookup_insert_ne.
    + destruct (IH (sweep_at now sessions)) as [Hkept|[Hgone Hex]].
      * rewrite sweep_at_lookup, Hs. by destruct (decide _).
      * by left.
      * right. split; [done|by apply Exists_cons_tl].
  - destruct (IH (<[payer := s']> sessions)) as [Hkept|[Hgone Hex]].
    + by rewrite lookup_insert_ne.
    + by left.
    + right. split; [done|by apply Exists_cons_tl].
Qed.

Lemma clock_event_inj now now' (rest rest' : trace F) :
  Ev DateNow now :: rest = Ev DateNow now' :: rest' → now = now' ∧ rest = rest'.
Proof.
  intros Heq. split.
  - apply (f_equal (λ tr, hd_error tr ≫= clock_reading)) in Heq.
    simpl in Heq. by injection Heq.
  - apply (f_equal (List.tl)) in Heq. exact Heq.
Qed.

(** The handler on a table that holds a session for the payer of the
    request: it reads the clock, forwards before the expiry, and goes
    on to the proof check from the expiry on. *)
Lemma dns402_session_exec (config : DNS402ServerConfig F) (req : Request)
    (table table' : gmap string PaymentSession) key s tr out :
  req_headers req !! toLowerCase Headers.PAYER = Some key →
  key ≠ "" →
  table !! key = Some s →
  exec (dns402 config req table) tr (table', out) ↔
  ∃ now rest,
    tr = Ev DateNow now :: rest ∧
    if ps_expiresAt s >? now
    then rest = [] ∧ table' = table ∧ out = Ok Forwarded
    else exec (challenge_or_verify config
                 (req_headers req !! toLowerCase Headers.PROOF) (Some key) table)
              rest (table', out).
Proof.
  intros Hpayer Hkey Hs. unfold dns402. rewrite Hpayer.
  assert (truthy (Some key) = true) as -> by by destruct key.
  simpl. rewrite Hs. simpl. split.
  - intros (now & rest & -> & Hrest). exists now, rest. split; [done|].
    destruct (ps_expiresAt s >? now); [|done].
    simpl in Hrest. destruct Hrest as [-> [= <- <-]]. done.
  - intros (now & rest & -> & Hrest). exists now, rest. split; [done|].
    destruct (ps_expiresAt s >? now); [|done].
    destruct Hrest as (-> & -> & ->). done.
Qed.

(** The handler on a table without a session for the payer of the
    request is the proof check. *)
Lemma dns402_no_session (config : DNS402ServerConfig F) (req : Request)
    (table : gmap string PaymentSession) key :
  req_headers req !! toLowerCase Headers.PAYER = Some key →
  table !! key = None →
  dns402 config req table
  = challenge_or_verify config (req_headers req !! toLowerCase Headers.PROOF)
      (Some key) table.
Proof.
  intros Hpayer Hnone. unfold dns402. rewrite Hpayer. simpl. rewrite Hnone.
  by destruct (nonempty key).
Qed.

(** C6 (amended). Session monotonicity, on the handler of the gate and
    on the client's [getSession]. Once a session is stored under a
    payer with expiry [e], and whatever sweeps ran and whatever
    sessions were stored for other payers in between: a request of
    that payer handled at a reading [t < e] of the clock, after sweeps
    that ran at readings up to [t], is forwarded on the session, with
    no other call and no change of the table; a request handled at a
    reading [t >= e] is never forwarded on the session: the handler
    goes on as for a request without session; and the session leaves
    the table only through a sweep that ran at a reading after [e],
    from when on the handler does not read the clock and treats the
    request as one without session. [getSession] returns the cached
    session at readings before its expiry and nothing from then on. *)
Theorem session_monotonicity
    (config : DNS402ServerConfig F) (req : Request)
    (sessions : gmap string PaymentSession) (key : string) (s : PaymentSession)
    (ops : list store_op)
    (cache : gmap string DNS402Session) (domain : string) (c : DNS402Session) :
  req_headers req !! toLowerCase Headers.PAYER = Some key →
  key ≠ "" →
  Forall (op_keeps key) ops →
  let proof := req_headers req !! toLowerCase Headers.PROOF in
  let later := apply_ops ops (<[key := s]> sessions) in
  (* a request handled before the expiry *)
  (∀ t, t < ps_expiresAt s → Forall (op_before key t) ops →
     exec (dns402 config req later) [Ev DateNow t] (later, Ok Forwarded) ∧
     (∀ rest sessions' out,
        exec (dns402 config req later) (Ev DateNow t :: rest) (sessions', out) →
        rest = [] ∧ sessions' = later ∧ out = Ok Forwarded) ∧
     (∀ tr sessions' out,
        exec (dns402 config req later) tr (sessions', out) →
        ∃ now rest, tr = Ev DateNow now :: rest)) ∧
  (* a request handled from the expiry on *)
  (∀ t rest sessions' out,
     ps_expiresAt s ≤ t →
     exec (dns402 config req later) (Ev DateNow t :: rest) (sessions', out) →
     exec (challenge_or_verify config proof (Some key) later) rest (sessions', out)) ∧
  (* the session is in the table until a sweep after its expiry *)
  (later !! key = Some s
   ∨ (later !! key = None ∧ Exists (swept_after (ps_expiresAt s)) ops ∧
      dns402 config req later = challenge_or_verify config proof (Some key) later)) ∧
  (* the cache of the client *)
  (∀ tr (found : option DNS402Session),
     exec (getSession (F:=F) domain (<[domain := c]> cache)) tr found →
     ∃ now, tr = [Ev DateNow now] ∧
            (now < expiresAt c → found = Some c) ∧
            (expiresAt c ≤ now → found = None)).
Proof.
  intros Hpayer Hkey Hops proof later.
  assert (later !! key = Some s
          ∨ (later !! key = None ∧ Exists (swept_after (ps_expiresAt s)) ops))
    as Hlater.
  { apply apply_ops_gone; [done|apply lookup_insert_eq]. }
  split; [|split; [|split]].
  - intros t Hlive Hbefore.
    assert (later !! key = Some s) as Hs.
    { apply (apply_ops_live ops key t); [done|apply lookup_insert_eq|done]. }
    split; [|split].
    + apply (dns402_session_exec config req later later key s); [done..|].
      exists t, []. split; [done|].
      destruct (Z.gtb_spec (ps_expiresAt s) t); [done|lia].
    + intros rest sessions' out Hexec.
      apply (dns402_session_exec config req later sessions' key s) in Hexec;
        [|done..].
      destruct Hexec as (now & rest' & Heq & Hrest).
      apply clock_event_inj in Heq as [<- <-].
      destruct (Z.gtb_spec (ps_expiresAt s) t); [done|lia].
    + intros tr sessions' out Hexec.
      apply (dns402_session_exec config req later sessions' key s) in Hexec;
        [|done..].
      destruct Hexec as (now & rest & -> & _). by exists now, rest.
  - intros t rest sessions' out Hdead Hexec.
    destruct Hlater as [Hs|[Hnone _]].
    + apply (dns402_session_exec config req later sessions' key s) in Hexec;
        [|done..].
      destruct Hexec as (now & rest' & Heq & Hrest).
      apply clock_event_inj in Heq as [<- <-].
      destruct (Z.gtb_spec (ps_expiresAt s) t); [lia|done].
    + rewrite (dns402_no_session config req later key) in Hexec by done.
      unfold challenge_or_verify, verify_and_grant, verifyPayment, try_catch,
        bind_ok in Hexec.
      destruct (negb (truthy (req_headers req !! toLowerCase Headers.PROOF))
                || negb (truthy (Some key))); simpl in Hexec.
      * by destruct Hexec as [[=] _].
      * destruct Hexec as (answer & tr' & [=] & _).
  - destruct Hlater as [Hs|[Hnone Hswept]]; [by left|right].
    split; [done|]. split; [done|]. by apply dns402_no_session.
  - intros tr found Hexec. unfold getSession in Hexec.
    rewrite lookup_insert_eq in Hexec. simpl in Hexec.
    destruct Hexec as (now & tr' & -> & -> & <-). exists now.
    split; [done|]. destruct (Z.gtb_spec (expiresAt c) now); split; (done || lia).
Qed.

(** C5. [pay] is idempotent per live session: when the cache holds a
    session for the domain, [pay] first reads the clock, and if the
    session has not expired at that reading it returns the cached session
    and does nothing else: no discovery, no call of the ledger-send
    collaborator, no change of the cache. *)
Theorem pay_idempotent_per_live_session
    (config : DNS402ClientConfig F) (domain : string)
    (cache : gmap string DNS402Session) (cached : DNS402Session)
    (tr : trace F) (cache' : gmap string DNS402Session)
    (paid : result DNS402Session) :
  cache !! domain = Some cached →
  exec (pay config domain cache) tr (cache', paid) →
  ∃ now rest,
    tr = Ev DateNow now :: rest ∧
    (now < expiresAt cached →
       rest = [] ∧ paid = Ok cached ∧ cache' = cache
       ∧ List.filter is_send tr = []).
Proof.
  intros Hcached Hexec. unfold pay in Hexec. rewrite Hcached in Hexec.
  simpl in Hexec. destruct Hexec as (now & rest & -> & Hrest).
  exists now, rest. split; [done|]. intros Hlive.
  destruct (Z.gtb_spec (expiresAt cached) now); [|lia].
  simpl in Hrest. destruct Hrest as [-> [= <- <-]]. done.
Qed.

(** After a successful [pay] with the session cache enabled the domain
    holds the session returned, so that a second [pay] before its expiry
    falls under the theorem above. *)
Lemma pay_caches_session
    (config : DNS402ClientConfig F) (domain : string)
    (cache : gmap string DNS402Session) (tr : trace F)
    (cache' : gmap string DNS402Session) (session : DNS402Session) :
  sessionCache config = true →
  exec (pay config domain cache) tr (cache', Ok session) →
  cache' !! domain = Some session.
Proof.
  intros Hon Hexec.
  assert (Hfresh : ∀ tr', exec (pay_fresh config domain cache) tr' (cache', Ok session) →
                          cache' !! domain = Some session).
  { clear Hexec. intros tr' Hexec. unfold pay_fresh in Hexec.
    apply exec_bind in Hexec as (t1 & found & t2 & -> & _ & Hexec).
    destruct found as [[record|]|e]; simpl in Hexec.
    - destruct Hexec as ([proof|e] & t3 & -> & Hexec); simpl in Hexec.
      + destruct Hexec as (now & t4 & -> & -> & [= <- <-]).
        rewrite Hon. apply lookup_insert_eq.
      + destruct Hexec as [_ [=]].
    - destruct Hexec as [_ [=]].
    - destruct Hexec as [_ [=]]. }
  unfold pay in Hexec. destruct (cache !! domain) as [cached|] eqn:E; [|eauto].
  simpl in Hexec. destruct Hexec as (now & rest & -> & Hrest).
  destruct (expiresAt cached >? now); [|eauto].
  simpl in Hrest. destruct Hrest as [_ [= <- <-]]. done.
Qed.

End Sessions.

(** ** Verification of a payment (C2) *)

Section Verification.
Context {F : Type} `{JSNumber F} `{Platform}.

Lemma scan_accounts_true (m : TransactionMeta F) recipient amount keys i :
  scan_accounts m recipient amount i keys = true ↔
  ∃ j, keys !! j = Some recipient ∧
       num_ge (sol_received m (i + j)) (min_accepted amount) = true.
Proof.
  revert i. induction keys as [|key rest IH]; intros i; simpl.
  - split; [done|]. intros (j & Hj & _). by destruct j.
  - destruct (bool_decide (key = recipient)
              && num_ge (sol_received m i) (min_accepted amount)) eqn:E.
    + split; [|done]. intros _. apply andb_true_iff in E as [Hk Hge].
      apply bool_decide_eq_true in Hk as ->. exists 0%nat.
      rewrite Nat.add_0_r. done.
    + rewrite IH. split.
      * intros (j & Hj & Hge). exists (S j).
        rewrite Nat.add_succ_r. done.
      * intros ([|j] & Hj & Hge).
        -- simpl in Hj. injection Hj as ->. rewrite Nat.add_0_r in Hge.
           rewrite Hge, bool_decide_eq_true_2 in E; done.
        -- exists j. rewrite Nat.add_succ_r in Hge. done.
Qed.

Lemma scan_tokens_true (pres posts : list (TokenBalance F)) recipient amount :
  scan_tokens pres recipient amount posts = true ↔
  ∃ post, post ∈ posts ∧ owner post = Some recipient ∧
          num_ge (token_received pres post) (min_accepted amount) = true.
Proof.
  induction posts as [|post rest IH]; simpl.
  - split; [done|]. intros (p & Hp & _). by apply elem_of_nil in Hp.
  - destruct (bool_decide (owner post = Some recipient)
              && num_ge (token_received pres post) (min_accepted amount)) eqn:E.
    + split; [|done]. intros _. apply andb_true_iff in E as [Ho Hge].
      apply bool_decide_eq_true in Ho. exists post.
      split; [apply elem_of_cons; by left|done].
    + rewrite IH. split.
      * intros (p & Hp & Hrest). exists p. split; [apply elem_of_cons; by right|done].
      * intros (p & Hp & Ho & Hge). apply elem_of_cons in Hp as [->|Hp].
        -- rewrite Hge, bool_decide_eq_true_2 in E; done.
        -- exists p. done.
Qed.

(** [find] returns the first balance at the account index of [post]. *)
Lemma find_pre_first (pres : list (TokenBalance F)) post :
  first_at_index pres (accountIndex post) (find_pre pres post).
Proof.
  unfold find_pre. induction pres as [|p rest IH]; simpl.
  - intros p Hp. by apply elem_of_nil in Hp.
  - destruct (Z.eqb_spec (accountIndex p) (accountIndex post)) as [Heq|Hne].
    + exists 0%nat. split; [done|]. split; [done|]. intros k q Hk. lia.
    + destruct (List.find _ rest) as [pre|]; simpl in *.
      * destruct IH as (n & Hn & Hi & Hfirst). exists (S n).
        split; [done|]. split; [done|].
        intros [|k] q Hk Hq; simpl in Hq.
        -- by injection Hq as <-.
        -- apply (Hfirst k q); [lia|done].
      * intros q Hq. apply elem_of_cons in Hq as [->|Hq]; [done|by apply IH].
Qed.

Lemma first_at_index_unique (pres : list (TokenBalance F)) index a b :
  first_at_index pres index a → first_at_index pres index b → a = b.
Proof.
  destruct a as [pa|], b as [pb|]; simpl.
  - intros (n & Hn & Hi & Hfirst) (n' & Hn' & Hi' & Hfirst').
    destruct (Nat.lt_trichotomy n n') as [Hlt|[->|Hgt]].
    + by destruct (Hfirst' n pa Hlt Hn).
    + congruence.
    + by destruct (Hfirst n' pb Hgt Hn').
  - intros (n & Hn & Hi & _) Hnone.
    destruct (Hnone pa); [by eapply list_elem_of_lookup_2|done].
  - intros Hnone (n & Hn & Hi & _).
    destruct (Hnone pb); [by eapply list_elem_of_lookup_2|done].
  - done.
Qed.

Lemma counts_as_amount (x : option F) (v : F) :
  counts_as x v ↔ v = amount_or_zero x.
Proof.
  unfold counts_as, amount_or_zero. destruct x as [a|]; [|done].
  destruct (num_truthy a); split.
  - by intros [[_ ->]|[? _]].
  - intros ->. by left.
  - by intros [[? _]|[_ ->]].
  - intros ->. by right.
Qed.

Lemma credited_sol_scan (m : TransactionMeta F) keys recipient amount :
  scan_accounts m recipient amount 0 keys = true ↔
  credited_sol m keys recipient amount.
Proof. rewrite scan_accounts_true. done. Qed.

Lemma credited_token_scan (m : TransactionMeta F) recipient amount :
  scan_tokens (default [] (preTokenBalances m)) recipient amount
    (default [] (postTokenBalances m)) = true ↔
  credited_token m recipient amount.
Proof.
  rewrite scan_tokens_true. unfold credited_token, token_received, min_accepted.
  split.
  - intros (post & Hp & Ho & Hge).
    exists post, (find_pre (default [] (preTokenBalances m)) post),
      (amount_or_zero (uiAmount post)),
      (amount_or_zero (find_pre (default [] (preTokenBalances m)) post ≫= uiAmount)).
    split; [done|]. split; [done|]. split; [apply find_pre_first|].
    split; [by apply counts_as_amount|]. split; [by apply counts_as_amount|done].
  - intros (post & pre & after & before & Hp & Ho & Hpre & Ha & Hb & Hge).
    exists post. split; [done|]. split; [done|].
    apply counts_as_amount in Ha as ->. apply counts_as_amount in Hb as ->.
    by rewrite (first_at_index_unique _ _ _ _ (find_pre_first _ post) Hpre).
Qed.

Lemma verdict_true answer recipient (amount : F) currency :
  verdict answer recipient amount currency = true ↔
  accepted answer recipient amount currency.
Proof.
  unfold verdict, accepted, check_transaction, new_PublicKey.
  destruct answer as [[tx|]|e].
  - destruct (meta tx) as [m|] eqn:Em.
    + destruct (err m) as [failure|] eqn:Ee.
      * split; [done|]. intros (tx' & m' & [= <-] & Hm & He & _).
        rewrite Em in Hm. injection Hm as <-. congruence.
      * destruct (is_public_key recipient) eqn:Ek.
        -- destruct (bool_decide (currency = "SOL")) eqn:Ec.
           ++ destruct (accountKeys tx) as [keys|e] eqn:Ea.
              ** rewrite credited_sol_scan. split.
                 --- intros Hscan. exists tx, m. repeat (split; [done|]).
                     exists keys. split; [done|]. exact Hscan.
                 --- intros (tx' & m' & [= <-] & Hm & _ & _ & Hc).
                     rewrite Em in Hm. injection Hm as <-.
                     destruct Hc as (keys' & Hk & Hc). rewrite Ea in Hk.
                     injection Hk as <-. exact Hc.
              ** split; [done|]. intros (tx' & m' & [= <-] & _ & _ & _ & Hc).
                 destruct Hc as (keys' & Hk & _). congruence.
           ++ rewrite credited_token_scan. split.
              ** intros Hscan. exists tx, m. done.
              ** intros (tx' & m' & [= <-] & Hm & _ & _ & Hc).
                 rewrite Em in Hm. injection Hm as <-. exact Hc.
        -- split; [done|]. intros (tx' & m' & _ & _ & _ & [=] & _).
    + split; [done|]. intros (tx' & m' & [= <-] & Hm & _). congruence.
  - split; [done|]. intros (tx' & m' & [=] & _).
  - split; [done|]. intros (tx' & m' & [=] & _).
Qed.

(** [verifyPayment] makes one ledger lookup and returns a boolean. *)
Lemma verifyPayment_exec signature recipient (amount : F) currency tr out :
  exec (verifyPayment signature recipient amount currency) tr out ↔
  ∃ answer, tr = [Ev (GetTransaction signature) answer] ∧
            out = Ok (verdict answer recipient amount currency).
Proof.
  unfold verifyPayment, try_catch, bind_ok, ret, verdict. simpl. split.
  - intros (answer & tr' & -> & Hk). exists answer.
    destruct answer as [tx|e]; simpl in Hk.
    + destruct (check_transaction tx recipient amount currency);
        simpl in Hk; destruct Hk as [-> <-]; done.
    + destruct Hk as [-> <-]. done.
  - intros (answer & -> & ->). exists answer, []. split; [done|].
    destruct answer as [tx|e]; simpl; [|done].
    destruct (check_transaction tx recipient amount currency); done.
Qed.

(** C2 (amended). [verifyPayment] never throws: every execution
    consists of one [getTransaction] lookup and ends with a boolean.
    The boolean is [true] exactly when the transaction was found with
    its metadata, is not marked failed, the recipient text is a valid
    public key, and an account of the recipient is credited: for SOL
    the account keys can be read and, at the position of some key equal
    to the recipient, the lamport balance after minus before, divided
    by [10^9], is at least [expectedAmount * 0.99]; for a token some
    balance after the transaction is owned by the recipient and its
    amount, minus the amount of the first balance before the
    transaction at the same account index, is at least
    [expectedAmount * 0.99]. In every other case it is [false]: when
    the lookup fails or finds nothing, when the transaction is marked
    failed, when the recipient is not a valid key, when the recipient
    is among no account of the transaction, and when no account of
    the recipient received the minimum. *)
Theorem verifyPayment_never_throws_and_rejects
    (signature recipient : string) (amount : F) (currency : string)
    (tr : trace F) (out : result bool) :
  exec (verifyPayment signature recipient amount currency) tr out →
  ∃ answer b,
    tr = [Ev (GetTransaction signature) answer] ∧ out = Ok b ∧
    (* true exactly for a credited recipient *)
    (b = true ↔
     ∃ tx m,
       answer = Ok (Some tx) ∧ meta tx = Some m ∧ err m = None ∧
       is_public_key recipient = true ∧
       ((currency = "SOL" ∧
         ∃ keys i,
           accountKeys tx = Ok keys ∧ keys !! i = Some recipient ∧
           num_ge (num_div (num_sub (default num_nan (postBalances m !! i))
                                    (default num_nan (preBalances m !! i)))
                           (num_lit 1 9))
                  (num_mul amount (num_lit 99 (-2))) = true)
        ∨ (currency ≠ "SOL" ∧
           ∃ post pre after before,
             post ∈ default [] (postTokenBalances m) ∧
             owner post = Some recipient ∧
             first_at_index (default [] (preTokenBalances m))
               (accountIndex post) pre ∧
             counts_as (uiAmount post) after ∧
             counts_as (pre ≫= uiAmount) before ∧
             num_ge (num_sub after before)
                    (num_mul amount (num_lit 99 (-2))) = true))) ∧
    (* transaction not found, or the lookup itself failed *)
    (answer = Ok None → b = false) ∧
    (∀ e, answer = Err e → b = false) ∧
    (∀ tx, answer = Ok (Some tx) → meta tx = None → b = false) ∧
    (* transaction marked failed on chain *)
    (∀ tx m, answer = Ok (Some tx) → meta tx = Some m → is_Some (err m) →
             b = false) ∧
    (* the recipient is not a valid key; the account keys cannot be read *)
    (is_public_key recipient = false → b = false) ∧
    (∀ tx e, answer = Ok (Some tx) → currency = "SOL" →
             accountKeys tx = Err e → b = false) ∧
    (* recipient among no account of the transaction *)
    (∀ tx keys, answer = Ok (Some tx) → currency = "SOL" →
                accountKeys tx = Ok keys →
                (∀ i, keys !! i ≠ Some recipient) → b = false) ∧
    (∀ tx m, answer = Ok (Some tx) → meta tx = Some m → currency ≠ "SOL" →
             (∀ post, post ∈ default [] (postTokenBalances m) →
                      owner post ≠ Some recipient) → b = false) ∧
    (* amount received below the accepted minimum *)
    (∀ tx m keys, answer = Ok (Some tx) → meta tx = Some m →
                  currency = "SOL" → accountKeys tx = Ok keys →
                  (∀ i, keys !! i = Some recipient →
                        num_ge (num_div
                                  (num_sub (default num_nan (postBalances m !! i))
                                           (default num_nan (preBalances m !! i)))
                                  (num_lit 1 9))
                               (num_mul amount (num_lit 99 (-2))) = false) →
                  b = false) ∧
    (∀ tx m, answer = Ok (Some tx) → meta tx = Some m → currency ≠ "SOL" →
             (∀ post pre after before,
                post ∈ default [] (postTokenBalances m) →
                owner post = Some recipient →
                first_at_index (default [] (preTokenBalances m))
                  (accountIndex post) pre →
                counts_as (uiAmount post) after →
                counts_as (pre ≫= uiAmount) before →
                num_ge (num_sub after before)
                       (num_mul amount (num_lit 99 (-2))) = false) →
             b = false).
Proof.
  intros Hexec. apply verifyPayment_exec in Hexec as (answer & -> & ->).
  exists answer, (verdict answer recipient amount currency).
  split; [done|]. split; [done|].
  pose proof (verdict_true answer recipient amount currency) as Hiff.
  assert (Hfalse : ¬ accepted answer recipient amount currency →
                   verdict answer recipient amount currency = false).
  { intros Hno. destruct (verdict _ _ _ _); [|done]. destruct Hno. by apply Hiff. }
  split.
  { rewrite Hiff. unfold accepted, credited_sol, credited_token. split.
    - intros (tx & m & Ha & Hm & He & Hk & Hc). exists tx, m.
      repeat (split; [done|]).
      destruct (decide (currency = "SOL")) as [Hcur|Hcur].
      + rewrite bool_decide_eq_true_2 in Hc by done.
        destruct Hc as (keys & Hkeys & i & Hi & Hge). left. split; [done|].
        by exists keys, i.
      + rewrite bool_decide_eq_false_2 in Hc by done. right. done.
    - intros (tx & m & Ha & Hm & He & Hk & Hc). exists tx, m.
      repeat (split; [done|]).
      destruct Hc as [[Hcur (keys & i & Hkeys & Hi & Hge)]|[Hcur Hc]].
      + rewrite bool_decide_eq_true_2 by done. exists keys. split; [done|].
        by exists i.
      + rewrite bool_decide_eq_false_2 by done. done. }
  repeat split.
  - intros ->. done.
  - intros e ->. done.
  - intros tx -> Hm. apply Hfalse. intros (tx' & m & [= <-] & Hm' & _). congruence.
  - intros tx m -> Hm [failure He]. apply Hfalse.
    intros (tx' & m' & [= <-] & Hm' & He' & _). congruence.
  - intros Hk. apply Hfalse. intros (tx' & m' & _ & _ & _ & Hk' & _). congruence.
  - intros tx e -> -> Hk. apply Hfalse.
    intros (tx' & m' & [= <-] & _ & _ & _ & Hc). simpl in Hc.
    destruct Hc as (keys' & Hk' & _). congruence.
  - intros tx keys -> -> Hk Hnone. apply Hfalse.
    intros (tx' & m' & [= <-] & Hm' & _ & _ & Hc). simpl in Hc.
    destruct Hc as (keys' & Hk' & i & Hi & _). rewrite Hk in Hk'.
    injection Hk' as <-. by apply (Hnone i).
  - intros tx m -> Hm Hcur Hnone. apply Hfalse.
    intros (tx' & m' & [= <-] & Hm' & _ & _ & Hc).
    rewrite bool_decide_eq_false_2 in Hc by done.
    destruct Hc as (post & pre & after & before & Hp & Ho & _).
    rewrite Hm in Hm'. injection Hm' as <-. by apply (Hnone post).
  - intros tx m keys -> Hm -> Hk Hlow. apply Hfalse.
    intros (tx' & m' & [= <-] & Hm' & _ & _ & Hc). simpl in Hc.
    destruct Hc as (keys' & Hk' & i & Hi & Hge). rewrite Hk in Hk'.
    injection Hk' as <-. rewrite Hm in Hm'. injection Hm' as <-.
    specialize (Hlow i Hi). congruence.
  - intros tx m -> Hm Hcur Hlow. apply Hfalse.
    intros (tx' & m' & [= <-] & Hm' & _ & _ & Hc).
    rewrite bool_decide_eq_false_2 in Hc by done.
    destruct Hc as (post & pre & after & before & Hp & Ho & Hpre & Ha & Hb & Hge).
    rewrite Hm in Hm'. injection Hm' as <-.
    specialize (Hlow post pre after before Hp Ho Hpre Ha Hb). congruence.
Qed.

End Verification.

(** ** The gate (C1, C7) *)

Section Gate.
Context {F : Type} `{JSNumber F} `{Platform}.

(** The executions of the handler from the verification on. *)
Lemma verify_and_grant_exec (config : DNS402ServerConfig F) proof payer
    (sessions sessions' : gmap string PaymentSession) tr out :
  exec (verify_and_grant config proof payer sessions) tr (sessions', out) →
  ∃ answer,
    let lookup := Ev (GetTransaction proof) answer in
    (verified config lookup = false ∧ tr = [lookup] ∧
     sessions' = sessions ∧ out = Ok reply403)
    ∨ (verified config lookup = true ∧
       ∃ now, sessions' = <[payer := granted config proof payer now]> sessions ∧
         ((srv_onPayment config = false ∧ tr = [lookup; Ev DateNow now] ∧
           out = Ok Forwarded)
          ∨ (srv_onPayment config = true ∧
             ∃ stamp finished,
               tr = [lookup; Ev DateNow now; Ev DateNow stamp;
                     Ev (OnPayment {| signature := proof; payer := payer;
                                      timestamp := stamp |}) finished] ∧
               out = match finished with
                     | Ok _ => Ok Forwarded
                     | Err e => Err e
                     end))).
Proof.
  intros Hexec. unfold verify_and_grant in Hexec.
  apply exec_bind in Hexec as (t1 & isValid & t2 & -> & Hv & Hrest).
  apply verifyPayment_exec in Hv as (answer & -> & ->).
  exists answer. simpl.
  destruct (verdict answer _ _ _) eqn:Ev'; simpl in Hrest.
  - right. split; [done|].
    destruct Hrest as (now & t3 & -> & Hrest). exists now.
    destruct (srv_onPayment config) eqn:Eon; simpl in Hrest.
    + destruct Hrest as (stamp & t4 & -> & finished & t5 & -> & Hrest).
      destruct finished as [[]|e]; simpl in Hrest;
        destruct Hrest as [-> [= <- <-]];
        (split; [done|]); right; (split; [done|]);
        eexists stamp, _; split; done.
    + destruct Hrest as [-> [= <- <-]]. split; [done|]. left. done.
  - left. destruct Hrest as [-> [= <- <-]]. done.
Qed.

(** The handler either finds a live session and forwards, or continues
    with the proof check after at most one reading of the clock. *)
Lemma dns402_exec (config : DNS402ServerConfig F) (req : Request)
    (sessions sessions' : gmap string PaymentSession) tr out :
  let proof := req_headers req !! toLowerCase Headers.PROOF in
  let payer := req_headers req !! toLowerCase Headers.PAYER in
  exec (dns402 config req sessions) tr (sessions', out) →
  (∃ now session,
     tr = [Ev DateNow now] ∧ truthy payer = true ∧
     live_session sessions (default "" payer) now = Some session ∧
     sessions' = sessions ∧ out = Ok Forwarded)
  ∨ (∃ pre rest,
       tr = (pre ++ rest)%list ∧
       (pre = [] ∨ ∃ now, pre = [Ev DateNow now] ∧
                          live_session sessions (default "" payer) now = None) ∧
       exec (challenge_or_verify config proof payer sessions) rest (sessions', out)).
Proof.
  intros proof payer Hexec. unfold dns402 in Hexec. fold proof payer in Hexec.
  unfold live_session.
  destruct (truthy payer) eqn:Ep;
    [destruct (sessions !! default "" payer) as [session|] eqn:Es|].
  - simpl in Hexec. destruct Hexec as (now & rest & -> & Hrest).
    destruct (ps_expiresAt session >? now) eqn:Elive.
    + left. simpl in Hrest. destruct Hrest as [-> [= <- <-]].
      exists now, session. rewrite Elive. done.
    + right. exists [Ev DateNow now], rest. split; [done|]. split; [|done].
      right. exists now. rewrite Elive. done.
  - right. exists [], tr. split; [done|]. split; [by left|done].
  - right. exists [], tr. split; [done|]. split; [by left|done].
Qed.

(** C1 (amended). For a request that finds no live session: when the
    proof header or the payer header is absent (or empty) the gate
    answers 402, does not forward, and makes no ledger lookup; when both
    are present the gate calls [verifyPayment] with the proof signature
    and the configured wallet, price and currency, and a failed
    verification is answered with 403, never with the 402 challenge. *)
Theorem gate_challenges_or_verifies
    (config : DNS402ServerConfig F) (req : Request)
    (sessions sessions' : gmap string PaymentSession)
    (tr : trace F) (out : result (reaction F)) :
  let proof := req_headers req !! toLowerCase Headers.PROOF in
  let payer := req_headers req !! toLowerCase Headers.PAYER in
  exec (dns402 config req sessions) tr (sessions', out) →
  (∀ now, head tr ≫= clock_reading = Some now →
          live_session sessions (default "" payer) now = None) →
  (truthy proof = false ∨ truthy payer = false →
     out = Ok (send402 config) ∧ out ≠ Ok Forwarded ∧ sessions' = sessions ∧
     Forall (λ e, ledger_query e = None) tr)
  ∧ (truthy proof = true → truthy payer = true →
       ∃ pre answer post,
         tr = (pre ++ Ev (GetTransaction (default "" proof)) answer :: post)%list ∧
         exec (verifyPayment (default "" proof) (srv_wallet config)
                 (srv_price config) (srv_currency config))
              [Ev (GetTransaction (default "" proof)) answer]
              (Ok (verified config (Ev (GetTransaction (default "" proof)) answer))) ∧
         (verified config (Ev (GetTransaction (default "" proof)) answer) = false →
            out = Ok reply403 ∧ out ≠ Ok (send402 config) ∧ out ≠ Ok Forwarded ∧
            post = [] ∧ sessions' = sessions)).
Proof.
  intros proof payer Hexec Hnolive.
  apply dns402_exec in Hexec as [(now & session & -> & _ & Hlive & _)|Hexec].
  { specialize (Hnolive now eq_refl). fold payer in Hlive. congruence. }
  fold proof payer in Hexec.
  destruct Hexec as (pre & rest & -> & Hpre & Hexec).
  unfold challenge_or_verify in Hexec. split.
  - intros Habsent.
    assert (negb (truthy proof) || negb (truthy payer) = true) as Hguard.
    { destruct Habsent as [-> | ->]; [done|apply orb_true_r]. }
    rewrite Hguard in Hexec. destruct Hexec as [-> [= <- <-]].
    repeat split; [done|]. rewrite app_nil_r.
    destruct Hpre as [->|(now & -> & _)]; repeat constructor.
  - intros Hproof Hpayer. rewrite Hproof, Hpayer in Hexec. simpl in Hexec.
    apply verify_and_grant_exec in Hexec as (answer & Hcases).
    exists pre, answer. simpl in Hcases.
    destruct Hcases as [(Hno & -> & -> & ->)|(Hyes & now & -> & Hcases)].
    + exists []. split; [done|]. split.
      * apply verifyPayment_exec. exists answer. done.
      * intros _. done.
    + destruct Hcases as [(_ & -> & _)|(_ & stamp & finished & -> & _)];
        eexists; (split; [done|]); (split; [apply verifyPayment_exec; by exists answer|]);
        intros Hno; simpl in Hyes, Hno; congruence.
Qed.

(** C7 (amended). When the proof of a request passes verification and an
    [onPayment] callback is configured, the gate stores the session and
    then calls the callback once, with the proof signature and the
    payer, and waits for it: the request is forwarded when the callback
    completes, and the handler fails with the callback's error, without
    forwarding, when the callback throws or rejects. *)
Theorem onPayment_is_awaited
    (config : DNS402ServerConfig F) (req : Request)
    (sessions sessions' : gmap string PaymentSession)
    (tr : trace F) (out : result (reaction F)) :
  exec (dns402 config req sessions) tr (sessions', out) →
  existsb (verified config) tr = true →
  srv_onPayment config = true →
  ∃ proof payer pre now stamp finished,
    req_headers req !! toLowerCase Headers.PROOF = Some proof ∧
    req_headers req !! toLowerCase Headers.PAYER = Some payer ∧
    tr = (pre ++ [Ev DateNow now; Ev DateNow stamp;
                  Ev (OnPayment {| signature := proof; payer := payer;
                                   timestamp := stamp |}) finished])%list ∧
    Forall (λ e, reported_payment e = None) pre ∧
    sessions' = <[payer := granted config proof payer now]> sessions ∧
    (∀ u, finished = Ok u → out = Ok Forwarded) ∧
    (∀ e, finished = Err e → out = Err e ∧ out ≠ Ok Forwarded).
Proof.
  intros Hexec Hverified Hon.
  apply dns402_exec in Hexec as [(now & session & -> & _)|Hexec]; [done|].
  destruct Hexec as (pre & rest & -> & Hpre & Hexec).
  assert (existsb (verified config) pre = false) as Hpre'.
  { destruct Hpre as [->|(now & -> & _)]; done. }
  rewrite existsb_app, Hpre' in Hverified. simpl in Hverified.
  unfold challenge_or_verify in Hexec.
  destruct (negb (truthy _) || negb (truthy _)) eqn:Eguard.
  { destruct Hexec as [-> _]. done. }
  apply orb_false_iff in Eguard as [Eproof Epayer].
  destruct (req_headers req !! toLowerCase Headers.PROOF) as [proof|]; [|done].
  destruct (req_headers req !! toLowerCase Headers.PAYER) as [payer|]; [|done].
  simpl in Hexec.
  apply verify_and_grant_exec in Hexec as (answer & Hcases). simpl in Hcases.
  destruct Hcases as [(Hno & -> & _)|(Hyes & now & -> & Hcases)].
  { simpl in Hverified. rewrite Hno in Hverified. done. }
  destruct Hcases as [(Hoff & _)|(_ & stamp & finished & -> & ->)]; [congruence|].
  exists proof, payer, (pre ++ [Ev (GetTransaction proof) answer])%list, now, stamp, finished.
  split; [done|]. split; [done|]. split; [by rewrite <- app_assoc|].
  split.
  { apply Forall_app. split; [|by repeat constructor].
    destruct Hpre as [->|(now' & -> & _)]; by repeat constructor. }
  split; [done|]. split; [by intros u ->|by intros e ->].
Qed.

End Gate.

(** ** The client (C4, C9) *)

Section ClientFacts.
Context {F : Type} `{JSNumber F} `{Platform}.

Lemma discover_quiet (config : DNS402ClientConfig F) domain tr found :
  exec (discover config domain) tr found → Forall quiet tr.
Proof.
  unfold discover, resolveRecord, try_catch, bind_ok, ret.
  destruct (dnsResolver config); simpl; intros (r & tr' & -> & Hk).
  - destruct r as [txt|e]; simpl in Hk.
    + destruct (negb (truthy txt)); destruct Hk as [-> _]; by repeat constructor.
    + destruct Hk as [-> _]. by repeat constructor.
  - destruct r as [records|e]; simpl in Hk; destruct Hk as [-> _];
      by repeat constructor.
Qed.

Lemma quiet_no_send (tr : trace F) : Forall quiet tr → List.filter is_send tr = [].
Proof.
  induction 1 as [|e tr [Hs _] _ IH]; simpl; [done|]. by rewrite Hs.
Qed.

Lemma quiet_no_http (tr : trace F) : Forall quiet tr → List.filter is_http tr = [].
Proof.
  induction 1 as [|e tr [_ Hh] _ IH]; simpl; [done|]. by rewrite Hh.
Qed.

Lemma quiet_no_record (tr : trace F) rec :
  Forall quiet tr → ¬ In (Some rec) (List.map sent_record tr).
Proof.
  induction 1 as [|e tr [Hs _] _ IH]; simpl; [tauto|].
  intros [He|Hin]; [|tauto]. unfold is_send in Hs. rewrite He in Hs. done.
Qed.

(** The executions of [pay] past the cache check. *)
Lemma pay_fresh_exec (config : DNS402ClientConfig F) domain
    (cache cache' : gmap string DNS402Session) tr paid :
  exec (pay_fresh config domain cache) tr (cache', paid) →
  ∃ td found,
    exec (discover config domain) td found ∧
    ((tr = td ∧ cache' = cache ∧ (∀ record, found ≠ Ok (Some record)) ∧
      ∃ e, paid = Err e)
     ∨ (∃ record e,
          found = Ok (Some record) ∧
          tr = (td ++ [Ev (SendPayment record) (Err e)])%list ∧
          cache' = cache ∧ paid = Err e)
     ∨ (∃ record proof now,
          found = Ok (Some record) ∧
          tr = (td ++ [Ev (SendPayment record) (Ok proof); Ev DateNow now])%list ∧
          cache' = (if sessionCache config
                    then <[domain := session_for domain record proof now]> cache
                    else cache) ∧
          paid = Ok (session_for domain record proof now))).
Proof.
  intros Hexec. unfold pay_fresh in Hexec.
  apply exec_bind in Hexec as (td & found & t2 & -> & Hd & Hexec).
  exists td, found. split; [done|].
  destruct found as [[record|]|e]; simpl in Hexec.
  - destruct Hexec as ([proof|e] & t3 & -> & Hexec); simpl in Hexec.
    + destruct Hexec as (now & t4 & -> & -> & [= <- <-]).
      right. right. exists record, proof, now. done.
    + destruct Hexec as [-> [= <- <-]]. right. left. exists record, e. done.
  - destruct Hexec as [-> [= <- <-]]. left. rewrite app_nil_r.
    repeat split; [done|]. eauto.
  - destruct Hexec as [-> [= <- <-]]. left. rewrite app_nil_r.
    repeat split; [done|]. eauto.
Qed.

(** [pay] answers from the cache after one reading of the clock, or
    reads the clock at most once and pays. *)
Lemma pay_exec (config : DNS402ClientConfig F) domain
    (cache cache' : gmap string DNS402Session) tr paid :
  exec (pay config domain cache) tr (cache', paid) →
  (∃ cached now,
     cache !! domain = Some cached ∧ tr = [Ev DateNow now] ∧
     now < expiresAt cached ∧ cache' = cache ∧ paid = Ok cached)
  ∨ (∃ pre rest,
       tr = (pre ++ rest)%list ∧ Forall quiet pre ∧
       exec (pay_fresh config domain cache) rest (cache', paid)).
Proof.
  intros Hexec. unfold pay in Hexec.
  destruct (cache !! domain) as [cached|] eqn:E.
  - simpl in Hexec. destruct Hexec as (now & rest & -> & Hrest).
    destruct (Z.gtb_spec (expiresAt cached) now).
    + simpl in Hrest. destruct Hrest as [-> [= <- <-]].
      left. exists cached, now. done.
    + right. exists [Ev DateNow now], rest. split; [done|].
      split; [by repeat constructor|done].
  - right. exists [], tr. split; [done|]. split; [constructor|done].
Qed.

(** The executions of [fetch] from the first attempt on. *)
Lemma fetch_unpaid_exec (config : DNS402ClientConfig F) url domain init
    (cache cache' : gmap string DNS402Session) tr out :
  exec (fetch_unpaid config url domain init cache) tr (cache', out) →
  ∃ first rest,
    tr = Ev (HttpFetch url init) first :: rest ∧
    ((rest = [] ∧ cache' = cache ∧ out = first ∧
      ∀ response, first = Ok response → status response ≠ 402)
     ∨ ∃ response td1 found1,
         first = Ok response ∧ status response = 402 ∧
         exec (discover config domain) td1 found1 ∧
         ((rest = td1 ∧ cache' = cache ∧ (∃ e, out = Err e) ∧
           ∀ r1, found1 = Ok (Some r1) → autopay_refusal config r1 ≠ None)
          ∨ ∃ r1 tp paid,
              found1 = Ok (Some r1) ∧ autopay_refusal config r1 = None ∧
              exec (pay config domain cache) tp (cache', paid) ∧
              ((∃ e, paid = Err e ∧ rest = (td1 ++ tp)%list ∧ out = Err e)
               ∨ ∃ session retried,
                   paid = Ok session ∧
                   rest = (td1 ++ tp ++
                           [Ev (HttpFetch url (Some (with_proof init (proof session))))
                               retried])%list ∧
                   out = retried))).
Proof.
  intros Hexec. unfold fetch_unpaid in Hexec. simpl in Hexec.
  destruct Hexec as (first & rest & -> & Hexec). exists first, rest.
  split; [done|]. destruct first as [response|e]; simpl in Hexec.
  - destruct (Z.eqb_spec (status response) 402) as [H402|Hother]; simpl in Hexec.
    + right. exists response.
      apply exec_bind in Hexec as (td1 & found1 & t2 & -> & Hd & Hexec).
      exists td1, found1. repeat (split; [done|]).
      destruct found1 as [[r1|]|e]; simpl in Hexec.
      * destruct (autopay_refusal config r1) as [message|] eqn:Epol.
        -- left. destruct Hexec as [-> [= <- <-]]. rewrite app_nil_r.
           repeat split; [eauto|]. intros r [= <-]. congruence.
        -- right. apply exec_bind in Hexec as (tp & [cache1 paid] & t3 & -> & Hp & Hexec).
           destruct paid as [session|e]; simpl in Hexec.
           ++ destruct Hexec as (retried & t4 & -> & -> & [= <- <-]).
              exists r1, tp, (Ok session). repeat (split; [done|]).
              right. exists session, retried. done.
           ++ destruct Hexec as [-> [= <- <-]].
              exists r1, tp, (Err e). repeat (split; [done|]).
              left. exists e. rewrite app_nil_r. done.
      * left. destruct Hexec as [-> [= <- <-]]. rewrite app_nil_r.
        repeat split; [eauto|]. intros r [=].
      * left. destruct Hexec as [-> [= <- <-]]. rewrite app_nil_r.
        repeat split; [eauto|]. intros r [=].
    + left. destruct Hexec as [-> [= <- <-]]. repeat split.
      intros r [= <-]. done.
  - left. destruct Hexec as [-> [= <- <-]]. repeat split. intros r [=].
Qed.

(** The executions of [fetch] up to the first attempt. *)
Lemma fetch_exec (config : DNS402ClientConfig F) url init
    (cache cache' : gmap string DNS402Session) tr out :
  exec (fetch config url init cache) tr (cache', out) →
  (url_hostname url = None ∧ tr = [] ∧ cache' = cache ∧ ∃ e, out = Err e)
  ∨ (∃ domain cached now,
       url_hostname url = Some domain ∧ cache !! domain = Some cached ∧
       now < expiresAt cached ∧ cache' = cache ∧
       tr = [Ev DateNow now;
             Ev (HttpFetch url (Some (with_proof init (proof cached)))) out])
  ∨ (∃ domain pre rest,
       url_hostname url = Some domain ∧ tr = (pre ++ rest)%list ∧
       Forall quiet pre ∧
       exec (fetch_unpaid config url domain init cache) rest (cache', out)).
Proof.
  intros Hexec. unfold fetch in Hexec.
  destruct (url_hostname url) as [domain|]; simpl in Hexec.
  - destruct (cache !! domain) as [cached|] eqn:E.
    + simpl in Hexec. destruct Hexec as (now & rest & -> & Hrest).
      destruct (Z.gtb_spec (expiresAt cached) now).
      * simpl in Hrest. destruct Hrest as (answered & t2 & -> & -> & [= <- <-]).
        right. left. exists domain, cached, now. done.
      * right. right. exists domain, [Ev DateNow now], rest.
        split; [done|]. split; [done|]. split; [by repeat constructor|done].
    + right. right. exists domain, [], tr.
      split; [done|]. split; [done|]. split; [constructor|done].
  - left. destruct Hexec as [-> [= <- <-]]. eauto.
Qed.


(** A record handed to the ledger by [pay] is the one its own discovery
    returned. *)
Lemma pay_sends (config : DNS402ClientConfig F) domain
    (cache cache' : gmap string DNS402Session) tp paid rec :
  exec (pay config domain cache) tp (cache', paid) →
  In (Some rec) (List.map sent_record tp) →
  ∃ mid td2 sent post,
    tp = (mid ++ td2 ++ Ev (SendPayment rec) sent :: post)%list ∧
    Forall quiet mid ∧ Forall quiet post ∧
    exec (discover config domain) td2 (Ok (Some rec)).
Proof.
  intros Hexec Hin. apply pay_exec in Hexec
    as [(cached & now & _ & -> & _)|(pre & rest & -> & Hpre & Hexec)].
  { simpl in Hin. destruct Hin as [[=]|[]]. }
  apply pay_fresh_exec in Hexec as (td & found & Hd & Hcases).
  rewrite List.map_app, in_app_iff in Hin.
  destruct Hin as [Hin|Hin]; [by apply quiet_no_record in Hin|].
  pose proof (discover_quiet _ _ _ _ Hd) as Hquiet.
  destruct Hcases as [(-> & _)|[(record & e & -> & -> & _)
                               |(record & proof & now & -> & -> & _)]].
  - by apply quiet_no_record in Hin.
  - rewrite List.map_app, in_app_iff in Hin.
    destruct Hin as [Hin|Hin]; [by apply quiet_no_record in Hin|].
    simpl in Hin. destruct Hin as [[= ->]|[]].
    exists pre, td, (Err e), []. done.
  - rewrite List.map_app, in_app_iff in Hin.
    destruct Hin as [Hin|Hin]; [by apply quiet_no_record in Hin|].
    simpl in Hin. destruct Hin as [[= ->]|[[=]|[]]].
    exists pre, td, (Ok proof), [Ev DateNow now].
    split; [done|]. split; [done|]. split; [by repeat constructor|done].
Qed.


(** C9. The record that [fetch] hands to the ledger-send collaborator is
    the one returned by a second discovery, made inside [pay], after the
    auto-pay policy was checked on the record of the first discovery
    only: the two records are unrelated, and whatever the second
    discovery returns is paid. *)
Theorem fetch_pays_second_discovery
    (config : DNS402ClientConfig F) (url : string) (init : option RequestInit)
    (cache : gmap string DNS402Session) :
  (∀ (tr : trace F) cache' out rec,
     exec (fetch config url init cache) tr (cache', out) →
     In (Some rec) (List.map sent_record tr) →
     ∃ domain pre first td1 r1 mid td2 sent post,
       url_hostname url = Some domain ∧
       tr = (pre ++ Ev (HttpFetch url init) (Ok first)
                 :: td1 ++ mid ++ td2 ++ Ev (SendPayment rec) sent :: post)%list ∧
       status first = 402 ∧
       Forall quiet pre ∧ Forall quiet mid ∧
       exec (discover config domain) td1 (Ok (Some r1)) ∧
       autopay_refusal config r1 = None ∧
       exec (discover config domain) td2 (Ok (Some rec)))
  ∧ (∀ domain first (td1 td2 : trace F) r1 r2 paid now retried,
       url_hostname url = Some domain →
       cache !! domain = None →
       status first = 402 →
       exec (discover config domain) td1 (Ok (Some r1)) →
       autopay_refusal config r1 = None →
       exec (discover config domain) td2 (Ok (Some r2)) →
       exec (fetch config url init cache)
            (Ev (HttpFetch url init) (Ok first)
               :: td1 ++ td2 ++
                  [Ev (SendPayment r2) (Ok paid); Ev DateNow now;
                   Ev (HttpFetch url (Some (with_proof init paid))) retried])%list
            (if sessionCache config
             then <[domain := session_for domain r2 paid now]> cache
             else cache,
             retried)).
Proof.
  split.
  - intros tr cache' out rec Hexec Hin.
    apply fetch_exec in Hexec
      as [(_ & -> & _)|[(domain & cached & now & _ & _ & _ & _ & ->)
                       |(domain & pre & rest & Hdom & -> & Hpre & Hexec)]].
    { destruct Hin. }
    { simpl in Hin. destruct Hin as [[=]|[[=]|[]]]. }
    apply fetch_unpaid_exec in Hexec as (first & rest' & -> & Hcases).
    rewrite List.map_app, in_app_iff in Hin.
    destruct Hin as [Hin|Hin]; [by apply quiet_no_record in Hin|].
    simpl in Hin. destruct Hin as [[=]|Hin].
    destruct Hcases as [(-> & _)|(response & td1 & found1 & -> & H402 & Hd & Hcases)].
    { destruct Hin. }
    pose proof (discover_quiet _ _ _ _ Hd) as Hquiet.
    destruct Hcases as [(-> & _)|(r1 & tp & paid & -> & Hpol & Hpay & Hcases)].
    { by apply quiet_no_record in Hin. }
    assert (In (Some rec) (List.map sent_record tp)) as Hin'.
    { destruct Hcases as [(e & _ & -> & _)|(session & retried & _ & -> & _)];
        rewrite !List.map_app, !in_app_iff in Hin;
        destruct Hin as [Hin|Hin]; try (by apply quiet_no_record in Hin); try done.
      destruct Hin as [Hin|Hin]; [done|]. simpl in Hin. destruct Hin as [[=]|[]]. }
    destruct (pay_sends _ _ _ _ _ _ _ Hpay Hin')
      as (mid & td2 & sent & post & -> & Hmid & Hpost & Hd2).
    destruct Hcases as [(e & _ & -> & _)|(session & retried & _ & -> & _)].
    + exists domain, pre, response, td1, r1, mid, td2, sent, post. done.
    + exists domain, pre, response, td1, r1, mid, td2, sent,
        (post ++ [Ev (HttpFetch url (Some (with_proof init (proof session)))) retried])%list.
      split; [done|]. split; [|done].
      by rewrite <- !app_assoc, <- app_comm_cons.
  - intros domain first td1 td2 r1 r2 paid now retried Hdom Hmiss H402 Hd1 Hpol Hd2.
    unfold fetch. rewrite Hdom, Hmiss. unfold fetch_unpaid. simpl.
    exists (Ok first), (td1 ++ td2 ++
                   [Ev (SendPayment r2) (Ok paid); Ev DateNow now;
                    Ev (HttpFetch url (Some (with_proof init paid))) retried])%list.
    split; [done|]. simpl. rewrite H402. simpl.
    apply exec_bind. eexists td1, (Ok (Some r1)), _. split; [done|]. split; [done|].
    rewrite Hpol. apply exec_bind.
    exists (td2 ++ [Ev (SendPayment r2) (Ok paid); Ev DateNow now])%list,
      (if sessionCache config
       then <[domain := session_for domain r2 paid now]> cache else cache,
       Ok (session_for domain r2 paid now)),
      [Ev (HttpFetch url (Some (with_proof init paid))) retried].
    split; [by rewrite <- app_assoc|]. split.
    + unfold pay. rewrite Hmiss. unfold pay_fresh.
      apply exec_bind. eexists td2, (Ok (Some r2)), _. split; [done|]. split; [done|].
      simpl. eexists (Ok paid), _. split; [done|]. simpl.
      exists now, []. done.
    + simpl. exists retried, []. done.
Qed.

End ClientFacts.

(** ** JavaScript strings *)

Section StringFacts.

Lemma append_cons c (a b : string) :
  (String c a ++ b)%string = String c (a ++ b)%string.
Proof. reflexivity. Qed.

Lemma append_nil_l (b : string) : ("" ++ b)%string = b.
Proof. reflexivity. Qed.

Lemma append_nil_r (s : string) : (s ++ "")%string = s.
Proof.
  induction s as [|c s IH]; [done|]. by rewrite append_cons, IH.
Qed.

Lemma append_assoc (a b c : string) :
  ((a ++ b) ++ c)%string = (a ++ (b ++ c))%string.
Proof.
  induction a as [|x a IH]; [done|]. by rewrite !append_cons, IH.
Qed.

Lemma has_char_app c (a b : string) :
  has_char c (a ++ b)%string = has_char c a || has_char c b.
Proof.
  induction a as [|x a IH]; [done|].
  rewrite append_cons. simpl. by rewrite IH, orb_assoc.
Qed.

Lemma split_not_nil sep s : split sep s ≠ [].
Proof.
  destruct s as [|c s]; simpl; [done|].
  destruct (eqc c sep); [done|]. by destruct (split sep s).
Qed.

(** A text without the separator is one field. *)
Lemma split_no_sep sep s : has_char sep s = false → split sep s = [s].
Proof.
  induction s as [|c s IH]; simpl; [done|].
  intros Hno. apply orb_false_iff in Hno as [Hc Hs].
  rewrite Hc, (IH Hs). done.
Qed.

(** Splitting distributes over a separator. *)
Lemma split_app_sep sep (a b : string) :
  split sep (a ++ String sep b)%string = (split sep a ++ split sep b)%list.
Proof.
  induction a as [|c a IH].
  - rewrite append_nil_l. simpl. unfold eqc. rewrite Ascii.eqb_refl. done.
  - rewrite append_cons. simpl. destruct (eqc c sep); [by rewrite IH|].
    rewrite IH. pose proof (split_not_nil sep a) as Hne.
    destruct (split sep a); done.
Qed.

Lemma join_cons sep p q (rest : list string) :
  join sep (p :: q :: rest) = (p ++ sep ++ join sep (q :: rest))%string.
Proof. reflexivity. Qed.

Lemma split_join sep (parts : list string) :
  parts ≠ [] →
  Forall (λ p, has_char sep p = false) parts →
  split sep (join (String sep "") parts) = parts.
Proof.
  intros Hne Hparts. induction Hparts as [|p rest Hp Hrest IH]; [done|].
  destruct rest as [|q rest'].
  - simpl. by apply split_no_sep.
  - rewrite join_cons, append_cons, append_nil_l.
    rewrite split_app_sep, IH by done. by rewrite split_no_sep.
Qed.

Lemma trimEnd_app_kept (a b : string) :
  nonempty (trimEnd b) = true → trimEnd (a ++ b)%string = (a ++ trimEnd b)%string.
Proof.
  intros Hb. induction a as [|c a IH]; [done|].
  rewrite !append_cons. simpl. rewrite IH.
  destruct (a ++ trimEnd b)%string eqn:E; [|done].
  destruct a; [|done]. rewrite append_nil_l in E. rewrite E in Hb. done.
Qed.

(** A text that starts and ends with something else than white space
    is its own trimming, and so is anything put in front of its end. *)
Lemma trim_prefixed c (a v : string) :
  is_ws c = false → nonempty v = true → trimEnd v = v →
  trim (String c (a ++ v)) = String c (a ++ v).
Proof.
  intros Hc Hv Hend. unfold trim. cbn [trimStart]. rewrite Hc.
  rewrite <- append_cons.
  rewrite trimEnd_app_kept; rewrite Hend; done.
Qed.

Lemma clean_spec (s : string) :
  clean s = true →
  nonempty s = true ∧ has_char ";" s = false ∧ has_char "=" s = false ∧
  trimStart s = s ∧ trimEnd s = s.
Proof.
  unfold clean. rewrite !andb_true_iff, !negb_true_iff, !bool_decide_eq_true.
  tauto.
Qed.

Lemma clean_trim (s : string) : clean s = true → trim s = s.
Proof.
  intros (_ & _ & _ & Hs & He)%clean_spec. unfold trim. by rewrite Hs, He.
Qed.

End StringFacts.

(** ** Integers as decimal text *)

Section IntegerFacts.

Lemma digit_of_char_of_digit d :
  0 ≤ d < 10 → JsInt.digit_of (JsInt.char_of_digit d) = Some d.
Proof.
  intros Hd.
  assert (d = 0 ∨ d = 1 ∨ d = 2 ∨ d = 3 ∨ d = 4 ∨ d = 5 ∨ d = 6 ∨ d = 7
          ∨ d = 8 ∨ d = 9) as Hcases by lia.
  repeat destruct Hcases as [->|Hcases]; try subst d; reflexivity.
Qed.

Lemma digit_not_special c :
  is_digit c = true →
  is_ws c = false ∧ eqc c ";" = false ∧ eqc c "=" = false
  ∧ eqc c "-" = false ∧ eqc c "+" = false.
Proof. destruct c as [[] [] [] [] [] [] [] []]; cbv; intuition discriminate. Qed.

(** Reading back the digits that [digits] writes in front of [rest]. *)
Lemma read_digits_digits fuel n rest acc :
  (0 < fuel)%nat → 0 ≤ n < 2 ^ Z.of_nat fuel → default 0 acc = 0 →
  JsInt.read_digits acc (JsInt.digits fuel n rest)
  = JsInt.read_digits (Some n) rest.
Proof.
  revert n rest. induction fuel as [|fuel IH]; intros n rest Hfuel Hn Hacc; [lia|].
  cbn [JsInt.digits]. destruct (Z.ltb_spec n 10) as [Hsmall|Hbig].
  - cbn [JsInt.read_digits]. rewrite digit_of_char_of_digit by lia.
    rewrite Hacc. f_equal.
  - assert (Hpow : 2 ^ Z.of_nat (S fuel) = 2 * 2 ^ Z.of_nat fuel).
    { rewrite Nat2Z.inj_succ, Z.pow_succ_r by lia. done. }
    assert (n / 10 < 2 ^ Z.of_nat fuel).
    { apply Z.div_lt_upper_bound; lia. }
    assert (0 ≤ n / 10) by (apply Z.div_pos; lia).
    assert (0 < fuel)%nat.
    { destruct fuel; [|lia]. simpl in *. lia. }
    rewrite IH by (done || lia).
    cbn [JsInt.read_digits].
    rewrite digit_of_char_of_digit by (apply Z.mod_pos_bound; lia).
    simpl default. f_equal. f_equal. pose proof (Z.div_mod n 10). lia.
Qed.

Lemma digits_all_digits fuel n rest :
  0 ≤ n → all_chars is_digit rest = true →
  all_chars is_digit (JsInt.digits fuel n rest) = true.
Proof.
  revert n rest. induction fuel as [|fuel IH]; intros n rest Hn Hrest; [done|].
  cbn [JsInt.digits]. destruct (Z.ltb_spec n 10) as [Hsmall|Hbig].
  - cbn [all_chars]. rewrite Hrest, andb_true_r. unfold is_digit.
    rewrite digit_of_char_of_digit by lia. done.
  - apply IH; [apply Z.div_pos; lia|].
    cbn [all_chars]. rewrite Hrest, andb_true_r. unfold is_digit.
    rewrite digit_of_char_of_digit by (apply Z.mod_pos_bound; lia). done.
Qed.

Lemma digits_nonempty fuel n rest :
  (0 < fuel)%nat ∨ nonempty rest = true →
  nonempty (JsInt.digits fuel n rest) = true.
Proof.
  revert n rest. induction fuel as [|fuel IH]; intros n rest Hne.
  - destruct Hne as [Hne|Hne]; [lia|done].
  - cbn [JsInt.digits]. destruct (n <? 10); [done|]. apply IH. by right.
Qed.

Lemma nat_toString_digits n :
  0 ≤ n →
  all_chars is_digit (JsInt.nat_toString n) = true ∧
  nonempty (JsInt.nat_toString n) = true ∧
  JsInt.read_digits None (JsInt.nat_toString n) = Some n.
Proof.
  intros Hn. unfold JsInt.nat_toString. split; [|split].
  - by apply digits_all_digits.
  - apply digits_nonempty. left. lia.
  - rewrite read_digits_digits; [done|lia| |done].
    split; [done|]. rewrite Nat2Z.inj_succ, Z2Nat.id by apply Z.log2_nonneg.
    destruct (Z.eq_dec n 0) as [->|Hpos]; [done|].
    apply Z.log2_spec. lia.
Qed.

(** A text of digits has nothing that the wire format touches. *)
Lemma digits_clean (s : string) :
  all_chars is_digit s = true → nonempty s = true → clean s = true.
Proof.
  intros Hall Hne.
  assert (has_char ";" s = false ∧ has_char "=" s = false ∧ trimEnd s = s)
    as (Hsemi & Heq & Hend).
  { clear Hne. induction s as [|c s IH]; [done|].
    simpl in Hall. apply andb_true_iff in Hall as [Hc Hs].
    destruct (IH Hs) as (IH1 & IH2 & IH3).
    destruct (digit_not_special c Hc) as (Hws & H1 & H2 & _).
    simpl. rewrite H1, H2, IH1, IH2, IH3, Hws. by destruct s. }
  unfold clean. rewrite Hne, Hsemi, Heq, Hend. simpl.
  destruct s as [|c s]; [done|]. simpl in Hall.
  apply andb_true_iff in Hall as [Hc _].
  destruct (digit_not_special c Hc) as (Hws & _). simpl. rewrite Hws.
  rewrite !bool_decide_eq_true_2; done.
Qed.

(** [parseInt] reads back a positive integer printed in decimal. *)
Lemma parseInt_toString z :
  0 < z → JsInt.parseInt (JsInt.toString z) = IntVal z
          ∧ clean (JsInt.toString z) = true.
Proof.
  intros Hz. unfold JsInt.toString. destruct (Z.ltb_spec z 0); [lia|].
  destruct (nat_toString_digits z) as (Hall & Hne & Hread); [lia|].
  split; [|by apply digits_clean].
  unfold JsInt.parseInt. destruct (JsInt.nat_toString z) as [|c s]; [done|].
  simpl in Hall. apply andb_true_iff in Hall as [Hc _].
  destruct (digit_not_special c Hc) as (Hws & _ & _ & Hminus & Hplus).
  cbn [trimStart]. rewrite Hws.
  destruct c as [[] [] [] [] [] [] [] []]; try discriminate; rewrite Hread; done.
Qed.

End IntegerFacts.

(** ** The record codec (C3, C8, C10) *)

Section CodecFacts.
Context {F : Type} `{JSNumber F}.

Lemma parsePair_pair_of (data : gmap string string) part :
  parsePair data part
  = match pair_of part with Some (k, v) => <[k := v]> data | None => data end.
Proof.
  unfold parsePair, pair_of.
  destruct (split "=" part !! 0%nat) as [key|]; [|done].
  destruct (split "=" part !! 1%nat) as [value|]; [|done].
  by destruct (nonempty key && nonempty value).
Qed.

(** The first two fields of a pair, whatever follows a second [=]. *)
Lemma split_pair key value (tail : option string) :
  has_char "=" key = false → has_char "=" value = false →
  let part := match tail with
              | Some rest => (key ++ "=" ++ value ++ "=" ++ rest)%string
              | None => (key ++ "=" ++ value)%string
              end in
  split "=" part !! 0%nat = Some key ∧ split "=" part !! 1%nat = Some value.
Proof.
  intros Hk Hv. destruct tail as [rest|]; simpl.
  - rewrite !append_cons, !append_nil_l, split_app_sep, split_app_sep.
    rewrite (split_no_sep _ key), (split_no_sep _ value) by done. done.
  - rewrite !append_cons, !append_nil_l, split_app_sep.
    rewrite (split_no_sep _ key), (split_no_sep _ value) by done. done.
Qed.

Lemma parsePair_key_value (data : gmap string string) key value :
  has_char "=" key = false → has_char "=" value = false →
  parsePair data (key ++ "=" ++ value)
  = if nonempty key && nonempty value then <[trim key := trim value]> data else data.
Proof.
  intros Hk Hv. unfold parsePair.
  destruct (split_pair key value None Hk Hv) as [-> ->]. done.
Qed.

Lemma record_parts_app (a b : string) :
  record_parts (a ++ ";" ++ b) = (record_parts a ++ record_parts b)%list.
Proof.
  unfold record_parts. rewrite append_cons, append_nil_l, split_app_sep.
  by rewrite List.map_app, List.filter_app.
Qed.

Lemma record_parts_single part :
  has_char ";" part = false →
  record_parts part = if nonempty (trim part) then [trim part] else [].
Proof.
  intros Hno. unfold record_parts. rewrite split_no_sep by done. done.
Qed.

(** Encoded parts come back as they were written. *)
Lemma record_parts_join (parts : list string) :
  parts ≠ [] →
  Forall (λ p, has_char ";" p = false ∧ trim p = p ∧ nonempty p = true) parts →
  record_parts (join ";" parts) = parts.
Proof.
  intros Hne Hparts. unfold record_parts. rewrite split_join; [|done|].
  - clear Hne. induction Hparts as [|p rest (_ & Ht & Hn) _ IH]; [done|].
    simpl. rewrite Ht, Hn, IH. done.
  - eapply Forall_impl; [exact Hparts|]. by intros p (Hp & _).
Qed.

Lemma parseRecord_data (txt1 txt2 : string) :
  record_data txt1 = record_data txt2 →
  parseRecord (F:=F) txt1 = parseRecord txt2.
Proof. intros Heq. unfold parseRecord. by rewrite Heq. Qed.



(** The test "Validate required fields" as a proposition. *)
Lemma parseRecord_None txt :
  parseRecord (F:=F) txt = None ↔
  ¬ (record_data txt !! "v" = Some "dns402" ∧
     truthy (record_data txt !! "p") = true ∧
     truthy (record_data txt !! "c") = true ∧
     truthy (record_data txt !! "n") = true ∧
     truthy (record_data txt !! "w") = true).
Proof.
  unfold parseRecord.
  destruct (decide (record_data txt !! "v" = Some "dns402")) as [Hv|Hv].
  - rewrite bool_decide_eq_true_2 by done. simpl.
    destruct (truthy (record_data txt !! "p")),
             (truthy (record_data txt !! "c")),
             (truthy (record_data txt !! "n")),
             (truthy (record_data txt !! "w")); simpl;
      (split;
       [ intros E; first [discriminate E | intros (_ & ? & ? & ? & ?); discriminate]
       | intros Hno; first [reflexivity | exfalso; apply Hno; done] ]).
  - rewrite bool_decide_eq_false_2 by done. simpl. split; [|done].
    intros _ (Hv' & _). done.
Qed.


Lemma part_ok_key_value k v :
  has_char ";" k = false → nonempty (trimStart k) = true → trimStart k = k →
  clean v = true →
  has_char ";" (k ++ "=" ++ v) = false
  ∧ trim (k ++ "=" ++ v) = (k ++ "=" ++ v)%string
  ∧ nonempty (k ++ "=" ++ v) = true.
Proof.
  intros Hsemi Hne Hstart (Hv & Hvsemi & _ & _ & Hvend)%clean_spec.
  split; [|split].
  - rewrite !has_char_app, Hsemi, Hvsemi. done.
  - destruct k as [|c k]; [done|]. rewrite append_cons.
    rewrite <- append_assoc. apply trim_prefixed; [|done..].
    simpl in Hstart. destruct (is_ws c) eqn:E; [|done].
    exfalso. clear -Hstart.
    assert (∀ s, String.length (trimStart s) ≤ String.length s)%nat as Hlen.
    { induction s as [|x s IH]; simpl; [done|]. destruct (is_ws x); simpl; lia. }
    specialize (Hlen k). rewrite Hstart in Hlen. simpl in Hlen. lia.
  - destruct k; done.
Qed.

Lemma fold_push_if (c : bool) part parts (data : gmap string string) :
  fold_left parsePair (push_if c part parts) data
  = if c then parsePair (fold_left parsePair parts data) part
    else fold_left parsePair parts data.
Proof. destruct c; simpl; [|done]. by rewrite fold_left_app. Qed.

Lemma parsePair_clean (data : gmap string string) k v :
  has_char "=" k = false → nonempty k = true → trim k = k → clean v = true →
  parsePair data (k ++ "=" ++ v) = <[k := v]> data.
Proof.
  intros Hk Hne Htrim Hv. pose proof (clean_trim v Hv) as Hvt.
  apply clean_spec in Hv as (Hvne & _ & Hveq & _).
  rewrite parsePair_key_value by done. by rewrite Hne, Hvne, Htrim, Hvt.
Qed.

(** The data decoded from an encoded record. *)
Lemma record_data_generate (config : RecordConfig F) :
  clean (num_toString (cfg_price config)) = true →
  clean (cfg_currency config) = true →
  clean (cfg_wallet config) = true →
  (JsInt.truthy (cfg_ttl config) = true →
   clean (JsInt.int_toString (default IntNaN (cfg_ttl config))) = true) →
  opt_clean (cfg_model config) = true →
  opt_clean (cfg_callback config) = true →
  opt_clean (cfg_mint config) = true →
  let base : gmap string string :=
    <["w" := cfg_wallet config]>
      (<["n" := "solana"]>
         (<["c" := cfg_currency config]>
            (<["p" := num_toString (cfg_price config)]>
               (<["v" := "dns402"]> ∅)))) in
  let with_ttl :=
    if JsInt.truthy (cfg_ttl config)
    then <["t" := JsInt.int_toString (default IntNaN (cfg_ttl config))]> base
    else base in
  let with_model :=
    if truthy (cfg_model config)
    then <["m" := default "" (cfg_model config)]> with_ttl else with_ttl in
  let with_callback :=
    if truthy (cfg_callback config)
    then <["cb" := default "" (cfg_callback config)]> with_model else with_model in
  record_data (generateRecord config)
  = if truthy (cfg_mint config)
    then <["mint" := default "" (cfg_mint config)]> with_callback
    else with_callback.
Proof.
  intros Hp Hc Hw Ht Hm Hcb Hmint. simpl.
  unfold record_data, generateRecord.
  assert (∀ o, opt_clean o = true → truthy o = true → clean (default "" o) = true)
    as Hopt.
  { intros [x|]; simpl; [by intros -> _|done]. }
  rewrite record_parts_join.
  - rewrite !fold_push_if. simpl.
    change "v=dns402" with ("v" ++ "=" ++ "dns402")%string.
    change "n=solana" with ("n" ++ "=" ++ "solana")%string.
    change ("p=" ++ ?x)%string with ("p" ++ "=" ++ x)%string.
    change ("c=" ++ ?x)%string with ("c" ++ "=" ++ x)%string.
    change ("w=" ++ ?x)%string with ("w" ++ "=" ++ x)%string.
    change ("t=" ++ ?x)%string with ("t" ++ "=" ++ x)%string.
    change ("m=" ++ ?x)%string with ("m" ++ "=" ++ x)%string.
    change ("cb=" ++ ?x)%string with ("cb" ++ "=" ++ x)%string.
    change ("mint=" ++ ?x)%string with ("mint" ++ "=" ++ x)%string.
    destruct (JsInt.truthy (cfg_ttl config)) eqn:Et,
             (truthy (cfg_model config)) eqn:Em,
             (truthy (cfg_callback config)) eqn:Ecb,
             (truthy (cfg_mint config)) eqn:Emint;
      repeat first
        [ rewrite (parsePair_clean _ "v") by (try done; auto)
        | rewrite (parsePair_clean _ "p") by (try done; auto)
        | rewrite (parsePair_clean _ "c") by (try done; auto)
        | rewrite (parsePair_clean _ "n") by (try done; auto)
        | rewrite (parsePair_clean _ "w") by (try done; auto)
        | rewrite (parsePair_clean _ "t") by (try done; auto)
        | rewrite (parsePair_clean _ "m") by (try done; auto)
        | rewrite (parsePair_clean _ "cb") by (try done; auto)
        | rewrite (parsePair_clean _ "mint") by (try done; auto) ];
      reflexivity.
  - unfold push_if.
    destruct (JsInt.truthy _), (truthy (cfg_model _)), (truthy (cfg_callback _)),
             (truthy (cfg_mint _)); done.
  - set (P := λ p : string,
               has_char ";" p = false ∧ trim p = p ∧ nonempty p = true).
    assert (∀ (c : bool) part parts,
              Forall P parts → (c = true → P part) → Forall P (push_if c part parts))
      as Hpush.
    { intros [] part parts Hparts Hpart; simpl; [|done].
      apply Forall_app. split; [done|]. constructor; auto. }
    assert (∀ k v, has_char ";" k = false → nonempty (trimStart k) = true →
                   trimStart k = k → clean v = true → P (k ++ "=" ++ v)%string)
      as Hkv by (intros; by apply part_ok_key_value).
    repeat apply Hpush.
    + constructor; [by apply (Hkv "v" "dns402")|].
      constructor; [by apply (Hkv "p")|].
      constructor; [by apply (Hkv "c")|].
      constructor; [by apply (Hkv "n" "solana")|].
      constructor; [by apply (Hkv "w")|]. constructor.
    + intros Et. apply (Hkv "t"); auto.
    + intros Em. apply (Hkv "m"); auto.
    + intros Ecb. apply (Hkv "cb"); auto.
    + intros Emint. apply (Hkv "mint"); auto.
Qed.

(** C8 (amended). Round trip: a valid [PaymentTerms] value whose texts
    go through the wire format unchanged (no [;], no [=], no white space
    at either end, an upper-case currency) and whose price is printed as
    such a text and read back by [parseFloat] as the same number is
    decoded from its own encoding as itself, field by field. *)
Theorem record_round_trip (t : DNS402Record F) :
  valid_terms t → wire_safe t →
  parseRecord (generateRecord (config_of_record t)) = Some t.
Proof.
  intros (Hver & _ & _ & Hnet & _ & Httl & Hmodel)
         (Hcur & Hupper & Hwal & Hcb & Hmint & Hprice & Hread).
  assert (opt_clean (model t) = true) as Hm.
  { destruct Hmodel as [-> | [-> | ->]]; done. }
  assert (JsInt.truthy (ttl t) = true →
          clean (JsInt.int_toString (default IntNaN (ttl t))) = true) as Ht.
  { destruct (ttl t) as [n|]; [|done]. destruct (Httl n eq_refl) as (z & -> & Hz & _).
    intros _. simpl. by apply parseInt_toString. }
  unfold parseRecord.
  rewrite (record_data_generate (config_of_record t)) by done.
  destruct t as [ver pr cur net wal ttl0 model0 cb0 mint0].
  cbn [config_of_record cfg_price cfg_currency cfg_wallet cfg_ttl cfg_model
       cfg_callback cfg_mint version price currency network wallet ttl model
       callback mint] in *.
  subst ver net.
  assert (nonempty (num_toString pr) = true ∧ nonempty cur = true
          ∧ nonempty wal = true) as (Hp1 & Hc1 & Hw1).
  { apply clean_spec in Hprice as (? & _), Hcur as (? & _), Hwal as (? & _). done. }
  assert (∃ m, model0 = Some m ∧ nonempty m = true) as (m & -> & Hm1).
  { destruct Hmodel as [-> | [-> | ->]]; eauto. }
  assert (∀ o : option string, opt_clean o = true →
            o = None ∨ ∃ x, o = Some x ∧ nonempty x = true) as Hopt.
  { intros [x|] Ho; [right|by left]. exists x. split; [done|].
    by apply clean_spec in Ho as (? & _). }
  assert (ttl0 = None ∨
          ∃ z, ttl0 = Some (IntVal z) ∧ (z =? 0) = false ∧
               nonempty (JsInt.toString z) = true ∧
               JsInt.parseInt (JsInt.toString z) = IntVal z) as Httl'.
  { destruct ttl0 as [n|]; [right|by left].
    destruct (Httl n eq_refl) as (z & -> & Hz & _). exists z.
    destruct (parseInt_toString z Hz) as [Hparse Hclean].
    apply clean_spec in Hclean as (? & _).
    split; [done|]. split; [lia|done]. }
  destruct (Hopt cb0 Hcb) as [-> | (cb & -> & Hcb1)];
    destruct (Hopt mint0 Hmint) as [-> | (mi & -> & Hmi1)];
    destruct Httl' as [-> | (z & -> & Hz0 & Hz1 & Hz2)];
    cbn [truthy JsInt.truthy default JsInt.int_toString];
    rewrite ?Hz0, ?Hm1, ?Hcb1, ?Hmi1; cbn [negb];
    repeat first [ rewrite lookup_insert_eq
                 | rewrite lookup_insert_ne by done
                 | rewrite lookup_empty ];
    rewrite bool_decide_eq_true_2 by done;
    cbn [truthy default from_option negb orb]; unfold id;
    cbn [JsInt.int_toString];
    rewrite ?Hp1, ?Hc1, ?Hw1, ?Hm1, ?Hz1, ?Hz2, Hread, Hupper;
    reflexivity.
Qed.

End CodecFacts.


(** ** The decimal implementation reads back what it prints *)

Section DecimalFacts.

Lemma all_chars_app p (a b : string) :
  all_chars p (a ++ b)%string = all_chars p a && all_chars p b.
Proof.
  induction a as [|c a IH]; [done|].
  rewrite append_cons. simpl. by rewrite IH, andb_assoc.
Qed.

Lemma string_length_app (a b : string) :
  String.length (a ++ b)%string = (String.length a + String.length b)%nat.
Proof.
  induction a as [|c a IH]; [done|]. rewrite append_cons. simpl. by rewrite IH.
Qed.

Lemma string_take_drop n (s : string) : (Dec.take n s ++ drop n s)%string = s.
Proof.
  revert s. induction n as [|n IH]; intros [|c s]; try done.
  simpl. by rewrite append_cons, IH.
Qed.

Lemma length_take n (s : string) :
  (n ≤ String.length s)%nat → String.length (Dec.take n s) = n.
Proof.
  revert s. induction n as [|n IH]; intros [|c s] Hn; simpl in *; try done; try lia.
  rewrite IH; lia.
Qed.

Lemma zeros_digits j :
  all_chars is_digit (Dec.zeros j) = true ∧ String.length (Dec.zeros j) = j.
Proof. induction j as [|j [IH1 IH2]]; simpl; [done|]. by rewrite IH1, IH2. Qed.

Lemma dval_zeros a j : Dec.dval a (Dec.zeros j) = a * 10 ^ Z.of_nat j.
Proof.
  revert a. induction j as [|j IH]; intros a.
  - simpl. lia.
  - cbn [Dec.zeros Dec.dval]. change (JsInt.digit_of "0") with (Some 0).
    cbv iota. rewrite IH, Nat2Z.inj_succ, Z.pow_succ_r by lia. lia.
Qed.

Lemma dval_app a (ds rest : string) :
  all_chars is_digit ds = true →
  Dec.dval a (ds ++ rest) = Dec.dval (Dec.dval a ds) rest.
Proof.
  revert a. induction ds as [|c ds IH]; intros a Hds; [done|].
  simpl in Hds. apply andb_true_iff in Hds as [Hc Hds].
  rewrite append_cons. simpl. unfold is_digit in Hc.
  destruct (JsInt.digit_of c); [|done]. by apply IH.
Qed.

Lemma dval_linear a (ds : string) :
  all_chars is_digit ds = true →
  Dec.dval a ds = a * 10 ^ Z.of_nat (String.length ds) + Dec.dval 0 ds.
Proof.
  revert a. induction ds as [|c ds IH]; intros a Hds; [simpl; lia|].
  simpl in Hds. apply andb_true_iff in Hds as [Hc Hds].
  cbn [Dec.dval String.length]. unfold is_digit in Hc.
  destruct (JsInt.digit_of c) as [d|]; [|done].
  rewrite (IH (10 * a + d)), (IH (10 * 0 + d)) by done.
  rewrite Nat2Z.inj_succ, Z.pow_succ_r by lia. lia.
Qed.

Lemma read_digits_dval a (s : string) :
  JsInt.read_digits (Some a) s = Some (Dec.dval a s).
Proof.
  revert a. induction s as [|c s IH]; intros a; [done|].
  simpl. destruct (JsInt.digit_of c); [apply IH|done].
Qed.

Lemma dval_nat_toString m : 0 ≤ m → Dec.dval 0 (JsInt.nat_toString m) = m.
Proof.
  intros Hm. destruct (nat_toString_digits m Hm) as (Hall & Hne & Hread).
  destruct (JsInt.nat_toString m) as [|c s]; [done|].
  simpl in Hall, Hread |- *. unfold is_digit in Hall.
  destruct (JsInt.digit_of c) as [d|]; [|done].
  rewrite read_digits_dval in Hread. by injection Hread.
Qed.

(** [span_digits] reads a run of digits up to a character that is not
    one. *)
Lemma span_digits_run a c (ds rest : string) :
  all_chars is_digit ds = true →
  match rest with EmptyString => true | String x _ => negb (is_digit x) end = true →
  Dec.span_digits a c (ds ++ rest)
  = (Dec.dval a ds, c + Z.of_nat (String.length ds), rest).
Proof.
  revert a c. induction ds as [|x ds IH]; intros a c Hds Hrest.
  - rewrite append_nil_l. cbn [Dec.dval String.length Z.of_nat]. rewrite Z.add_0_r.
    destruct rest as [|y rest]; [done|].
    simpl. unfold is_digit in Hrest. by destruct (JsInt.digit_of y).
  - simpl in Hds. apply andb_true_iff in Hds as [Hx Hds].
    rewrite append_cons. cbn [Dec.span_digits Dec.dval String.length].
    unfold is_digit in Hx. destruct (JsInt.digit_of x) as [d|]; [|done].
    rewrite IH by done. do 2 f_equal. lia.
Qed.

(** [mk] strips the zeros that end the digits. *)
Lemma strip_zeros_pow j fuel m e :
  m mod 10 ≠ 0 → (j < fuel)%nat →
  Dec.strip_zeros fuel (m * 10 ^ Z.of_nat j) e = (m, e + Z.of_nat j).
Proof.
  intros Hm. revert fuel e. induction j as [|j IH]; intros fuel e Hfuel.
  - destruct fuel as [|fuel]; [lia|]. simpl. rewrite Z.mul_1_r.
    destruct (Z.eqb_spec (m mod 10) 0); [done|]. f_equal. lia.
  - destruct fuel as [|fuel]; [lia|]. cbn [Dec.strip_zeros].
    rewrite Nat2Z.inj_succ, Z.pow_succ_r by lia.
    replace (m * (10 * 10 ^ Z.of_nat j)) with ((m * 10 ^ Z.of_nat j) * 10) by lia.
    rewrite Z.mod_mul, Z.div_mul by lia. simpl.
    rewrite IH by lia. f_equal. lia.
Qed.

Lemma mk_pow m j e :
  m mod 10 ≠ 0 → Dec.mk (m * 10 ^ Z.of_nat j) e = DFin m (e + Z.of_nat j).
Proof.
  intros Hm. unfold Dec.mk.
  assert (m ≠ 0) as Hm0 by (intros ->; done).
  assert (0 < 10 ^ Z.of_nat j) as Hpow by (apply Z.pow_pos_nonneg; lia).
  destruct (Z.eqb_spec (m * 10 ^ Z.of_nat j) 0) as [Hz|_]; [nia|].
  rewrite strip_zeros_pow; [done|done|].
  assert (Z.of_nat j ≤ Z.log2 (Z.abs (m * 10 ^ Z.of_nat j))); [|lia].
  rewrite <- (Z.log2_pow2 (Z.of_nat j)) at 1 by lia.
  apply Z.log2_le_mono.
  assert (2 ^ Z.of_nat j ≤ 10 ^ Z.of_nat j) by (apply Z.pow_le_mono_l; lia).
  rewrite Z.abs_mul, (Z.abs_eq (10 ^ _)) by lia. nia.
Qed.

Lemma mk_normal m e : m mod 10 ≠ 0 → Dec.mk m e = DFin m e.
Proof.
  intros Hm. pose proof (mk_pow m 0 e Hm) as Hmk.
  rewrite Z.pow_0_r, Z.mul_1_r, Z.add_0_r in Hmk. done.
Qed.

Lemma mod_10_opp m : m mod 10 ≠ 0 → (- m) mod 10 ≠ 0.
Proof.
  intros Hm Hopp. apply Hm. apply Z.mod_divide; [lia|].
  apply (Z.mod_divide (- m) 10 ltac:(lia)) in Hopp as [q Hq]. exists (- q). lia.
Qed.

Lemma read_exponent_print (ex : Z) :
  Dec.read_exponent
    ((if (ex <? 0)%Z then "e-" else "e+") ++ JsInt.nat_toString (Z.abs ex))%string
  = ex.
Proof.
  destruct (nat_toString_digits (Z.abs ex)) as (Hall & Hne & _); [lia|].
  pose proof (dval_nat_toString (Z.abs ex) ltac:(lia)) as Hval.
  pose proof (span_digits_run 0 0 (JsInt.nat_toString (Z.abs ex)) "" Hall eq_refl)
    as Hspan.
  rewrite append_nil_r, Hval in Hspan.
  assert (Z.of_nat (String.length (JsInt.nat_toString (Z.abs ex))) ≠ 0) as Hlen.
  { destruct (JsInt.nat_toString (Z.abs ex)); [done|]. simpl. lia. }
  destruct (Z.ltb_spec ex 0);
    rewrite !append_cons, append_nil_l; cbn [Dec.read_exponent];
    rewrite Hspan; simpl;
    destruct (Z.eqb_spec
                (0 + Z.of_nat (String.length (JsInt.nat_toString (Z.abs ex)))) 0);
    lia.
Qed.

(** [read_unsigned] from the digits of the integral part, those of the
    fraction and the text that follows them. *)
Lemma read_unsigned_parts neg (s : string) iv ic r1 fv fc r2 :
  starts_with "Infinity" s = false →
  Dec.span_digits 0 0 s = (iv, ic, r1) →
  match r1 with
  | String "." r => Dec.span_digits 0 0 r
  | _ => (0, 0, r1)
  end = (fv, fc, r2) →
  ic ≠ 0 →
  Dec.read_unsigned neg s
  = Dec.mk (if neg then - (iv * 10 ^ fc + fv) else iv * 10 ^ fc + fv)
           (Dec.read_exponent r2 - fc).
Proof.
  intros Hinf Hint Hfrac Hic. unfold Dec.read_unsigned.
  rewrite Hinf, Hint, Hfrac.
  destruct (Z.eqb_spec ic 0); done.
Qed.

Lemma digit_not_I c r : is_digit c = true → starts_with "Infinity" (String c r) = false.
Proof. destruct c as [[] [] [] [] [] [] [] []]; cbv; (done || discriminate). Qed.

Lemma mk_signed (neg : bool) (m e : Z) :
  m mod 10 ≠ 0 →
  Dec.mk (if neg then - m else m) e = DFin (if neg then - m else m) e.
Proof. intros Hm. destruct neg; apply mk_normal; [by apply mod_10_opp|done]. Qed.

Lemma mk_signed_pow (neg : bool) (m : Z) (j : nat) :
  m mod 10 ≠ 0 →
  Dec.mk (if neg then - (m * 10 ^ Z.of_nat j) else m * 10 ^ Z.of_nat j) 0
  = DFin (if neg then - m else m) (Z.of_nat j).
Proof.
  intros Hm. destruct neg.
  - rewrite <- Z.mul_opp_l. apply (mk_pow (- m) j 0). by apply mod_10_opp.
  - by apply (mk_pow m j 0).
Qed.

(** Reading the text that [print_positive] writes for the digits [ds]
    gives back the digits and the exponent. *)
Lemma read_unsigned_print (neg : bool) (ds : string) (n : Z) :
  all_chars is_digit ds = true → nonempty ds = true →
  Dec.dval 0 ds mod 10 ≠ 0 →
  Dec.read_unsigned neg (Dec.print_positive ds n)
  = DFin (if neg then - Dec.dval 0 ds else Dec.dval 0 ds)
         (n - Z.of_nat (String.length ds)).
Proof.
  intros Hall Hne Hmod. unfold Dec.print_positive.
  set (k := Z.of_nat (String.length ds)).
  assert (0 < k) as Hk.
  { unfold k. destruct ds; [done|]. simpl. lia. }
  assert (∀ r, starts_with "Infinity" (ds ++ r) = false) as Hinf.
  { intros r. destruct ds as [|c ds']; [done|]. rewrite append_cons.
    apply digit_not_I. simpl in Hall. by apply andb_true_iff in Hall as [? _]. }
  (* digits followed by zeros *)
  assert (k ≤ n →
          Dec.read_unsigned neg (ds ++ Dec.zeros (Z.to_nat (n - k)))
          = DFin (if neg then - Dec.dval 0 ds else Dec.dval 0 ds) (n - k)) as Hzeros.
  { intros Hkn. set (j := Z.to_nat (n - k)).
    destruct (zeros_digits j) as [Hz Hzlen].
    assert (all_chars is_digit (ds ++ Dec.zeros j) = true) as Hall'.
    { by rewrite all_chars_app, Hall, Hz. }
    pose proof (span_digits_run 0 0 _ "" Hall' eq_refl) as Hspan.
    rewrite append_nil_r, dval_app, dval_zeros, string_length_app, Hzlen in Hspan by done.
    rewrite (read_unsigned_parts neg _ _ _ _ 0 0 "" (Hinf _) Hspan eq_refl)
      by (fold k; lia).
    rewrite Z.pow_0_r, Z.mul_1_r, Z.add_0_r. simpl Dec.read_exponent.
    rewrite mk_signed_pow by done. f_equal. unfold j. lia. }
  (* a decimal point inside the digits, then [tail] *)
  assert (∀ i tail,
            (0 < i)%nat → (i ≤ String.length ds)%nat →
            match tail with EmptyString => true | String x _ => negb (is_digit x) end
            = true →
            Dec.read_unsigned neg (Dec.take i ds ++ "." ++ drop i ds ++ tail)
            = Dec.mk (if neg then - Dec.dval 0 ds else Dec.dval 0 ds)
                     (Dec.read_exponent tail - (k - Z.of_nat i))) as Hpoint.
  { intros i tail Hi Hile Htail.
    pose proof (string_take_drop i ds) as Hsplit.
    assert (all_chars is_digit (Dec.take i ds) = true
            ∧ all_chars is_digit (drop i ds) = true) as [Htake Hdrop].
    { rewrite <- Hsplit, all_chars_app in Hall. by apply andb_true_iff in Hall. }
    pose proof (length_take i ds Hile) as Hlt.
    assert (Z.of_nat (String.length (drop i ds)) = k - Z.of_nat i) as Hld.
    { unfold k. rewrite <- Hsplit at 2. rewrite string_length_app, Hlt. lia. }
    rewrite (append_cons "." ""), append_nil_l.
    pose proof (span_digits_run 0 0 (Dec.take i ds) (String "." (drop i ds ++ tail))
                  Htake eq_refl) as Hint.
    pose proof (span_digits_run 0 0 (drop i ds) tail Hdrop Htail) as Hfrac.
    rewrite Hlt in Hint. rewrite Hld in Hfrac.
    assert (starts_with "Infinity"
              (Dec.take i ds ++ String "." (drop i ds ++ tail)) = false) as Hinf'.
    { destruct ds as [|c ds']; [done|]. destruct i as [|i]; [lia|].
      cbn [Dec.take]. rewrite append_cons. apply digit_not_I.
      simpl in Hall. by apply andb_true_iff in Hall as [? _]. }
    rewrite (read_unsigned_parts neg _ _ _ _ _ _ _ Hinf' Hint Hfrac) by lia.
    rewrite !Z.add_0_l.
    assert (Dec.dval 0 (Dec.take i ds) * 10 ^ (k - Z.of_nat i)
            + Dec.dval 0 (drop i ds) = Dec.dval 0 ds) as ->; [|done].
    rewrite <- Hsplit at 3. rewrite dval_app by done.
    rewrite (dval_linear (Dec.dval 0 (Dec.take i ds))) by done.
    by rewrite Hld. }
  (* the exponent form *)
  assert (Dec.read_unsigned neg
            (if k =? 1
             then ds ++ (if n - 1 <? 0 then "e-" else "e+")
                     ++ JsInt.nat_toString (Z.abs (n - 1))
             else Dec.take 1 ds ++ "." ++ drop 1 ds
                    ++ (if n - 1 <? 0 then "e-" else "e+")
                    ++ JsInt.nat_toString (Z.abs (n - 1)))
          = DFin (if neg then - Dec.dval 0 ds else Dec.dval 0 ds) (n - k)) as Hexp.
  { pose proof (read_exponent_print (n - 1)) as Hex.
    set (exs := (if n - 1 <? 0 then "e-" else "e+")
                  ++ JsInt.nat_toString (Z.abs (n - 1))) in *.
    assert (∃ r, exs = String "e" r) as [r Hexs].
    { unfold exs. destruct (n - 1 <? 0); rewrite append_cons; by eexists. }
    destruct (Z.eqb_spec k 1) as [Hk1|Hk1].
    - pose proof (span_digits_run 0 0 ds exs Hall) as Hint.
      rewrite Hexs in Hint. specialize (Hint eq_refl). rewrite <- Hexs in Hint.
      fold k in Hint.
      assert (match exs with
              | String "." r' => Dec.span_digits 0 0 r'
              | _ => (0, 0, exs)
              end = (0, 0, exs)) as Hfrac by (by rewrite Hexs).
      rewrite (read_unsigned_parts neg _ _ _ _ _ _ _ (Hinf _) Hint Hfrac) by lia.
      rewrite Hex, Z.pow_0_r, Z.mul_1_r, Z.add_0_r.
      rewrite mk_signed by done. f_equal. lia.
    - rewrite Hpoint; [|lia|unfold k in Hk, Hk1; lia|by rewrite Hexs].
      rewrite Hex, mk_signed by done. f_equal. lia. }
  destruct (Z.leb_spec k n) as [Hkn|Hkn]; destruct (Z.leb_spec n 21) as [H21|H21];
    destruct (Z.ltb_spec 0 n) as [H0|H0]; destruct (Z.ltb_spec (-6) n) as [H6|H6];
    destruct (Z.leb_spec n 0) as [Hn0|Hn0];
    cbn [andb]; try (exfalso; lia); try (by apply Hzeros); try (by apply Hexp).
  - (* the point inside the digits *)
    rewrite <- (append_nil_r (drop (Z.to_nat n) ds)).
    rewrite Hpoint by (done || unfold k in Hkn; lia).
    cbn [Dec.read_exponent]. rewrite mk_signed by done. f_equal. lia.
  - (* zeros after the point *)
    set (j := Z.to_nat (- n)).
    destruct (zeros_digits j) as [Hz Hzlen].
    assert (all_chars is_digit (Dec.zeros j ++ ds) = true) as Hall'.
    { by rewrite all_chars_app, Hz, Hall. }
    pose proof (span_digits_run 0 0 _ "" Hall' eq_refl) as Hfrac.
    rewrite append_nil_r, dval_app, dval_zeros, string_length_app, Hzlen in Hfrac by done.
    rewrite !append_cons, append_nil_l.
    rewrite (read_unsigned_parts neg
               (String "0" (String "." (Dec.zeros j ++ ds)))
               0 1 (String "." (Dec.zeros j ++ ds))
               _ _ _ (digit_not_I "0" _ eq_refl) eq_refl Hfrac) by lia.
    rewrite !Z.mul_0_l, !Z.add_0_l. cbn [Dec.read_exponent].
    rewrite mk_signed by done. f_equal. unfold j, k. lia.
Qed.

Lemma all_chars_impl (p q : ascii → bool) (s : string) :
  (∀ c, p c = true → q c = true) →
  all_chars p s = true → all_chars q s = true.
Proof.
  intros Hpq. induction s as [|c s IH]; [done|]. simpl.
  rewrite !andb_true_iff. intros [Hc Hs]. split; [by apply Hpq|by apply IH].
Qed.

Lemma digit_plain c : is_digit c = true → plain_char c = true.
Proof.
  intros (Hws & Hsemi & Heq & _)%digit_not_special. unfold plain_char.
  by rewrite Hws, Hsemi, Heq.
Qed.

(** A text of plain characters goes through the wire format unchanged. *)
Lemma plain_clean (s : string) :
  all_chars plain_char s = true → nonempty s = true → clean s = true.
Proof.
  intros Hall Hne.
  assert (∀ c, plain_char c = true →
               is_ws c = false ∧ eqc c ";" = false ∧ eqc c "=" = false) as Hplain.
  { intros c. unfold plain_char. rewrite negb_true_iff, !orb_false_iff. tauto. }
  assert (has_char ";" s = false ∧ has_char "=" s = false ∧ trimEnd s = s)
    as (Hsemi & Heq & Hend).
  { clear Hne. induction s as [|c s IH]; [done|].
    simpl in Hall. apply andb_true_iff in Hall as [Hc Hs].
    destruct (IH Hs) as (IH1 & IH2 & IH3).
    destruct (Hplain c Hc) as (Hws & H1 & H2).
    simpl. rewrite H1, H2, IH1, IH2, IH3, Hws. by destruct s. }
  unfold clean. rewrite Hne, Hsemi, Heq, Hend. simpl.
  destruct s as [|c s]; [done|]. simpl in Hall.
  apply andb_true_iff in Hall as [Hc _].
  destruct (Hplain c Hc) as (Hws & _). simpl. rewrite Hws.
  rewrite !bool_decide_eq_true_2; done.
Qed.

Lemma take_drop_digits i (ds : string) :
  all_chars is_digit ds = true →
  all_chars is_digit (Dec.take i ds) = true ∧ all_chars is_digit (drop i ds) = true.
Proof.
  intros Hall. rewrite <- (string_take_drop i ds), all_chars_app in Hall.
  by apply andb_true_iff in Hall.
Qed.

(** [print_positive] writes plain characters only. *)
Lemma print_positive_plain (ds : string) (n : Z) :
  all_chars is_digit ds = true →
  all_chars plain_char (Dec.print_positive ds n) = true.
Proof.
  intros Hall.
  assert (∀ s, all_chars is_digit s = true → all_chars plain_char s = true)
    as Hdigits by (intros s; apply all_chars_impl, digit_plain).
  assert (all_chars plain_char (if n - 1 <? 0 then "e-" else "e+") = true)
    as Hsign by (by destruct (n - 1 <? 0)).
  assert (all_chars plain_char (JsInt.nat_toString (Z.abs (n - 1))) = true)
    as Hex.
  { apply Hdigits. by destruct (nat_toString_digits (Z.abs (n - 1))) as (? & _); [lia|]. }
  pose proof (λ i, take_drop_digits i ds Hall) as Hparts.
  unfold Dec.print_positive.
  repeat match goal with |- context [if ?b then _ else _] =>
           lazymatch b with
           | (_ <? 0) => fail
           | _ => destruct b
           end
         end;
    rewrite !all_chars_app, ?Hsign, ?Hex, ?(Hdigits _ Hall),
      ?(Hdigits _ (proj1 (zeros_digits _))),
      ?(Hdigits _ (proj1 (Hparts _))), ?(Hdigits _ (proj2 (Hparts _)));
    done.
Qed.

(** [print_positive] starts with a digit. *)
Lemma print_positive_head (ds : string) (n : Z) :
  all_chars is_digit ds = true → nonempty ds = true →
  ∃ c r, Dec.print_positive ds n = String c r ∧ is_digit c = true.
Proof.
  intros Hall Hne. destruct ds as [|c ds]; [done|].
  simpl in Hall. apply andb_true_iff in Hall as [Hc _].
  unfold Dec.print_positive.
  destruct (_ && _); [rewrite append_cons; by eauto|].
  destruct (Z.ltb_spec 0 n) as [H0|H0]; cbn [andb].
  - destruct (n <=? 21).
    + destruct (Z.to_nat n) as [|i] eqn:Hi; [lia|].
      cbn [Dec.take]. rewrite append_cons. by eauto.
    + destruct (_ && _); [rewrite append_cons; by eauto|].
      destruct (_ =? 1); cbn [Dec.take]; rewrite append_cons; by eauto.
  - destruct (_ && _); [rewrite append_cons; by eauto|].
    destruct (_ =? 1); cbn [Dec.take]; rewrite append_cons; by eauto.
Qed.

(** [parseFloat] gives back the number that [toString] printed. *)
Lemma parseFloat_toString (x : dnum) :
  Dec.normal x → Dec.parseFloat (Dec.toString x) = x.
Proof.
  destruct x as [|[]|m e]; try done.
  intros Hnormal. unfold Dec.toString.
  destruct (Z.eqb_spec m 0) as [->|Hm].
  { destruct Hnormal as [[_ ->]|Hmod]; done. }
  destruct Hnormal as [[? _]|Hmod]; [done|].
  destruct (nat_toString_digits (Z.abs m)) as (Hall & Hne & _); [lia|].
  pose proof (dval_nat_toString (Z.abs m) ltac:(lia)) as Hval.
  set (ds := JsInt.nat_toString (Z.abs m)) in *.
  assert (Dec.dval 0 ds mod 10 ≠ 0) as Hmod'.
  { rewrite Hval. destruct (Z.abs_spec m) as [[_ ->]|[_ ->]];
      [done|by apply mod_10_opp]. }
  pose proof (λ neg, read_unsigned_print neg ds
                        (Z.of_nat (String.length ds) + e) Hall Hne Hmod') as Hread.
  destruct (Z.ltb_spec m 0) as [Hneg|Hpos].
  - unfold Dec.parseFloat. cbn [trimStart]. change (is_ws "-") with false.
    cbv iota. rewrite Hread, Hval. f_equal; lia.
  - destruct (print_positive_head ds (Z.of_nat (String.length ds) + e) Hall Hne)
      as (c & r & Hbody & Hc).
    destruct (digit_not_special c Hc) as (Hws & _ & _ & Hminus & Hplus).
    specialize (Hread false). rewrite Hbody in Hread |- *.
    unfold Dec.parseFloat. cbn [trimStart]. rewrite Hws.
    assert (Dec.read_unsigned false (String c r) = DFin m e) as <-.
    { rewrite Hread, Hval. f_equal; lia. }
    destruct c as [[] [] [] [] [] [] [] []]; done.
Qed.

(** What [toString] prints goes through the wire format unchanged. *)
Lemma toString_clean (x : dnum) : clean (Dec.toString x) = true.
Proof.
  destruct x as [|[]|m e]; try done. unfold Dec.toString.
  destruct (m =? 0); [done|].
  destruct (nat_toString_digits (Z.abs m)) as (Hall & Hne & _); [lia|].
  set (ds := JsInt.nat_toString (Z.abs m)) in *.
  pose proof (print_positive_plain ds (Z.of_nat (String.length ds) + e) Hall)
    as Hplain.
  destruct (print_positive_head ds (Z.of_nat (String.length ds) + e) Hall Hne)
    as (c & r & Hbody & _).
  rewrite Hbody in Hplain |- *.
  destruct (m <? 0); apply plain_clean; done.
Qed.

(** Every decimal in normal form meets the two conditions that
    [wire_safe] puts on a price. *)
Lemma decimal_price_wire_safe (x : dnum) :
  Dec.normal x →
  clean (num_toString x) = true ∧ parseFloat (num_toString x) = x.
Proof.
  intros Hnormal. split; [apply toString_clean|by apply parseFloat_toString].
Qed.

End DecimalFacts.


(** * Further properties of the code *)

(** ** More on strings *)

Section TrimFacts.

Lemma upper_char_idem c : upper_char (upper_char c) = upper_char c.
Proof. destruct c as [[] [] [] [] [] [] [] []]; reflexivity. Qed.

Lemma lower_char_idem c : lower_char (lower_char c) = lower_char c.
Proof. destruct c as [[] [] [] [] [] [] [] []]; reflexivity. Qed.

Lemma map_chars_idem f (s : string) :
  (∀ c, f (f c) = f c) → map_chars f (map_chars f s) = map_chars f s.
Proof. intros Hf. induction s as [|c s IH]; [done|]. simpl. by rewrite Hf, IH. Qed.

Lemma nonempty_map_chars f (s : string) : nonempty (map_chars f s) = nonempty s.
Proof. by destruct s. Qed.

Lemma trimStart_idem (s : string) : trimStart (trimStart s) = trimStart s.
Proof.
  induction s as [|c s IH]; [done|]. simpl.
  destruct (is_ws c) eqn:E; [done|]. simpl. by rewrite E.
Qed.

Lemma trimEnd_idem (s : string) : trimEnd (trimEnd s) = trimEnd s.
Proof.
  induction s as [|c s IH]; [done|]. simpl.
  destruct (trimEnd s) as [|d r] eqn:E.
  - destruct (is_ws c) eqn:Ec; [done|]. simpl. by rewrite Ec.
  - cbn [trimEnd] in IH |- *. fold trimEnd in *. by rewrite IH.
Qed.

(** [trimEnd] keeps a first character that is not white space. *)
Lemma trimEnd_head c (s : string) :
  is_ws c = false → ∃ r, trimEnd (String c s) = String c r.
Proof. intros Hc. simpl. destruct (trimEnd s); rewrite ?Hc; eauto. Qed.

Lemma trimStart_head (s : string) :
  trimStart s = "" ∨ ∃ c r, trimStart s = String c r ∧ is_ws c = false.
Proof.
  induction s as [|c s IH]; [by left|]. simpl.
  destruct (is_ws c) eqn:E; [done|]. right. eauto.
Qed.

Lemma trim_idem (s : string) : trim (trim s) = trim s.
Proof.
  unfold trim. destruct (trimStart_head s) as [->|(c & r & -> & Hc)]; [done|].
  destruct (trimEnd_head c r Hc) as [r' Hr]. rewrite Hr.
  cbn [trimStart]. rewrite Hc, <- Hr. apply trimEnd_idem.
Qed.

Lemma has_char_trimStart c (s : string) :
  has_char c s = false → has_char c (trimStart s) = false.
Proof.
  induction s as [|d s IH]; [done|]. simpl. intros [Hd Hs]%orb_false_iff.
  destruct (is_ws d); [by apply IH|]. simpl. by rewrite Hd, Hs.
Qed.

Lemma has_char_trimEnd c (s : string) :
  has_char c s = false → has_char c (trimEnd s) = false.
Proof.
  induction s as [|d s IH]; [done|]. simpl. intros [Hd Hs]%orb_false_iff.
  specialize (IH Hs). destruct (trimEnd s) as [|e r].
  - destruct (is_ws d); [done|]. simpl. by rewrite Hd.
  - cbn [has_char] in IH |- *. by rewrite Hd, IH.
Qed.

Lemma has_char_trim c (s : string) : has_char c s = false → has_char c (trim s) = false.
Proof. intros Hs. by apply has_char_trimEnd, has_char_trimStart. Qed.

(** Changing the case of letters keeps white space and separators. *)
Lemma upper_char_plain c :
  is_ws (upper_char c) = is_ws c ∧ eqc (upper_char c) ";" = eqc c ";"
  ∧ eqc (upper_char c) "=" = eqc c "=".
Proof. destruct c as [[] [] [] [] [] [] [] []]; done. Qed.

Lemma has_char_toUpperCase c (s : string) :
  (∀ d, eqc (upper_char d) c = eqc d c) →
  has_char c (toUpperCase s) = has_char c s.
Proof.
  intros Hc. induction s as [|d s IH]; [done|].
  cbn [toUpperCase map_chars has_char]. fold (toUpperCase s). by rewrite Hc, IH.
Qed.

Lemma trimStart_toUpperCase (s : string) :
  trimStart (toUpperCase s) = toUpperCase (trimStart s).
Proof.
  induction s as [|d s IH]; [done|].
  cbn [toUpperCase map_chars trimStart]. fold (toUpperCase s).
  rewrite (proj1 (upper_char_plain d)). by destruct (is_ws d).
Qed.

Lemma trimEnd_toUpperCase (s : string) :
  trimEnd (toUpperCase s) = toUpperCase (trimEnd s).
Proof.
  induction s as [|d s IH]; [done|].
  cbn [toUpperCase map_chars trimEnd]. fold (toUpperCase s). rewrite IH.
  rewrite (proj1 (upper_char_plain d)).
  destruct (trimEnd s); [by destruct (is_ws d)|done].
Qed.

Lemma clean_toUpperCase (s : string) : clean s = true → clean (toUpperCase s) = true.
Proof.
  intros (Hne & Hsemi & Heq & Hstart & Hend)%clean_spec. unfold clean.
  rewrite !has_char_toUpperCase, Hsemi, Heq
    by (intros d; apply upper_char_plain).
  rewrite trimStart_toUpperCase, trimEnd_toUpperCase, Hstart, Hend.
  unfold toUpperCase. rewrite nonempty_map_chars, Hne.
  by rewrite !bool_decide_eq_true_2.
Qed.

Lemma clean_key k :
  clean k = true →
  has_char "=" k = false ∧ has_char ";" k = false ∧ nonempty k = true
  ∧ trim k = k ∧ nonempty (trimStart k) = true ∧ trimStart k = k.
Proof.
  intros Hk. pose proof (clean_trim k Hk) as Ht.
  apply clean_spec in Hk as (Hn & Hs & He & Hst & _). by rewrite Hst.
Qed.

End TrimFacts.

(** ** Decoding: duplicates, unknown keys, white space, defaults *)

Section DecodeFacts.
Context {F : Type} `{JSNumber F}.

(** The decoder reads its nine keys and nothing else. *)
Lemma parseRecord_keys (txt1 txt2 : string) :
  (∀ k, k ∈ record_keys → record_data txt1 !! k = record_data txt2 !! k) →
  parseRecord (F:=F) txt1 = parseRecord txt2.
Proof.
  intros Hk. unfold parseRecord.
  rewrite !(Hk "v"), !(Hk "p"), !(Hk "c"), !(Hk "n"), !(Hk "w"), !(Hk "t"),
    !(Hk "m"), !(Hk "cb"), !(Hk "mint");
    try done; unfold record_keys; set_solver.
Qed.

Lemma record_data_app (a b : string) :
  record_data (a ++ ";" ++ b) = fold_left parsePair (record_parts b) (record_data a).
Proof. unfold record_data. by rewrite record_parts_app, fold_left_app. Qed.

(** A well-formed pair appended to a text is stored over what the text
    had for its key. *)
Lemma record_data_snoc (txt k v : string) :
  clean k = true → clean v = true →
  record_data (txt ++ ";" ++ k ++ "=" ++ v) = <[k := v]> (record_data txt).
Proof.
  intros Hk Hv. destruct (clean_key k Hk) as (Heq & Hsemi & Hne & Htrim & Hne' & Hst).
  destruct (part_ok_key_value k v Hsemi Hne' Hst Hv) as (Hp1 & Hp2 & Hp3).
  rewrite record_data_app, (record_parts_single _ Hp1), Hp2, Hp3. simpl.
  by apply parsePair_clean.
Qed.

(** Pairs stored later do not depend on the entries of other keys. *)
Lemma fold_parsePair_same_key (parts : list string) (d1 d2 : gmap string string) k :
  d1 !! k = d2 !! k →
  fold_left parsePair parts d1 !! k = fold_left parsePair parts d2 !! k.
Proof.
  revert d1 d2. induction parts as [|part rest IH]; intros d1 d2 Hd; [done|].
  simpl. apply IH. rewrite !parsePair_pair_of.
  destruct (pair_of part) as [[a b]|]; [|done].
  destruct (decide (a = k)) as [->|Ha].
  - by rewrite !lookup_insert_eq.
  - by rewrite !lookup_insert_ne.
Qed.

(** A well-formed pair followed by a second [=] and anything else: the
    part is stored as the pair alone. *)
Lemma parsePair_with_tail (data : gmap string string) (k v rest : string) :
  clean k = true → clean v = true → has_char ";" rest = false →
  let part := (k ++ "=" ++ v ++ "=" ++ rest)%string in
  has_char ";" part = false ∧ nonempty (trim part) = true
  ∧ parsePair data (trim part) = <[k := v]> data.
Proof.
  intros Hk Hv Hrest part.
  destruct (clean_key k Hk) as (Hkeq & Hksemi & Hkne & Hktrim & _ & Hkst).
  pose proof (clean_trim v Hv) as Hvtrim.
  apply clean_spec in Hv as (Hvne & Hvsemi & Hveq & _).
  assert (trim part = (k ++ "=" ++ v ++ "=" ++ trimEnd rest)%string) as Htrim.
  { unfold part, trim. destruct k as [|c k]; [done|].
    rewrite append_cons. cbn [trimStart] in Hkst |- *.
    destruct (is_ws c) eqn:Ews.
    - exfalso. clear -Hkst.
      assert (∀ s, String.length (trimStart s) ≤ String.length s)%nat as Hlen.
      { induction s as [|x s IH]; simpl; [done|]. destruct (is_ws x); simpl; lia. }
      specialize (Hlen k). rewrite Hkst in Hlen. simpl in Hlen. lia.
    - rewrite <- append_cons.
      replace (String c k ++ "=" ++ v ++ "=" ++ rest)%string
        with ((String c k ++ "=" ++ v) ++ "=" ++ rest)%string
        by (by rewrite !append_assoc).
      assert (trimEnd ("=" ++ rest) = ("=" ++ trimEnd rest)%string) as Hend.
      { rewrite !append_cons, !append_nil_l. simpl. by destruct (trimEnd rest). }
      rewrite trimEnd_app_kept; rewrite Hend; [|done].
      by rewrite !append_assoc. }
  split; [|split].
  - unfold part. rewrite !has_char_app, Hksemi, Hvsemi, Hrest. done.
  - rewrite Htrim. by destruct k.
  - rewrite Htrim. unfold parsePair.
    destruct (split_pair k v (Some (trimEnd rest)) Hkeq Hveq) as [-> ->].
    by rewrite Hkne, Hvne, Hktrim, Hvtrim.
Qed.

(** C10. In every pair of the record text the decoder keeps the text
    before the first [=] as the key and the text between the first and
    the second [=] as the value: what follows a second [=] is dropped.
    So a pair [k=v=rest] at the end of a text stores [v], and nothing
    of [rest], under [k], and a callback written [cb=v=rest] is decoded
    as [v]. A part whose key or value is empty, or that has no [=],
    stores nothing: the text decodes to what it decodes to without that
    part, to the same record when there is one. *)
Theorem parsePair_keeps_first_two_fields :
  (* the loop body *)
  (∀ (data : gmap string string) key value rest,
     has_char "=" key = false → has_char "=" value = false →
     parsePair data (key ++ "=" ++ value ++ "=" ++ rest)
     = parsePair data (key ++ "=" ++ value)
     ∧ parsePair data (key ++ "=" ++ value)
       = if nonempty key && nonempty value
         then <[trim key := trim value]> data else data)
  ∧ (∀ (data : gmap string string) part,
       has_char "=" part = false → parsePair data part = data)
  (* the decoded data and the decoded record *)
  ∧ (∀ txt key value rest,
       clean key = true → clean value = true → has_char ";" rest = false →
       record_data (txt ++ ";" ++ key ++ "=" ++ value ++ "=" ++ rest)
       = <[key := value]> (record_data txt)
       ∧ ∀ r : DNS402Record F,
           key = "cb" → parseRecord txt = Some r →
           parseRecord (txt ++ ";" ++ key ++ "=" ++ value ++ "=" ++ rest)
           = Some {| version := version r; price := price r;
                     currency := currency r; network := network r;
                     wallet := wallet r; ttl := ttl r; model := model r;
                     callback := Some value; mint := mint r |})
  ∧ (∀ before key value rest after,
       has_char "=" key = false → has_char "=" value = false →
       has_char ";" (key ++ "=" ++ value ++ "=" ++ rest) = false →
       trim (key ++ "=" ++ value ++ "=" ++ rest) = (key ++ "=" ++ value ++ "=" ++ rest)%string →
       trim (key ++ "=" ++ value) = (key ++ "=" ++ value)%string →
       parseRecord (F:=F) (before ++ ";" ++ (key ++ "=" ++ value ++ "=" ++ rest) ++ ";" ++ after)
       = parseRecord (before ++ ";" ++ (key ++ "=" ++ value) ++ ";" ++ after))
  (* parts that store nothing *)
  ∧ (∀ key value rest,
       has_char "=" key = false →
       pair_of ("=" ++ value) = None
       ∧ pair_of (key ++ "=") = None
       ∧ pair_of (key ++ "=" ++ "=" ++ rest) = None
       ∧ pair_of key = None)
  ∧ (∀ before part after,
       has_char ";" part = false → pair_of (trim part) = None →
       record_data (before ++ ";" ++ part ++ ";" ++ after)
       = record_data (before ++ ";" ++ after)
       ∧ parseRecord (F:=F) (before ++ ";" ++ part ++ ";" ++ after)
         = parseRecord (before ++ ";" ++ after)
       ∧ ∀ r : DNS402Record F,
           parseRecord (before ++ ";" ++ after) = Some r →
           parseRecord (before ++ ";" ++ part ++ ";" ++ after) = Some r).
Proof.
  split; [|split; [|split; [|split; [|split]]]].
  - intros data key value rest Hk Hv. split; [|by apply parsePair_key_value].
    unfold parsePair.
    destruct (split_pair key value (Some rest) Hk Hv) as [-> ->].
    destruct (split_pair key value None Hk Hv) as [-> ->]. done.
  - intros data part Hno. unfold parsePair. by rewrite split_no_sep.
  - intros txt key value rest Hk Hv Hrest.
    destruct (parsePair_with_tail (record_data txt) key value rest Hk Hv Hrest)
      as (Hsemi & Hne & Hstored).
    assert (record_data (txt ++ ";" ++ key ++ "=" ++ value ++ "=" ++ rest)
            = <[key := value]> (record_data txt)) as Hdata.
    { by rewrite record_data_app, (record_parts_single _ Hsemi), Hne. }
    split; [done|]. intros r -> Hparse.
    assert (parseRecord (F:=F) txt ≠ None) as Hsome by (by rewrite Hparse).
    rewrite parseRecord_None in Hsome.
    apply dec_stable in Hsome as (Hver & Hp & Hc & Hn & Hw).
    unfold parseRecord in Hparse |- *. rewrite Hdata.
    rewrite lookup_insert_eq, !lookup_insert_ne by done.
    rewrite Hp, Hc, Hn, Hw, bool_decide_eq_true_2 in Hparse by done.
    rewrite Hp, Hc, Hn, Hw, bool_decide_eq_true_2 by done.
    cbn [negb orb] in Hparse |- *. injection Hparse as <-. done.
  - intros before key value rest after Hk Hv Hsemi Htrim3 Htrim2.
    apply parseRecord_data. unfold record_data.
    rewrite !record_parts_app, !fold_left_app.
    assert (has_char ";" (key ++ "=" ++ value) = false) as Hsemi2.
    { rewrite !has_char_app in Hsemi. rewrite !has_char_app.
      repeat (apply orb_false_iff in Hsemi as [? Hsemi]).
      repeat (apply orb_false_iff; split); done. }
    rewrite (record_parts_single _ Hsemi), (record_parts_single _ Hsemi2).
    rewrite Htrim3, Htrim2.
    assert (∀ a b, nonempty (a ++ "=" ++ b) = true) as Hne.
    { intros [|c a] b; done. }
    rewrite !Hne. simpl. f_equal.
    unfold parsePair.
    destruct (split_pair key value (Some rest) Hk Hv) as [-> ->].
    destruct (split_pair key value None Hk Hv) as [-> ->]. done.
  - intros key value rest Hk. unfold pair_of.
    split; [|split; [|split]].
    + rewrite append_cons, append_nil_l. simpl.
      by destruct (split "=" value).
    + rewrite split_app_sep, (split_no_sep _ key) by done. simpl.
      by rewrite andb_false_r.
    + rewrite !append_cons, !append_nil_l, split_app_sep.
      rewrite (split_no_sep _ key) by done. simpl.
      destruct (split "=" rest); simpl; by rewrite andb_false_r.
    + rewrite split_no_sep by done. done.
  - intros before part after Hsemi Hpair.
    assert (record_data (before ++ ";" ++ part ++ ";" ++ after)
            = record_data (before ++ ";" ++ after)) as Hdata.
    { unfold record_data.
      rewrite !record_parts_app, !fold_left_app. f_equal.
      rewrite (record_parts_single _ Hsemi).
      destruct (nonempty (trim part)); [|done].
      simpl. by rewrite parsePair_pair_of, Hpair. }
    split; [done|]. split; [by apply parseRecord_data|].
    intros r <-. by apply parseRecord_data.
Qed.

(** X1. A record that [parseRecord] returns is normalised: its version
    is the protocol tag, its currency is upper-case and its network
    lower-case, neither of them nor the wallet is empty, and the payment
    model is always set, to [per-request] when the text has none.  The
    [ttl] is [parseInt] of the [t] field, absent when the text has none. *)
Theorem parseRecord_normal_form (txt : string) (r : DNS402Record F) :
  parseRecord txt = Some r →
  version r = "dns402" ∧
  toUpperCase (currency r) = currency r ∧ nonempty (currency r) = true ∧
  toLowerCase (network r) = network r ∧ nonempty (network r) = true ∧
  nonempty (wallet r) = true ∧
  truthy (model r) = true ∧
  (truthy (record_data txt !! "m") = false → model r = Some "per-request") ∧
  (truthy (record_data txt !! "t") = false → ttl r = None) ∧
  (∀ t, record_data txt !! "t" = Some t → nonempty t = true →
        ttl r = Some (JsInt.parseInt t)).
Proof.
  intros Hparse.
  assert (parseRecord (F:=F) txt ≠ None) as Hsome by (by rewrite Hparse).
  rewrite parseRecord_None in Hsome.
  apply dec_stable in Hsome as (Hv & Hp & Hc & Hn & Hw).
  unfold parseRecord in Hparse.
  rewrite Hp, Hc, Hn, Hw, bool_decide_eq_true_2 in Hparse by done.
  cbn [negb orb] in Hparse. injection Hparse as <-.
  cbn [version currency network wallet model ttl].
  destruct (record_data txt !! "c") as [c|]; [|done].
  destruct (record_data txt !! "n") as [n|]; [|done].
  destruct (record_data txt !! "w") as [w|]; [|done].
  rewrite Hv. cbn [default from_option] in *. unfold id.
  split; [done|]. unfold toUpperCase, toLowerCase.
  split; [apply map_chars_idem, upper_char_idem|].
  split; [by rewrite nonempty_map_chars|].
  split; [apply map_chars_idem, lower_char_idem|].
  split; [by rewrite nonempty_map_chars|].
  split; [done|].
  split; [by destruct (truthy (record_data txt !! "m")) eqn:E|].
  split; [by intros ->|]. split; [by intros ->|].
  intros t -> Ht. cbn [truthy]. by rewrite Ht.
Qed.

(** X2. A well-formed pair [k=v] appended to a text overrides what the
    text had for [k] and leaves the other keys alone: of two fields with
    the same key the later one wins.  In particular a second price
    replaces the first and changes nothing else of the record. *)
Theorem later_field_overrides (txt k v : string) :
  clean k = true → clean v = true →
  record_data (txt ++ ";" ++ k ++ "=" ++ v) = <[k := v]> (record_data txt)
  ∧ (∀ r : DNS402Record F,
       k = "p" → parseRecord txt = Some r →
       parseRecord (txt ++ ";" ++ k ++ "=" ++ v)
       = Some {| version := version r; price := parseFloat v;
                 currency := currency r; network := network r;
                 wallet := wallet r; ttl := ttl r; model := model r;
                 callback := callback r; mint := mint r |}).
Proof.
  intros Hk Hv. pose proof (record_data_snoc txt k v Hk Hv) as Hdata.
  split; [done|]. intros r -> Hparse.
  assert (parseRecord (F:=F) txt ≠ None) as Hsome by (by rewrite Hparse).
  rewrite parseRecord_None in Hsome.
  apply dec_stable in Hsome as (Hver & Hp & Hc & Hn & Hw).
  apply clean_spec in Hv as (Hvne & _).
  unfold parseRecord in Hparse |- *. rewrite Hdata.
  rewrite lookup_insert_eq, !lookup_insert_ne by done.
  rewrite Hp, Hc, Hn, Hw, bool_decide_eq_true_2 in Hparse by done.
  rewrite Hc, Hn, Hw, bool_decide_eq_true_2 by done.
  cbn [truthy]. rewrite Hvne. cbn [negb orb] in Hparse |- *.
  injection Hparse as <-. done.
Qed.

(** X3. A well-formed pair whose key is none of the nine that the
    decoder reads changes nothing, wherever it stands in the text. *)
Theorem unknown_key_ignored (before k v after : string) :
  clean k = true → clean v = true → k ∉ record_keys →
  parseRecord (F:=F) (before ++ ";" ++ k ++ "=" ++ v ++ ";" ++ after)
  = parseRecord (before ++ ";" ++ after).
Proof.
  intros Hk Hv Hnot. apply parseRecord_keys. intros k' Hk'.
  assert (k ≠ k') as Hne by (by intros ->).
  destruct (clean_key k Hk) as (Heq & Hsemi & Hkne & Htrim & Hne' & Hst).
  destruct (part_ok_key_value k v Hsemi Hne' Hst Hv) as (Hp1 & Hp2 & Hp3).
  replace (k ++ "=" ++ v ++ ";" ++ after)%string
    with ((k ++ "=" ++ v) ++ ";" ++ after)%string
    by (by rewrite !append_assoc).
  rewrite !record_data_app, record_parts_app, fold_left_app.
  rewrite (record_parts_single _ Hp1), Hp2, Hp3. simpl.
  rewrite parsePair_clean by done.
  apply fold_parsePair_same_key. by rewrite lookup_insert_ne.
Qed.

(** X4. Separators at either end of the text and white space around a
    part are not significant. *)
Theorem separators_and_padding_ignored (txt before part after : string) :
  parseRecord (F:=F) (txt ++ ";") = parseRecord txt
  ∧ parseRecord (F:=F) (";" ++ txt) = parseRecord txt
  ∧ (has_char ";" part = false →
     parseRecord (F:=F) (before ++ ";" ++ part ++ ";" ++ after)
     = parseRecord (before ++ ";" ++ trim part ++ ";" ++ after)).
Proof.
  split; [|split].
  - apply parseRecord_data. unfold record_data.
    rewrite <- (append_nil_r ";"), record_parts_app.
    change (record_parts "") with (@nil string). by rewrite app_nil_r.
  - apply parseRecord_data. unfold record_data.
    rewrite <- (append_nil_l (";" ++ txt)), record_parts_app. done.
  - intros Hsemi. apply parseRecord_data. unfold record_data.
    rewrite !record_parts_app.
    rewrite (record_parts_single part), (record_parts_single (trim part)), trim_idem;
      [done|by apply has_char_trim|done].
Qed.

(** The optional fields that [generateRecord] leaves out, made absent. *)
Lemma generateRecord_skips (config : RecordConfig F) :
  generateRecord config
  = generateRecord
      {| cfg_price := cfg_price config; cfg_currency := cfg_currency config;
         cfg_wallet := cfg_wallet config;
         cfg_ttl := if JsInt.truthy (cfg_ttl config) then cfg_ttl config else None;
         cfg_model := if_truthy (cfg_model config);
         cfg_callback := if_truthy (cfg_callback config);
         cfg_mint := if_truthy (cfg_mint config) |}.
Proof.
  destruct config as [p c w t m cb mi]. unfold generateRecord, if_truthy.
  cbn [cfg_price cfg_currency cfg_wallet cfg_ttl cfg_model cfg_callback cfg_mint].
  assert (∀ o : option string,
            truthy (if truthy o then o else None) = truthy o
            ∧ default "" (if truthy o then o else None) = default "" o) as Ho.
  { intros [[|]|]; done. }
  assert (JsInt.truthy (if JsInt.truthy t then t else None) = JsInt.truthy t
          ∧ (JsInt.truthy t = true →
             default IntNaN (if JsInt.truthy t then t else None) = default IntNaN t))
    as [Ht1 Ht2].
  { destruct t as [[|z]|]; try done. cbn [JsInt.truthy].
    destruct (z =? 0) eqn:Ez; cbn [negb JsInt.truthy]; [done|].
    by rewrite Ez. }
  rewrite Ht1.
  destruct (Ho m) as [Hm1 Hm2], (Ho cb) as [Hcb1 Hcb2], (Ho mi) as [Hmi1 Hmi2].
  rewrite Hm1, Hm2, Hcb1, Hcb2, Hmi1, Hmi2.
  destruct (JsInt.truthy t); done.
Qed.

Lemma lookup_if_insert (b : bool) (m : gmap string string) k v k' :
  (if b then <[k := v]> m else m) !! k'
  = if b && bool_decide (k = k') then Some v else m !! k'.
Proof.
  destruct b; [|done]. simpl. destruct (decide (k = k')) as [->|Hne].
  - by rewrite lookup_insert_eq, bool_decide_eq_true_2.
  - by rewrite lookup_insert_ne, bool_decide_eq_false_2.
Qed.

(** Decoding a generated record. *)
Lemma parseRecord_generateRecord (config : RecordConfig F) :
  clean (num_toString (cfg_price config)) = true →
  parseFloat (num_toString (cfg_price config)) = cfg_price config →
  clean (cfg_currency config) = true →
  clean (cfg_wallet config) = true →
  (∀ z, cfg_ttl config = Some (IntVal z) → 0 ≤ z ≤ JsInt.MAX_SAFE_INTEGER) →
  skipped_or_clean (cfg_model config) = true →
  skipped_or_clean (cfg_callback config) = true →
  skipped_or_clean (cfg_mint config) = true →
  parseRecord (generateRecord config) = Some (decoded_config config).
Proof.
  intros Hprice Hread Hcur Hwal Httl Hm Hcb Hmint.
  assert (∀ o, skipped_or_clean o = true →
            opt_clean (if_truthy o) = true ∧
            truthy (if_truthy o) = truthy o ∧
            (truthy o = true →
             if_truthy o = Some (default "" (if_truthy o)) ∧
             nonempty (default "" (if_truthy o)) = true)) as Hopt.
  { intros [x|]; unfold skipped_or_clean, if_truthy; simpl; [|done].
    destruct (nonempty x) eqn:E; simpl; [|done]. intros Hx. done. }
  assert ((JsInt.truthy (cfg_ttl config) = false)
          ∨ ∃ z, cfg_ttl config = Some (IntVal z) ∧ (z =? 0) = false ∧
                 clean (JsInt.toString z) = true ∧
                 nonempty (JsInt.toString z) = true ∧
                 JsInt.parseInt (JsInt.toString z) = IntVal z) as Httl'.
  { destruct (cfg_ttl config) as [[|z]|] eqn:Et; [by left| |by left].
    simpl. destruct (Z.eqb_spec z 0) as [|Hz]; [by left|]. right. exists z.
    specialize (Httl z eq_refl).
    destruct (parseInt_toString z ltac:(lia)) as [Hparse Hclean].
    pose proof Hclean as (? & _)%clean_spec.
    repeat split; try done. by apply Z.eqb_neq. }
  destruct (Hopt _ Hm) as (Hm1 & Hm2 & Hm3), (Hopt _ Hcb) as (Hcb1 & Hcb2 & Hcb3),
    (Hopt _ Hmint) as (Hmi1 & Hmi2 & Hmi3).
  rewrite generateRecord_skips. unfold parseRecord, decoded_config.
  rewrite record_data_generate;
    cbn [cfg_price cfg_currency cfg_wallet cfg_ttl cfg_model cfg_callback cfg_mint];
    try done.
  - apply clean_spec in Hprice as (Hp1 & _), Hcur as (Hc1 & _), Hwal as (Hw1 & _).
    rewrite !lookup_if_insert.
    repeat first [ rewrite lookup_insert_eq
                 | rewrite lookup_insert_ne by done
                 | rewrite lookup_empty ].
    repeat match goal with
           | |- context [bool_decide (?a = ?b)] =>
               first [ rewrite (bool_decide_eq_false_2 (a = b)) by done
                     | rewrite (bool_decide_eq_true_2 (a = b)) by done ]
           end.
    rewrite !andb_false_r, !andb_true_r. cbn [truthy default from_option]. unfold id.
    rewrite Hp1, Hc1, Hw1, Hread, Hm2, Hcb2, Hmi2. cbn [negb orb].
    f_equal. f_equal.
    + (* ttl *)
      destruct Httl' as [Et | (z & -> & Hz0 & _ & Hz1 & Hz2)];
        [rewrite Et; reflexivity|].
      cbn [JsInt.truthy]. rewrite Hz0. cbn [negb JsInt.truthy]. rewrite Hz0.
      cbn [negb truthy default from_option JsInt.int_toString].
      by rewrite Hz1, Hz2.
    + destruct (cfg_model config) as [[|c x]|]; reflexivity.
    + destruct (cfg_callback config) as [[|c x]|]; reflexivity.
    + destruct (cfg_mint config) as [[|c x]|]; reflexivity.
  - destruct Httl' as [-> | (z & -> & Hz0 & Hclean & _)]; [done|].
    simpl. by rewrite Hz0.
Qed.

(** X5. Decoding the text that [generateRecord] writes for a config.
    The config is one whose price is printed as a text without [;],
    [=] or white space at either end that [parseFloat] reads back as
    the same number, whose currency and wallet are non-empty texts of
    that kind, whose [ttl] is absent, [NaN] or a whole number from [0]
    to [MAX_SAFE_INTEGER], and whose model, callback and mint are
    absent, empty or texts of that kind. Decoding gives the config
    back with the defaults filled in: the currency upper-cased, the
    network [solana], a [ttl] that is absent, [0] or [NaN] left out, a
    missing or empty model read as [per-request], an empty callback or
    mint read as absent.  The record obtained is stable: written again
    and decoded again, it comes back as it is. *)
Theorem generated_record_decodes (config : RecordConfig F) :
  clean (num_toString (cfg_price config)) = true →
  parseFloat (num_toString (cfg_price config)) = cfg_price config →
  clean (cfg_currency config) = true →
  clean (cfg_wallet config) = true →
  (∀ z, cfg_ttl config = Some (IntVal z) → 0 ≤ z ≤ JsInt.MAX_SAFE_INTEGER) →
  skipped_or_clean (cfg_model config) = true →
  skipped_or_clean (cfg_callback config) = true →
  skipped_or_clean (cfg_mint config) = true →
  parseRecord (generateRecord config) = Some (decoded_config config)
  ∧ parseRecord (generateRecord (config_of_record (decoded_config config)))
    = Some (decoded_config config).
Proof.
  intros Hprice Hread Hcur Hwal Httl Hm Hcb Hmint.
  split; [by apply parseRecord_generateRecord|].
  assert (∀ o, skipped_or_clean o = true →
            skipped_or_clean (if_truthy o) = true ∧ if_truthy (if_truthy o) = if_truthy o)
    as Hopt.
  { intros [x|]; unfold skipped_or_clean, if_truthy; simpl; [|done].
    destruct (nonempty x) eqn:E; simpl; [|done]. by rewrite E. }
  destruct config as [p c w t m cb mi].
  cbn [cfg_price cfg_currency cfg_wallet cfg_ttl cfg_model cfg_callback cfg_mint] in *.
  rewrite parseRecord_generateRecord;
    unfold decoded_config, config_of_record;
    cbn [cfg_price cfg_currency cfg_wallet cfg_ttl cfg_model cfg_callback cfg_mint
         price currency wallet ttl model callback mint]; try done.
  - f_equal. f_equal.
    + apply map_chars_idem, upper_char_idem.
    + by destruct (JsInt.truthy t) eqn:Et; rewrite ?Et.
    + by destruct m as [[|d x]|].
    + by apply Hopt.
    + by apply Hopt.
  - by apply clean_toUpperCase.
  - intros z. destruct (JsInt.truthy t); [apply Httl|done].
  - destruct m as [[|d x]|]; done.
  - by apply Hopt.
  - by apply Hopt.
Qed.

(** X6. The record that [createDNSRecord] writes from the configuration
    of a gate decodes to the terms the gate verifies against: the same
    price, currency and wallet, no callback and no mint, and a [ttl] under
    which the client keeps its proof for as long as the gate keeps the
    session.  [createFullDNSRecord] is that record, quoted, after the
    name [_402.domain].  The gate is one whose currency is [SOL] or
    [USDC], whose price is printed as a text without [;], [=] or
    white space at either end that [parseFloat] reads back as the same
    number, whose wallet is a non-empty text of that kind, and whose
    [sessionTTL] is absent, [NaN] or a whole number of seconds from [0]
    to [MAX_SAFE_INTEGER]; the model is absent, empty or a text of
    that kind. *)
Theorem published_terms_match_gate `{Platform}
    (config : DNS402ServerConfig F) (model : option string) (domain : string) :
  srv_currency config = "SOL" ∨ srv_currency config = "USDC" →
  clean (num_toString (srv_price config)) = true →
  parseFloat (num_toString (srv_price config)) = srv_price config →
  clean (srv_wallet config) = true →
  (∀ z, srv_sessionTTL config = Some (IntVal z) → 0 ≤ z ≤ JsInt.MAX_SAFE_INTEGER) →
  skipped_or_clean model = true →
  createFullDNSRecord domain (gate_options config model)
  = ("_402." ++ domain ++ " TXT " ++ dquote
     ++ createDNSRecord (gate_options config model) ++ dquote)%string
  ∧ ∃ r, parseRecord (createDNSRecord (gate_options config model)) = Some r ∧
         price r = srv_price config ∧ currency r = srv_currency config ∧
         network r = "solana" ∧ wallet r = srv_wallet config ∧
         callback r = None ∧ mint r = None ∧
         JsInt.or_default (ttl r) 3600
         = JsInt.or_default (srv_sessionTTL config) 3600.
Proof.
  intros Hcur Hprice Hread Hwal Httl Hmodel. split; [done|].
  eexists. split.
  - unfold createDNSRecord. apply parseRecord_generateRecord; try done.
    cbn [record_config gate_options cfg_currency opt_currency].
    by destruct Hcur as [-> | ->].
  - cbn [decoded_config record_config gate_options price currency network wallet
         callback mint ttl cfg_price cfg_currency cfg_wallet cfg_ttl cfg_callback
         cfg_mint opt_price opt_currency opt_wallet opt_sessionTTL].
    repeat split; try done.
    + by destruct Hcur as [-> | ->].
    + destruct (srv_sessionTTL config) as [[|z]|]; try done.
      cbn [JsInt.truthy]. by destruct (z =? 0) eqn:Ez; cbn [negb JsInt.or_default];
        rewrite ?Ez.
Qed.

End DecodeFacts.

(** ** Resolution of a domain *)

Section ResolveFacts.
Context {F : Type} `{JSNumber F} `{Platform}.

Lemma starts_with_app (p s : string) :
  starts_with p s = true → ∃ r, s = (p ++ r)%string.
Proof.
  revert s. induction p as [|c p IH]; intros s Hs; [by exists s|].
  destruct s as [|d s]; [done|]. simpl in Hs.
  apply andb_true_iff in Hs as [Hc Hs]. apply Ascii.eqb_eq in Hc as ->.
  destruct (IH s Hs) as [r ->]. exists r. by rewrite append_cons.
Qed.

Lemma strip_scheme_bare (s : string) : has_char "/" s = false → strip_scheme s = s.
Proof.
  intros Hs. unfold strip_scheme.
  destruct (starts_with "https://" s) eqn:E1.
  { apply starts_with_app in E1 as [r ->]. by rewrite has_char_app in Hs. }
  destruct (starts_with "http://" s) eqn:E2; [|done].
  apply starts_with_app in E2 as [r ->]. by rewrite has_char_app in Hs.
Qed.

Lemma strip_path_none (s : string) : has_char "/" s = false → strip_path s = s.
Proof.
  induction s as [|c s IH]; [done|]. simpl. intros [Hc Hs]%orb_false_iff.
  rewrite Hc. simpl. by rewrite IH.
Qed.

Lemma strip_path_app (s path : string) :
  has_char "/" s = false → one_line path = true →
  strip_path (s ++ "/" ++ path) = s.
Proof.
  intros Hs Hpath. induction s as [|c s IH].
  - rewrite append_nil_l, append_cons, append_nil_l. simpl.
    unfold one_line in Hpath. by rewrite Hpath.
  - simpl in Hs. apply orb_false_iff in Hs as [Hc Hs].
    rewrite append_cons. simpl. rewrite Hc. simpl. by rewrite IH.
Qed.

Lemma strip_port_none (s : string) : has_char ":" s = false → strip_port s = s.
Proof.
  induction s as [|c s IH]; [done|]. simpl. intros [Hc Hs]%orb_false_iff.
  rewrite Hc. simpl. by rewrite IH.
Qed.

Lemma strip_port_app (s port : string) :
  has_char ":" s = false → nonempty port = true → all_chars is_digit port = true →
  strip_port (s ++ ":" ++ port) = s.
Proof.
  intros Hs Hne Hport. induction s as [|c s IH].
  - rewrite append_nil_l, append_cons, append_nil_l. simpl. by rewrite Hne, Hport.
  - simpl in Hs. apply orb_false_iff in Hs as [Hc Hs].
    rewrite append_cons. simpl. rewrite Hc. simpl. by rewrite IH.
Qed.

Lemma digits_no_slash (s : string) : all_chars is_digit s = true → has_char "/" s = false.
Proof.
  induction s as [|c s IH]; [done|]. simpl. intros [Hc Hs]%andb_true_iff.
  rewrite (IH Hs), orb_false_r. clear -Hc.
  destruct c as [[] [] [] [] [] [] [] []]; done.
Qed.

(** X7. [resolveRecord] reduces what it is given to the host name: a
    bare host is kept, and a scheme, a port and a path are removed from
    a URL of that host. *)
Theorem clean_domain_of_url (host port path : string) :
  bare_host host = true →
  nonempty port = true → all_chars is_digit port = true →
  one_line path = true →
  clean_domain host = host
  ∧ clean_domain ("http://" ++ host) = host
  ∧ clean_domain ("https://" ++ host ++ "/" ++ path) = host
  ∧ clean_domain (host ++ ":" ++ port) = host
  ∧ clean_domain ("https://" ++ host ++ ":" ++ port ++ "/" ++ path) = host.
Proof.
  unfold bare_host. rewrite andb_true_iff, !negb_true_iff.
  intros [Hslash Hcolon] Hne Hport Hpath.
  assert (∀ s, strip_scheme ("http://" ++ s) = s) as Hhttp.
  { intros s. by rewrite !append_cons, append_nil_l. }
  assert (∀ s, strip_scheme ("https://" ++ s) = s) as Hhttps.
  { intros s. by rewrite !append_cons, append_nil_l. }
  assert (has_char "/" (host ++ ":" ++ port) = false) as Hslash'.
  { by rewrite !has_char_app, Hslash, (digits_no_slash _ Hport). }
  unfold clean_domain. repeat split.
  - by rewrite strip_scheme_bare, strip_path_none, strip_port_none.
  - by rewrite Hhttp, strip_path_none, strip_port_none.
  - by rewrite Hhttps, strip_path_app, strip_port_none.
  - by rewrite strip_scheme_bare, strip_path_none, strip_port_app.
  - replace (host ++ ":" ++ port ++ "/" ++ path)%string
      with ((host ++ ":" ++ port) ++ "/" ++ path)%string
      by (by rewrite !append_assoc).
    by rewrite Hhttps, strip_path_app, strip_port_app.
Qed.

Lemma first_parsed_Some (records : list (list string)) (r : DNS402Record F) :
  first_parsed records = Some r ↔
  ∃ i txt, joined records !! i = Some txt ∧ parseRecord txt = Some r ∧
           ∀ j t, (j < i)%nat → joined records !! j = Some t →
                  parseRecord (F:=F) t = None.
Proof.
  induction records as [|record rest IH]; simpl.
  - split; [done|]. by intros (i & txt & Hi & _).
  - destruct (parseRecord (join "" record)) as [parsed|] eqn:E.
    + split.
      * intros [= <-]. exists 0%nat, (join "" record).
        split; [done|]. split; [done|]. intros j t Hj. lia.
      * intros (i & txt & Hi & Hparse & Hbefore). destruct i as [|i].
        -- simpl in Hi. injection Hi as <-. congruence.
        -- specialize (Hbefore 0%nat (join "" record) ltac:(lia) eq_refl). congruence.
    + rewrite IH. split.
      * intros (i & txt & Hi & Hparse & Hbefore). exists (S i), txt.
        split; [done|]. split; [done|]. intros [|j] t Hj Ht.
        -- simpl in Ht. by injection Ht as <-.
        -- apply (Hbefore j); [lia|done].
      * intros (i & txt & Hi & Hparse & Hbefore). destruct i as [|i].
        -- simpl in Hi. injection Hi as <-. congruence.
        -- exists i, txt. split; [done|]. split; [done|]. intros j t Hj Ht.
           apply (Hbefore (S j)); [lia|done].
Qed.

Lemma first_parsed_None (records : list (list string)) :
  first_parsed (F:=F) records = None ↔
  Forall (λ txt, parseRecord (F:=F) txt = None) (joined records).
Proof.
  induction records as [|record rest IH]; simpl.
  - split; [constructor|done].
  - destruct (parseRecord (join "" record)) as [parsed|] eqn:E.
    + split; [done|]. intros Hall. apply Forall_cons_1 in Hall as [? _]. congruence.
    + rewrite IH. split.
      * intros Hrest. by constructor.
      * intros Hall. by apply Forall_cons_1 in Hall as [_ ?].
Qed.

(** X8. [resolveRecord] never throws.  Every execution is one TXT lookup
    of [_402.] followed by the cleaned domain; a DNS failure gives
    [null]; otherwise the result is the first record of the answer
    that decodes, its chunks joined, and [null] when none does. *)
Theorem resolveRecord_first_valid_record
    (domain : string) (tr : trace F) (out : result (option (DNS402Record F))) :
  exec (resolveRecord domain) tr out →
  ∃ answer found,
    tr = [Ev (ResolveTxt ("_402." ++ clean_domain domain)) answer] ∧
    out = Ok found ∧
    (∀ e, answer = Err e → found = None) ∧
    (∀ records, answer = Ok records →
       (∀ r, found = Some r ↔
             ∃ i txt, joined records !! i = Some txt ∧ parseRecord txt = Some r ∧
                      ∀ j t, (j < i)%nat → joined records !! j = Some t →
                             parseRecord (F:=F) t = None) ∧
       (found = None ↔
        Forall (λ txt, parseRecord (F:=F) txt = None) (joined records))).
Proof.
  unfold resolveRecord, try_catch, bind_ok, ret. simpl.
  intros (answer & tr' & -> & Hk). exists answer.
  destruct answer as [records|e]; simpl in Hk; destruct Hk as [-> <-].
  - exists (first_parsed records). split; [done|]. split; [done|].
    split; [done|]. intros ? [= <-]. split.
    + intros r. apply first_parsed_Some.
    + apply first_parsed_None.
  - exists None. split; [done|]. split; [done|]. split; done.
Qed.

(** X9. Errors of discovery.  Without a custom resolver [discover] is
    [resolveRecord] and never throws.  With one, the resolver is called
    once with the domain as given; an empty or missing text gives [null]
    without decoding, and a failure of the resolver is thrown to the
    caller. *)
Theorem discover_errors
    (config : DNS402ClientConfig F) (domain : string)
    (tr : trace F) (out : result (option (DNS402Record F))) :
  exec (discover config domain) tr out →
  (dnsResolver config = false →
     ∃ answer found,
       tr = [Ev (ResolveTxt ("_402." ++ clean_domain domain)) answer] ∧
       out = Ok found)
  ∧ (dnsResolver config = true →
       ∃ answer,
         tr = [Ev (DnsResolver domain) answer] ∧
         out = match answer with
               | Err e => Err e
               | Ok txt => Ok (if truthy txt then parseRecord (default "" txt)
                               else None)
               end).
Proof.
  unfold discover, resolveRecord, try_catch, bind_ok, ret.
  destruct (dnsResolver config); simpl; intros (r & tr' & -> & Hk);
    (split; [|]); try done; intros _.
  - exists r. destruct r as [txt|e]; simpl in Hk.
    + destruct (truthy txt); simpl in Hk; by destruct Hk as [-> <-].
    + by destruct Hk as [-> <-].
  - exists r. destruct r as [records|e]; simpl in Hk; destruct Hk as [-> <-]; eauto.
Qed.

(** X26. Publishing, then resolving.  For a bare host name (no [/], no
    [:]), the name that [generateDNSRecordString] writes in front of the
    record is the name that [resolveRecord] looks up; and when the
    lookup answers with the generated record, in one piece or cut into
    chunks, [resolveRecord] returns the config with the defaults filled
    in.  The config is one whose price is printed as a text without
    [;], [=] or white space at either end that [parseFloat] reads back
    as the same number, whose currency and wallet are non-empty texts
    of that kind, whose [ttl] is absent, [NaN] or a whole number from
    [0] to [MAX_SAFE_INTEGER], and whose model, callback and mint are
    absent, empty or texts of that kind. *)
Theorem published_record_resolves
    (domain : string) (config : RecordConfig F) (chunks : list string) :
  bare_host domain = true →
  clean (num_toString (cfg_price config)) = true →
  parseFloat (num_toString (cfg_price config)) = cfg_price config →
  clean (cfg_currency config) = true →
  clean (cfg_wallet config) = true →
  (∀ z, cfg_ttl config = Some (IntVal z) → 0 ≤ z ≤ JsInt.MAX_SAFE_INTEGER) →
  skipped_or_clean (cfg_model config) = true →
  skipped_or_clean (cfg_callback config) = true →
  skipped_or_clean (cfg_mint config) = true →
  join "" chunks = generateRecord config →
  ∃ name,
    generateDNSRecordString domain config
    = (name ++ " TXT " ++ dquote ++ generateRecord config ++ dquote)%string ∧
    exec (resolveRecord domain)
         [Ev (ResolveTxt name) (Ok [chunks])]
         (Ok (Some (decoded_config config))).
Proof.
  intros Hbare Hprice Hread Hcur Hwal Httl Hm Hcb Hmint Hchunks.
  exists ("_402." ++ domain)%string. split.
  { unfold generateDNSRecordString. by rewrite !append_assoc. }
  unfold bare_host in Hbare. rewrite andb_true_iff, !negb_true_iff in Hbare.
  destruct Hbare as [Hslash Hcolon].
  unfold resolveRecord, clean_domain, try_catch, bind_ok, ret.
  rewrite strip_scheme_bare, strip_path_none, strip_port_none by done.
  simpl. eexists (Ok [chunks]), []. split; [done|]. simpl.
  rewrite Hchunks, parseRecord_generateRecord by done. done.
Qed.

End ResolveFacts.

(** ** The client: what it pays, what it keeps *)

Section ClientExtras.
Context {F : Type} `{JSNumber F} `{Platform}.

Lemma quiet_no_answer (tr : trace F) :
  Forall quiet tr → omap http_answer tr = [].
Proof.
  induction 1 as [|e tr [_ Hh] _ IH]; [done|]. simpl.
  destruct e as [[] r]; try done.
Qed.

Lemma filter_app_nil {A} (p : A → bool) (l1 l2 : list A) :
  List.filter p l1 = [] → List.filter p (l1 ++ l2) = List.filter p l2.
Proof. intros Hl. by rewrite List.filter_app, Hl. Qed.

Lemma discover_no_http (config : DNS402ClientConfig F) domain tr found :
  exec (discover config domain) tr found →
  List.filter is_send tr = [] ∧ List.filter is_http tr = []
  ∧ omap http_answer tr = [].
Proof.
  intros Hq%discover_quiet.
  split; [by apply quiet_no_send|]. split; [by apply quiet_no_http|].
  by apply quiet_no_answer.
Qed.

(** [fetch] up to the first request: the clock is read when the cache
    has an entry for the domain, and nothing else happens. *)
Lemma fetch_exec_clock (config : DNS402ClientConfig F) url init
    (cache cache' : gmap string DNS402Session) tr out :
  exec (fetch config url init cache) tr (cache', out) →
  (url_hostname url = None ∧ tr = [] ∧ cache' = cache ∧ out = Err "Invalid URL")
  ∨ (∃ domain cached now,
       url_hostname url = Some domain ∧ cache !! domain = Some cached ∧
       now < expiresAt cached ∧ cache' = cache ∧
       tr = [Ev DateNow now;
             Ev (HttpFetch url (Some (with_proof init (proof cached)))) out])
  ∨ (∃ domain pre rest,
       url_hostname url = Some domain ∧ tr = (pre ++ rest)%list ∧
       (pre = [] ∧ cache !! domain = None
        ∨ ∃ cached now, pre = [Ev DateNow now] ∧ cache !! domain = Some cached
                        ∧ expiresAt cached ≤ now) ∧
       exec (fetch_unpaid config url domain init cache) rest (cache', out)).
Proof.
  intros Hexec. unfold fetch in Hexec.
  destruct (url_hostname url) as [domain|]; simpl in Hexec.
  - destruct (cache !! domain) as [cached|] eqn:E.
    + simpl in Hexec. destruct Hexec as (now & rest & -> & Hrest).
      destruct (Z.gtb_spec (expiresAt cached) now).
      * simpl in Hrest. destruct Hrest as (answered & t2 & -> & -> & [= <- <-]).
        right. left. exists domain, cached, now. done.
      * right. right. exists domain, [Ev DateNow now], rest.
        split; [done|]. split; [done|]. split; [|done].
        right. exists cached, now. done.
    + right. right. exists domain, [], tr.
      split; [done|]. split; [done|]. split; [by left|done].
  - left. by destruct Hexec as [-> [= <- <-]].
Qed.

(** X10. Without auto-pay, absent or disabled, [fetch] never calls the
    ledger: no execution contains a payment, at most one HTTP request is
    made, and the cache is left as it was. *)
Theorem fetch_never_pays_without_autopay
    (config : DNS402ClientConfig F) (url : string) (init : option RequestInit)
    (cache cache' : gmap string DNS402Session)
    (tr : trace F) (out : result Response) :
  autoPay_enabled config = false →
  exec (fetch config url init cache) tr (cache', out) →
  List.filter is_send tr = [] ∧
  (length (List.filter is_http tr) ≤ 1)%nat ∧
  cache' = cache.
Proof.
  intros Hoff Hexec.
  assert (∀ r, autopay_refusal config r ≠ None) as Hrefuse.
  { intros r. unfold autopay_refusal. unfold autoPay_enabled in Hoff.
    destruct (autoPay config) as [ap|] eqn:E; [|done]. by rewrite Hoff. }
  apply fetch_exec in Hexec
    as [(_ & -> & -> & _) | [(domain & cached & now & _ & _ & _ & -> & ->)
                            | (domain & pre & rest & _ & -> & Hpre & Hexec)]].
  - simpl. split; [done|]. split; [lia|done].
  - simpl. split; [done|]. split; [lia|done].
  - rewrite !List.filter_app, (quiet_no_send _ Hpre), (quiet_no_http _ Hpre). simpl.
    apply fetch_unpaid_exec in Hexec as (first & rest' & -> & Hrest).
    destruct Hrest as [(-> & -> & _) | (response & td1 & found1 & _ & _ & Hd & Hrest)].
    { simpl. split; [done|]. split; [lia|done]. }
    destruct (discover_no_http _ _ _ _ Hd) as (Hs & Hh & _).
    destruct Hrest as [(-> & -> & _) | (r1 & tp & paid & _ & Hok & _)].
    + simpl. rewrite Hs, Hh. simpl. split; [done|]. split; [lia|done].
    + by destruct (Hrefuse r1).
Qed.

(** X11. When the answer to the first request is not a 402 - whatever
    its status, or a network error - [fetch] returns it as it is and
    does nothing else: one HTTP request, no DNS lookup, no payment, the
    cache unchanged. *)
Theorem fetch_returns_other_answers_as_is
    (config : DNS402ClientConfig F) (url : string) (init : option RequestInit)
    (cache cache' : gmap string DNS402Session)
    (tr : trace F) (out first : result Response) :
  exec (fetch config url init cache) tr (cache', out) →
  head (omap http_answer tr) = Some first →
  (∀ response, first = Ok response → status response ≠ 402) →
  out = first ∧ cache' = cache ∧
  length (List.filter is_http tr) = 1%nat ∧
  List.filter is_send tr = [] ∧ List.filter is_lookup tr = [].
Proof.
  intros Hexec Hfirst Hother.
  apply fetch_exec_clock in Hexec
    as [(_ & -> & -> & _) | [(domain & cached & now & _ & _ & _ & -> & ->)
                            | (domain & pre & rest & _ & -> & Hpre & Hexec)]];
    [done| |].
  - simpl in Hfirst. injection Hfirst as <-. done.
  - apply fetch_unpaid_exec in Hexec as (first' & rest' & -> & Hrest).
    assert (omap http_answer pre = [] ∧ List.filter is_http pre = []
            ∧ List.filter is_send pre = [] ∧ List.filter is_lookup pre = [])
      as (Ha & Hh & Hs & Hl).
    { by destruct Hpre as [[-> _] | (c & now & -> & _)]. }
    rewrite omap_app, Ha in Hfirst. simpl in Hfirst. injection Hfirst as ->.
    destruct Hrest as [(-> & -> & -> & _) | (response & _ & _ & -> & H402 & _)].
    + by rewrite !List.filter_app, Hh, Hs, Hl.
    + by destruct (Hother response eq_refl).
Qed.

(** X12. A live cached session short-circuits [fetch]: the clock is
    read, one request is sent with the proof of the session in its two
    headers - over whatever the caller had put under these names, the
    other headers, the method and the body kept - and the answer is
    returned as it is, even a 402. *)
Theorem fetch_uses_live_session
    (config : DNS402ClientConfig F) (url domain : string)
    (init : option RequestInit)
    (cache cache' : gmap string DNS402Session) (cached : DNS402Session)
    (tr : trace F) (out : result Response) :
  url_hostname url = Some domain →
  cache !! domain = Some cached →
  exec (fetch config url init cache) tr (cache', out) →
  ∃ now rest,
    tr = Ev DateNow now :: rest ∧
    (now < expiresAt cached →
       let sent := with_proof init (proof cached) in
       rest = [Ev (HttpFetch url (Some sent)) out] ∧ cache' = cache ∧
       init_headers sent !! "x-dns402-proof" = Some (signature (proof cached)) ∧
       init_headers sent !! "x-dns402-payer" = Some (payer (proof cached)) ∧
       (∀ name, name ≠ "x-dns402-proof" → name ≠ "x-dns402-payer" →
                init_headers sent !! name
                = default ∅ (init_headers <$> init) !! name) ∧
       init_method sent = init ≫= init_method ∧
       init_body sent = init ≫= init_body).
Proof.
  intros Hhost Hcached Hexec. unfold fetch in Hexec.
  rewrite Hhost, Hcached in Hexec. simpl in Hexec.
  destruct Hexec as (now & rest & -> & Hrest). exists now, rest.
  split; [done|]. intros Hlive.
  destruct (Z.gtb_spec (expiresAt cached) now); [|lia].
  simpl in Hrest. destruct Hrest as (answered & t2 & -> & -> & [= <- <-]).
  split; [done|]. split; [done|]. unfold with_proof. simpl.
  change (toLowerCase Headers.PROOF) with "x-dns402-proof".
  change (toLowerCase Headers.PAYER) with "x-dns402-payer".
  split; [by rewrite lookup_insert_ne, lookup_insert_eq|].
  split; [by rewrite lookup_insert_eq|].
  split; [|done]. intros name Hn1 Hn2. by rewrite !lookup_insert_ne.
Qed.

(** X13. The session that [pay] returns is the live session of the cache
    or is built from the payment just made: the proof that the
    ledger-send call returned, and an expiry [ttl] seconds - 3600 when
    the record has no [ttl], or [0], or [NaN] - after the reading of the
    clock that follows the payment.  With [sessionCache] enabled
    [getSession] serves that session until it expires; with it disabled
    [pay] never changes the cache. *)
Theorem pay_session_lifetime
    (config : DNS402ClientConfig F) (site : string)
    (cache cache' : gmap string DNS402Session)
    (tr : trace F) (session : DNS402Session) :
  exec (pay config site cache) tr (cache', Ok session) →
  ((∃ now, tr = [Ev DateNow now] ∧ cache !! site = Some session ∧
           now < expiresAt session ∧ cache' = cache)
   ∨ (∃ pre record now,
        tr = (pre ++ [Ev (SendPayment record) (Ok (proof session));
                      Ev DateNow now])%list ∧
        List.filter is_send pre = [] ∧
        expiresAt session = now + JsInt.or_default (ttl record) 3600 * 1000 ∧
        domain session = site ∧ token session = None ∧
        cache' = if sessionCache config then <[site := session]> cache
                 else cache))
  ∧ (sessionCache config = true →
     ∀ tr' found,
       exec (getSession (F:=F) site cache') tr' found →
       ∃ now', tr' = [Ev DateNow now'] ∧
               (now' < expiresAt session → found = Some session) ∧
               (expiresAt session ≤ now' → found = None))
  ∧ (sessionCache config = false → cache' = cache).
Proof.
  intros Hexec. split; [|split].
  - apply pay_exec in Hexec
      as [(cached & now & Hc & -> & Hlive & -> & [= ->])
         | (pre & rest & -> & Hpre & Hexec)].
    { left. exists now. done. }
    right. apply pay_fresh_exec in Hexec as (td & found & Hd & Hcases).
    destruct Hcases as [(_ & _ & _ & e & [=])
                       | [(record & e & _ & _ & _ & [=])
                         | (record & proof & now & _ & -> & -> & [= ->])]].
    exists (pre ++ td)%list, record, now. rewrite app_assoc.
    split; [done|].
    split; [by rewrite List.filter_app, (quiet_no_send _ Hpre),
              (quiet_no_send _ (discover_quiet _ _ _ _ Hd))|].
    done.
  - intros Hcache tr' found Hget.
    pose proof (pay_caches_session _ _ _ _ _ _ Hcache Hexec) as Hkept.
    unfold getSession in Hget. rewrite Hkept in Hget. simpl in Hget.
    destruct Hget as (now' & t2 & -> & -> & <-). exists now'.
    split; [done|].
    destruct (Z.gtb_spec (expiresAt session) now'); split; (done || lia).
  - intros Hoff.
    apply pay_exec in Hexec
      as [(cached & now & _ & _ & _ & -> & _) | (pre & rest & _ & _ & Hexec)];
      [done|].
    apply pay_fresh_exec in Hexec as (td & found & Hd & Hcases).
    destruct Hcases as [(_ & -> & _) | [(record & e & _ & _ & -> & _)
                                       | (record & proof & now & _ & _ & -> & _)]];
      [done|done|]. by rewrite Hoff.
Qed.

Lemma quiet_not_succeeded (tr : trace F) :
  Forall quiet tr → existsb payment_succeeded tr = false.
Proof.
  induction 1 as [|e tr [Hs _] _ IH]; [done|]. simpl. rewrite IH, orb_false_r.
  by destruct e as [[] r].
Qed.

(** A failure of discovery is the failure of the custom resolver. *)
Lemma discover_failure (config : DNS402ClientConfig F) domain tr e :
  exec (discover config domain) tr (Err e) →
  tr = [Ev (DnsResolver domain) (Err e)].
Proof.
  unfold discover, resolveRecord, try_catch, bind_ok, ret.
  destruct (dnsResolver config); simpl; intros (r & tr' & -> & Hk).
  - destruct r as [txt|e']; simpl in Hk.
    + by destruct (negb (truthy txt)); destruct Hk as [_ [=]].
    + by destruct Hk as [-> [= ->]].
  - by destruct r as [records|e']; simpl in Hk; destruct Hk as [_ [=]].
Qed.

(** X14. [pay] throws for three reasons only - the custom resolver
    failed, no record was found, the ledger-send call failed - and in
    each case nothing was paid and the cache is left as it was. *)
Theorem pay_fails_without_paying
    (config : DNS402ClientConfig F) (domain : string)
    (cache cache' : gmap string DNS402Session) (tr : trace F) (e : string) :
  exec (pay config domain cache) tr (cache', Err e) →
  cache' = cache ∧ existsb payment_succeeded tr = false ∧
  ((last tr = Some (Ev (DnsResolver domain) (Err e)) ∧ List.filter is_send tr = [])
   ∨ (e = "No DNS402 record found for " ++ domain ∧ List.filter is_send tr = [])
   ∨ (∃ record, last tr = Some (Ev (SendPayment record) (Err e)) ∧
                List.filter is_send tr = [Ev (SendPayment record) (Err e)])).
Proof.
  intros Hexec.
  apply pay_exec in Hexec
    as [(cached & now & _ & _ & _ & _ & [=]) | (pre & rest & -> & Hpre & Hexec)].
  unfold pay_fresh in Hexec.
  apply exec_bind in Hexec as (td & found & t2 & -> & Hd & Hexec).
  pose proof (discover_quiet _ _ _ _ Hd) as Hq.
  rewrite !existsb_app, !List.filter_app, (quiet_not_succeeded _ Hpre),
    (quiet_not_succeeded _ Hq), (quiet_no_send _ Hpre), (quiet_no_send _ Hq).
  destruct found as [[record|]|e']; simpl in Hexec.
  - destruct Hexec as ([proof|e'] & t3 & -> & Hexec); simpl in Hexec.
    + by destruct Hexec as (now & t4 & _ & _ & [=]).
    + destruct Hexec as [-> [= <- <-]]. split; [done|]. split; [done|].
      right. right. exists record. split; [|done].
      by rewrite app_assoc, last_snoc.
  - destruct Hexec as [-> [= <- <-]]. split; [done|]. split; [done|].
    right. left. done.
  - destruct Hexec as [-> [= <- <-]]. split; [done|]. split; [done|].
    left. apply discover_failure in Hd as ->. split; [|done].
    by rewrite app_nil_r, last_snoc.
Qed.

(** X15. After [clearCache] nothing is served from the cache:
    [getSession] answers [undefined] without reading the clock, a [pay]
    that succeeds has paid, and [fetch] starts with the request as the
    caller wrote it. *)
Theorem clearCache_forgets_sessions
    (config : DNS402ClientConfig F) (domain : string)
    (cache : gmap string DNS402Session) :
  (∀ (tr : trace F) found,
     exec (getSession (F:=F) domain (clearCache cache)) tr found →
     tr = [] ∧ found = None)
  ∧ (∀ (tr : trace F) cache' session,
       exec (pay config domain (clearCache cache)) tr (cache', Ok session) →
       ∃ record, List.filter is_send tr
                 = [Ev (SendPayment record) (Ok (proof session))])
  ∧ (∀ url init (tr : trace F) cache' out,
       exec (fetch config url init (clearCache cache)) tr (cache', out) →
       tr = [] ∨ ∃ first rest, tr = Ev (HttpFetch url init) first :: rest).
Proof.
  unfold clearCache. split; [|split].
  - intros tr found Hexec. unfold getSession in Hexec.
    rewrite lookup_empty in Hexec. by destruct Hexec as [-> <-].
  - intros tr cache' session Hexec.
    apply pay_exec in Hexec
      as [(cached & now & Hc & _) | (pre & rest & -> & Hpre & Hexec)];
      [by rewrite lookup_empty in Hc|].
    apply pay_fresh_exec in Hexec as (td & found & Hd & Hcases).
    destruct Hcases as [(_ & _ & _ & e & [=])
                       | [(record & e & _ & _ & _ & [=])
                         | (record & proof & now & _ & -> & _ & [= ->])]].
    exists record.
    by rewrite !List.filter_app, (quiet_no_send _ Hpre),
      (quiet_no_send _ (discover_quiet _ _ _ _ Hd)).
  - intros url init tr cache' out Hexec.
    apply fetch_exec_clock in Hexec
      as [(_ & -> & _) | [(domain' & cached & now & _ & Hc & _)
                         | (domain' & pre & rest & _ & -> & Hpre & Hexec)]];
      [by left|by rewrite lookup_empty in Hc|].
    right. destruct Hpre as [[-> _] | (cached & now & _ & Hc & _)];
      [|by rewrite lookup_empty in Hc].
    apply fetch_unpaid_exec in Hexec as (first & rest' & -> & _). eauto.
Qed.

End ClientExtras.

(** ** The gate: who is let through *)

Section GateExtras.
Context {F : Type} `{JSNumber F} `{Platform}.

Lemma truthy_Some (o : option string) :
  truthy o = true → ∃ x, o = Some x ∧ nonempty x = true.
Proof. destruct o as [x|]; [|done]. simpl. eauto. Qed.

(** The executions of the handler, by outcome. *)
Lemma dns402_outcomes (config : DNS402ServerConfig F) (req : Request)
    (sessions sessions' : gmap string PaymentSession) tr out :
  let proof := req_headers req !! toLowerCase Headers.PROOF in
  let payer := req_headers req !! toLowerCase Headers.PAYER in
  exec (dns402 config req sessions) tr (sessions', out) →
  (* a live session *)
  (∃ p now s,
     payer = Some p ∧ nonempty p = true ∧ tr = [Ev DateNow now] ∧
     sessions !! p = Some s ∧ now < ps_expiresAt s ∧
     sessions' = sessions ∧ out = Ok Forwarded)
  (* the challenge *)
  ∨ ((truthy proof = false ∨ truthy payer = false) ∧
     sessions' = sessions ∧ out = Ok (send402 config) ∧
     existsb (verified config) tr = false)
  (* a proof that does not verify *)
  ∨ (truthy proof = true ∧ truthy payer = true ∧
     sessions' = sessions ∧ out = Ok reply403 ∧
     existsb (verified config) tr = false)
  (* a proof that verifies *)
  ∨ (∃ p sig pre answer now post,
       payer = Some p ∧ nonempty p = true ∧
       proof = Some sig ∧ nonempty sig = true ∧
       tr = (pre ++ Ev (GetTransaction sig) answer :: Ev DateNow now :: post)%list ∧
       verified config (Ev (GetTransaction sig) answer) = true ∧
       existsb (verified config) tr = true ∧
       sessions' = <[p := granted config sig p now]> sessions ∧
       (out = Ok Forwarded ∨ ∃ e, out = Err e)).
Proof.
  intros proof payer Hexec.
  apply dns402_exec in Hexec
    as [(now & session & -> & Hp & Hlive & -> & ->)
       | (pre & rest & -> & Hpre & Hexec)].
  { left. fold payer in Hp, Hlive. apply truthy_Some in Hp as (p & Hp & Hne).
    rewrite Hp in Hlive. simpl in Hlive. unfold live_session in Hlive.
    destruct (sessions !! p) as [s|] eqn:Es; [|done].
    destruct (Z.gtb_spec (ps_expiresAt s) now); [|done]. injection Hlive as <-.
    exists p, now, s. done. }
  assert (existsb (verified config) pre = false) as Hquiet.
  { by destruct Hpre as [-> | (now & -> & _)]. }
  fold proof payer in Hexec. unfold challenge_or_verify in Hexec.
  destruct (truthy proof) eqn:Eproof; [destruct (truthy payer) eqn:Epayer|];
    cbn [negb orb] in Hexec.
  - apply verify_and_grant_exec in Hexec as (answer & Hcases).
    apply truthy_Some in Eproof as (sig & Hsig & Hsne).
    apply truthy_Some in Epayer as (p & Hp & Hpne).
    rewrite Hsig, Hp in Hcases. cbn [default from_option] in Hcases. unfold id in Hcases.
    destruct Hcases as [(Hbad & -> & -> & ->) | (Hgood & now & -> & Hrest)].
    + right. right. left. repeat split; try done.
      rewrite existsb_app, Hquiet. cbn [existsb orb]. by rewrite Hbad.
    + right. right. right. exists p, sig, pre, answer, now.
      destruct Hrest as [(_ & -> & ->) | (_ & stamp & finished & -> & ->)].
      * exists []. repeat split; try done; [|by left].
        rewrite existsb_app. cbn [existsb]. by rewrite Hgood, orb_true_r.
      * eexists. repeat split; try done.
        -- rewrite existsb_app. cbn [existsb]. by rewrite Hgood, orb_true_r.
        -- destruct finished; eauto.
  - destruct Hexec as [-> [= <- <-]]. right. left.
    rewrite app_nil_r. repeat split; try done. by right.
  - destruct Hexec as [-> [= <- <-]]. right. left.
    rewrite app_nil_r. repeat split; try done. by left.
Qed.

(** X16. A request whose payer header names a live session is forwarded
    at once: one reading of the clock, no ledger lookup, the table
    unchanged - whatever its proof header says, or without one. *)
Theorem gate_admits_live_session
    (config : DNS402ServerConfig F) (req : Request)
    (sessions sessions' : gmap string PaymentSession)
    (p : string) (s : PaymentSession)
    (tr : trace F) (out : result (reaction F)) :
  req_headers req !! "x-dns402-payer" = Some p → nonempty p = true →
  sessions !! p = Some s →
  exec (dns402 config req sessions) tr (sessions', out) →
  ∃ now rest,
    tr = Ev DateNow now :: rest ∧
    (now < ps_expiresAt s →
       rest = [] ∧ out = Ok Forwarded ∧ sessions' = sessions).
Proof.
  intros Hp Hne Hs Hexec. unfold dns402 in Hexec.
  change (toLowerCase Headers.PAYER) with "x-dns402-payer" in Hexec.
  rewrite Hp in Hexec. cbn [truthy default from_option] in Hexec.
  unfold id in Hexec. rewrite Hne, Hs in Hexec. simpl in Hexec.
  destruct Hexec as (now & rest & -> & Hrest). exists now, rest.
  split; [done|]. intros Hlive.
  destruct (Z.gtb_spec (ps_expiresAt s) now); [|lia].
  by destruct Hrest as [-> [= <- <-]].
Qed.

(** X17. Two requests in a row.  When a request is forwarded the table
    holds a session for its payer - the one that was live, or the one
    granted for the proof, expiring [sessionTTL] seconds (3600 by
    default) after the reading of the clock that followed the
    verification - and the next request of that payer, handled before
    the session expires, is forwarded without a ledger lookup. *)
Theorem forwarded_request_opens_session
    (config : DNS402ServerConfig F) (req1 req2 : Request)
    (sessions sessions1 sessions2 : gmap string PaymentSession)
    (tr1 tr2 : trace F) (out2 : result (reaction F)) :
  req_headers req2 !! "x-dns402-payer" = req_headers req1 !! "x-dns402-payer" →
  exec (dns402 config req1 sessions) tr1 (sessions1, Ok Forwarded) →
  exec (dns402 config req2 sessions1) tr2 (sessions2, out2) →
  ∃ p s now2 rest,
    req_headers req1 !! "x-dns402-payer" = Some p ∧
    sessions1 !! p = Some s ∧
    (sessions !! p = Some s
     ∨ ∃ sig now1,
         req_headers req1 !! "x-dns402-proof" = Some sig ∧
         In (Ev DateNow now1) tr1 ∧
         s = {| ps_payer := p; ps_signature := sig;
                ps_expiresAt :=
                  now1 + JsInt.or_default (srv_sessionTTL config) 3600 * 1000 |}) ∧
    tr2 = Ev DateNow now2 :: rest ∧
    (now2 < ps_expiresAt s →
       rest = [] ∧ out2 = Ok Forwarded ∧ sessions2 = sessions1).
Proof.
  intros Hsame Hexec1 Hexec2.
  assert (∃ p s, req_headers req1 !! "x-dns402-payer" = Some p ∧ nonempty p = true ∧
                 sessions1 !! p = Some s ∧
                 (sessions !! p = Some s
                  ∨ ∃ sig now1,
                      req_headers req1 !! "x-dns402-proof" = Some sig ∧
                      In (Ev DateNow now1) tr1 ∧
                      s = granted config sig p now1))
    as (p & s & Hp & Hne & Hs & Horigin).
  { apply dns402_outcomes in Hexec1
      as [(p & now & s & Hp & Hne & _ & Hs & _ & -> & _)
         | [(_ & _ & [=] & _)
           | [(_ & _ & _ & [=] & _)
             | (p & sig & pre & answer & now & post & Hp & Hne & Hsig & _ & ->
                & _ & _ & -> & _)]]].
    - exists p, s. eauto.
    - exists p, (granted config sig p now).
      split; [done|]. split; [done|]. split; [apply lookup_insert_eq|].
      right. exists sig, now. split; [done|]. split; [|done].
      apply in_or_app. right. right. by left. }
  rewrite Hp in Hsame.
  unfold dns402 in Hexec2.
  change (toLowerCase Headers.PAYER) with "x-dns402-payer" in Hexec2.
  rewrite Hsame in Hexec2. cbn [truthy default from_option] in Hexec2.
  unfold id in Hexec2. rewrite Hne, Hs in Hexec2. simpl in Hexec2.
  destruct Hexec2 as (now2 & rest & -> & Hrest).
  exists p, s, now2, rest. split; [done|]. split; [done|]. split; [done|].
  split; [done|]. intros Hlive.
  destruct (Z.gtb_spec (ps_expiresAt s) now2); [|lia].
  by destruct Hrest as [-> [= <- <-]].
Qed.

(** X18. The gate forwards a request only for a live session of its
    payer or for a proof that verified, and it changes its table only
    to store the session of a proof that verified. *)
Theorem gate_forwards_only_paid
    (config : DNS402ServerConfig F) (req : Request)
    (sessions sessions' : gmap string PaymentSession)
    (tr : trace F) (out : result (reaction F)) :
  exec (dns402 config req sessions) tr (sessions', out) →
  (out = Ok Forwarded →
     ∃ p, req_headers req !! "x-dns402-payer" = Some p ∧ nonempty p = true ∧
          ((∃ now s, tr = [Ev DateNow now] ∧ sessions !! p = Some s ∧
                     now < ps_expiresAt s)
           ∨ existsb (verified config) tr = true))
  ∧ (sessions' = sessions
     ∨ ∃ p sig now,
         req_headers req !! "x-dns402-payer" = Some p ∧
         req_headers req !! "x-dns402-proof" = Some sig ∧
         existsb (verified config) tr = true ∧
         sessions' = <[p := granted config sig p now]> sessions).
Proof.
  intros Hexec.
  apply dns402_outcomes in Hexec
    as [(p & now & s & Hp & Hne & -> & Hs & Hlive & -> & ->)
       | [(_ & -> & -> & _)
         | [(_ & _ & -> & -> & _)
           | (p & sig & pre & answer & now & post & Hp & Hne & Hsig & _ & ->
              & _ & Hv & -> & _)]]].
  - split; [|by left]. intros _. exists p. split; [done|]. split; [done|].
    left. eauto.
  - split; [done|by left].
  - split; [done|by left].
  - split.
    + intros _. exists p. split; [done|]. split; [done|]. by right.
    + right. exists p, sig, now. done.
Qed.

(** X19. The payer header is taken at its word.  A request with any
    non-empty payer that has no session, presenting a signature whose
    transaction verifies, is forwarded and opens a session for that
    payer: the payer is not compared with the transaction, and the
    table is not searched for the signature. *)
Theorem gate_grants_to_any_payer
    (config : DNS402ServerConfig F) (req : Request)
    (sessions : gmap string PaymentSession) (p sig : string)
    (answer : result (option (TransactionResponse F))) (now : Z) :
  req_headers req !! "x-dns402-payer" = Some p → nonempty p = true →
  req_headers req !! "x-dns402-proof" = Some sig → nonempty sig = true →
  sessions !! p = None →
  verified config (Ev (GetTransaction sig) answer) = true →
  srv_onPayment config = false →
  exec (dns402 config req sessions)
       [Ev (GetTransaction sig) answer; Ev DateNow now]
       (<[p := granted config sig p now]> sessions, Ok Forwarded).
Proof.
  intros Hp Hpne Hsig Hsne Hnone Hgood Hoff. unfold dns402.
  change (toLowerCase Headers.PAYER) with "x-dns402-payer".
  change (toLowerCase Headers.PROOF) with "x-dns402-proof".
  rewrite Hp, Hsig. cbn [truthy default from_option]. unfold id.
  rewrite Hpne, Hnone. unfold challenge_or_verify.
  cbn [truthy default from_option]. unfold id. rewrite Hpne, Hsne.
  cbn [negb orb]. unfold verify_and_grant.
  apply exec_bind.
  exists [Ev (GetTransaction sig) answer], (Ok true), [Ev DateNow now].
  split; [done|]. split.
  - apply verifyPayment_exec. exists answer. split; [done|].
    simpl in Hgood. by rewrite Hgood.
  - rewrite Hoff. simpl. exists now, []. done.
Qed.

(** X20. A gate whose wallet is not a valid public key admits nobody.
    Starting from the empty table no request is forwarded and the table
    stays empty: a request with both headers is answered 403 after one
    ledger lookup, whatever the ledger answers, and any other request
    is turned away without a lookup. *)
Theorem gate_with_malformed_wallet_admits_nobody
    (config : DNS402ServerConfig F) (req : Request)
    (sessions' : gmap string PaymentSession)
    (tr : trace F) (out : result (reaction F)) :
  is_public_key (srv_wallet config) = false →
  exec (dns402 config req ∅) tr (sessions', out) →
  let proof := req_headers req !! toLowerCase Headers.PROOF in
  let payer := req_headers req !! toLowerCase Headers.PAYER in
  sessions' = ∅ ∧ out ≠ Ok Forwarded ∧
  (truthy proof = true → truthy payer = true →
     ∃ answer, tr = [Ev (GetTransaction (default "" proof)) answer] ∧
               out = Ok reply403) ∧
  (truthy proof = false ∨ truthy payer = false → tr = []).
Proof.
  intros Hbad Hexec proof payer.
  assert (∀ sig answer, verified config (Ev (GetTransaction sig) answer) = false)
    as Hnever.
  { intros sig answer. simpl.
    destruct (verdict answer (srv_wallet config) (srv_price config)
                (srv_currency config)) eqn:E; [|done].
    apply verdict_true in E as (tx & m & _ & _ & _ & Hkey & _). congruence. }
  assert (exec (challenge_or_verify config proof payer ∅) tr (sessions', out))
    as Hrest.
  { unfold dns402 in Hexec. fold proof payer in Hexec.
    rewrite lookup_empty in Hexec. by destruct (truthy payer). }
  clear Hexec. unfold challenge_or_verify in Hrest.
  destruct (truthy proof) eqn:Eproof, (truthy payer) eqn:Epayer;
    cbn [negb orb] in Hrest.
  - apply verify_and_grant_exec in Hrest
      as (answer & [(_ & -> & -> & ->)|(Hgood & _)]);
      [|by rewrite Hnever in Hgood].
    split; [done|]. split; [done|]. split; [by exists answer|].
    by intros [|].
  - destruct Hrest as [-> [= <- <-]]. split; [done|]. split; [done|]. done.
  - destruct Hrest as [-> [= <- <-]]. split; [done|]. split; [done|]. done.
  - destruct Hrest as [-> [= <- <-]]. split; [done|]. split; [done|]. done.
Qed.


End GateExtras.

(** ** Verification: what is not looked at *)

Section VerifyExtras.
Context {F : Type} `{JSNumber F} `{Platform}.

Lemma find_pre_with_mint (f : TokenBalance F → string) pres post :
  find_pre (List.map (with_mint f) pres) (with_mint f post) ≫= uiAmount
  = find_pre pres post ≫= uiAmount.
Proof.
  unfold find_pre. induction pres as [|p pres IH]; [done|]. simpl.
  destruct (accountIndex p =? accountIndex post); [done|]. exact IH.
Qed.

Lemma scan_tokens_with_mint (f : TokenBalance F → string) pres posts
    recipient (amount : F) :
  scan_tokens (List.map (with_mint f) pres) recipient amount
              (List.map (with_mint f) posts)
  = scan_tokens pres recipient amount posts.
Proof.
  induction posts as [|post posts IH]; [done|]. simpl.
  unfold token_received. rewrite find_pre_with_mint. simpl. by rewrite IH.
Qed.

Lemma verdict_relabel (f : TokenBalance F → string) tx recipient (amount : F) c1 c2 :
  c1 ≠ "SOL" → c2 ≠ "SOL" →
  verdict (Ok (Some (relabel f tx))) recipient amount c2
  = verdict (Ok (Some tx)) recipient amount c1.
Proof.
  intros Hc1 Hc2. unfold verdict, check_transaction, relabel. simpl.
  destruct (meta tx) as [m|]; [|done]. simpl.
  destruct (err m); [done|]. destruct (new_PublicKey recipient); [|done].
  rewrite !bool_decide_eq_false_2 by done.
  destruct (preTokenBalances m) as [pres|], (postTokenBalances m) as [posts|];
    simpl; try done.
  - by rewrite scan_tokens_with_mint.
  - by rewrite <- (scan_tokens_with_mint f [] posts).
Qed.

(** X21. For every currency other than SOL the verification is the
    same and does not look at the mint of the token balances: a
    transaction is accepted or rejected as the one in which every
    token balance has another mint would be, under any non-SOL currency
    name. *)
Theorem token_verification_ignores_mint
    (f : TokenBalance F → string) (sig recipient : string) (amount : F)
    (c1 c2 : string) (tx : TransactionResponse F) (out : result bool) :
  c1 ≠ "SOL" → c2 ≠ "SOL" →
  exec (verifyPayment sig recipient amount c1)
       [Ev (GetTransaction sig) (Ok (Some tx))] out
  ↔ exec (verifyPayment sig recipient amount c2)
         [Ev (GetTransaction sig) (Ok (Some (relabel f tx)))] out.
Proof.
  intros Hc1 Hc2. rewrite !verifyPayment_exec. split.
  - intros (answer & Htr & ->). apply (f_equal (omap ledger_answer)) in Htr.
    injection Htr as <-. eexists. split; [done|].
    by rewrite (verdict_relabel f tx recipient amount c1 c2).
  - intros (answer & Htr & ->). apply (f_equal (omap ledger_answer)) in Htr.
    injection Htr as <-. eexists. split; [done|].
    by rewrite (verdict_relabel f tx recipient amount c1 c2).
Qed.

(** X22. The timer.  A sweep keeps exactly the sessions that have not
    expired at its reading of the clock; two sweeps are one sweep at the
    later reading; and a sweep does not change what a request handled at
    or after that reading finds. *)
Theorem sweeps_compose (t1 t2 : Z) (sessions : gmap string PaymentSession) :
  (∀ key s, sweep_at t1 sessions !! key = Some s
            ↔ sessions !! key = Some s ∧ t1 ≤ ps_expiresAt s)
  ∧ sweep_at t2 (sweep_at t1 sessions) = sweep_at (Z.max t1 t2) sessions
  ∧ (∀ payer now, t1 ≤ now →
       live_session (sweep_at t1 sessions) payer now
       = live_session sessions payer now).
Proof.
  split; [|split].
  - intros key s. rewrite sweep_at_lookup.
    destruct (sessions !! key) as [x|]; [|by split; [|intros [? _]]].
    destruct (decide (ps_expiresAt x < t1)).
    + split; [done|]. intros [[= ->] ?]. lia.
    + split; [intros [= ->]; split; [done|lia]|by intros [? _]].
  - apply map_eq. intros key. rewrite !sweep_at_lookup.
    destruct (sessions !! key) as [x|]; [|done].
    destruct (decide (ps_expiresAt x < t1)), (decide (ps_expiresAt x < Z.max t1 t2));
      try done; try lia; destruct (decide (ps_expiresAt x < t2)); try done; lia.
  - intros payer now Hnow. unfold live_session. rewrite sweep_at_lookup.
    destruct (sessions !! payer) as [x|]; [|done].
    destruct (decide (ps_expiresAt x < t1)); [|done].
    destruct (Z.gtb_spec (ps_expiresAt x) now); [lia|done].
Qed.

End VerifyExtras.

(** ** Sending a payment *)

Section SendFacts.
Context {F I : Type} `{JSNumber F} `{JSMath F} `{TokenConstants F}
        `{InstructionBuilders F I} `{Platform}.

(** The executions of [submit]. *)
Lemma submit_exec (payer : string) (transaction : list I)
    (tr : list (event (@chainreply I))) out :
  exec (submit payer transaction) tr out →
  (∃ e, tr = [Ev (SendAndConfirmTransaction transaction [payer]) (Err e)] ∧
        out = Err e)
  ∨ (∃ sig now,
       tr = [Ev (SendAndConfirmTransaction transaction [payer]) (Ok sig);
             Ev ClockNow now] ∧
       out = Ok {| signature := sig; payer := payer; timestamp := now |}).
Proof.
  unfold submit, bind_ok, ret. simpl. intros ([sig|e] & tr' & -> & Hk); simpl in Hk.
  - destruct Hk as (now & t2 & -> & -> & <-). right. eauto.
  - destruct Hk as [-> <-]. left. eauto.
Qed.

(** The executions of [sendSPLTokenPayment]. *)
Lemma sendSPLTokenPayment_exec (payer recipient : string) (amount : F)
    (mint : string) (decimals : F) (tr : list (event (@chainreply I))) out :
  exec (sendSPLTokenPayment payer recipient amount mint decimals) tr out →
  (* a key that is not valid *)
  (tr = [] ∧ (is_public_key mint = false ∨ is_public_key recipient = false) ∧
   ∃ e, out = Err e)
  (* no token address *)
  ∨ (is_public_key mint = true ∧ is_public_key recipient = true ∧
     ∃ e, out = Err e ∧
          (tr = [Ev (GetAssociatedTokenAddress mint payer) (Err e)]
           ∨ ∃ payerATA,
               tr = [Ev (GetAssociatedTokenAddress mint payer) (Ok payerATA);
                     Ev (GetAssociatedTokenAddress mint recipient) (Err e)]))
  (* both addresses, then the account of the recipient is looked up *)
  ∨ (is_public_key mint = true ∧ is_public_key recipient = true ∧
     ∃ payerATA recipientATA found rest,
       tr = ([Ev (GetAssociatedTokenAddress mint payer) (Ok payerATA);
              Ev (GetAssociatedTokenAddress mint recipient) (Ok recipientATA);
              Ev (GetAccount recipientATA) found] ++ rest)%list ∧
       ((* an instruction cannot be built *)
        (rest = [] ∧ ∃ e, out = Err e)
        ∨ ∃ transfer transaction,
            create_transfer_instruction payerATA recipientATA payer
              (math_floor (num_mul amount (math_pow (num_lit 10 0) decimals)))
            = Ok transfer ∧
            match found with
            | Ok _ => transaction = [transfer]
            | Err _ =>
                ∃ create,
                  create_account_instruction payer recipientATA recipient mint
                  = Ok create ∧
                  transaction = [create; transfer]
            end ∧
            exec (submit payer transaction) rest out)).
Proof.
  unfold sendSPLTokenPayment, new_PublicKey, lift, try_catch, bind_ok, ret.
  destruct (is_public_key mint) eqn:Em; simpl;
    [|intros [-> <-]; left; eauto].
  destruct (is_public_key recipient) eqn:Er; simpl;
    [|intros [-> <-]; left; eauto].
  intros ([payerATA|e] & t1 & -> & Hk); simpl in Hk;
    [|destruct Hk as [-> <-]; right; left; eauto 6].
  destruct Hk as ([recipientATA|e] & t2 & -> & Hk); simpl in Hk;
    [|destruct Hk as [-> <-]; right; left; eauto 8].
  destruct Hk as (found & rest & -> & Hk).
  right. right. split; [done|]. split; [done|].
  exists payerATA, recipientATA, found, rest. split; [done|].
  destruct found as [[]|e]; simpl in Hk.
  - destruct (create_transfer_instruction payerATA recipientATA payer _)
      as [transfer|e] eqn:Et; simpl in Hk.
    + right. exists transfer, [transfer]. done.
    + destruct Hk as [-> <-]. left. eauto.
  - destruct (create_account_instruction payer recipientATA recipient mint)
      as [create|e'] eqn:Ec; simpl in Hk.
    + destruct (create_transfer_instruction payerATA recipientATA payer _)
        as [transfer|e''] eqn:Et; simpl in Hk.
      * right. exists transfer, [create; transfer]. split; [done|].
        split; [by exists create|done].
      * destruct Hk as [-> <-]. left. eauto.
    + destruct Hk as [-> <-]. left. eauto.
Qed.

Lemma submit_once (key : string) (transaction : list I)
    (tr : list (event (@chainreply I))) out :
  exec (submit key transaction) tr out → pays_at_most_once key tr out.
Proof.
  intros [(e & -> & ->) | (sig & now & -> & ->)]%submit_exec.
  - split; [simpl; lia|]. split; [done|]. done.
  - split; [simpl; lia|]. split; [|done]. intros proof [= <-].
    exists [], transaction. done.
Qed.

Lemma once_after (key : string) (pre tr : list (event (@chainreply I))) out :
  List.filter is_submit pre = [] → omap confirmed pre = [] →
  List.filter is_clock pre = [] →
  pays_at_most_once key tr out → pays_at_most_once key (pre ++ tr) out.
Proof.
  intros Hs Hc Hk (Hone & Hok & Herr). split; [|split].
  - by rewrite List.filter_app, Hs.
  - intros proof Hout. destruct (Hok proof Hout) as (pre' & tx & -> & Hpre' & Hp).
    exists (pre ++ pre')%list, tx. rewrite app_assoc. split; [done|].
    split; [|done]. by rewrite List.filter_app, Hs, Hpre'.
  - intros e Hout. destruct (Herr e Hout) as [Hc' Hk'].
    by rewrite omap_app, List.filter_app, Hc, Hk, Hc', Hk'.
Qed.

Lemma once_failed (key : string) (tr : list (event (@chainreply I))) e :
  List.filter is_submit tr = [] → omap confirmed tr = [] →
  List.filter is_clock tr = [] →
  pays_at_most_once key tr (Err e).
Proof. intros Hs Hc Hk. split; [rewrite Hs; simpl; lia|]. split; [done|]. by intros. Qed.

Lemma sendSPLTokenPayment_once (key recipient : string) (amount : F)
    (mint : string) (decimals : F) (tr : list (event (@chainreply I))) out :
  exec (sendSPLTokenPayment key recipient amount mint decimals) tr out →
  pays_at_most_once key tr out.
Proof.
  intros Hexec. apply sendSPLTokenPayment_exec in Hexec
    as [(-> & _ & e & ->)
       | [(_ & _ & e & -> & [-> | (payerATA & ->)])
         | (_ & _ & payerATA & recipientATA & found & rest & -> & Hrest)]];
    try by apply once_failed.
  apply once_after; try done.
  destruct Hrest as [(-> & e & ->) | (transfer & tx & _ & _ & Hsub)];
    [by apply once_failed|by apply submit_once in Hsub].
Qed.

Lemma sendSOLPayment_once (key recipient : string) (amount : F)
    (tr : list (event (@chainreply I))) out :
  exec (sendSOLPayment key recipient amount) tr out →
  pays_at_most_once key tr out.
Proof.
  unfold sendSOLPayment, new_PublicKey, lift, bind_ok.
  destruct (is_public_key recipient); simpl;
    [|intros [-> <-]; by apply once_failed].
  destruct (system_transfer key recipient _) as [transfer|e]; simpl;
    [apply submit_once|intros [-> <-]; by apply once_failed].
Qed.

(** X23. A token payment submits a transaction only after it has
    obtained the token addresses of the payer and of the recipient and
    looked up the recipient's token account.  The transaction is signed
    by the payer alone and ends with one transfer, from the payer's
    token address to the recipient's, of [floor(amount * 10^decimals)];
    the instruction that creates the recipient's token account comes
    before it exactly when the lookup of that account failed. *)
Theorem token_payment_transaction
    (key recipient : string) (amount : F) (mint : string) (decimals : F)
    (tr : list (event (@chainreply I))) (out : result PaymentProof)
    (transaction : list I) (signers : list string) :
  exec (sendSPLTokenPayment key recipient amount mint decimals) tr out →
  In (Some (transaction, signers)) (List.map submitted tr) →
  signers = [key] ∧
  ∃ payerATA recipientATA found transfer rest,
    tr = ([Ev (GetAssociatedTokenAddress mint key) (Ok payerATA);
           Ev (GetAssociatedTokenAddress mint recipient) (Ok recipientATA);
           Ev (GetAccount recipientATA) found] ++ rest)%list ∧
    create_transfer_instruction payerATA recipientATA key
      (math_floor (num_mul amount (math_pow (num_lit 10 0) decimals)))
    = Ok transfer ∧
    match found with
    | Ok _ => transaction = [transfer]
    | Err _ =>
        ∃ create,
          create_account_instruction key recipientATA recipient mint = Ok create ∧
          transaction = [create; transfer]
    end.
Proof.
  intros Hexec Hin. apply sendSPLTokenPayment_exec in Hexec
    as [(-> & _)
       | [(_ & _ & e & _ & [-> | (payerATA & ->)])
         | (_ & _ & payerATA & recipientATA & found & rest & -> & Hrest)]];
    try (simpl in Hin; intuition discriminate).
  destruct Hrest as [(-> & _) | (transfer & tx & Ht & Hshape & Hsub)];
    [simpl in Hin; intuition discriminate|].
  assert (transaction = tx ∧ signers = [key]) as [-> ->].
  { apply submit_exec in Hsub as [(e & -> & _) | (sig & now & -> & _)];
      simpl in Hin; intuition congruence. }
  split; [done|]. exists payerATA, recipientATA, found, transfer, rest. done.
Qed.

(** X24. [sendPayment] fails before any call of the ledger library when
    the wallet of the record is not a valid public key, and when the
    currency is none of SOL, USDC and DNS402 and the record has no
    mint: the error is then [Unsupported currency]. *)
Theorem sendPayment_rejects_early
    (key : string) (record : DNS402Record F)
    (tr : list (event (@chainreply I))) (out : result PaymentProof) :
  exec (sendPayment key record) tr out →
  (is_public_key (wallet record) = false → tr = [] ∧ ∃ e, out = Err e)
  ∧ (currency record ∉ ["SOL"; "USDC"; "DNS402"] →
     truthy (mint record) = false →
     tr = [] ∧ out = Err ("Unsupported currency: " ++ currency record)).
Proof.
  intros Hexec. split.
  - intros Hbad.
    assert (∀ amount mint decimals tr out,
              exec (sendSPLTokenPayment key (wallet record) amount mint decimals)
                   tr out →
              tr = [] ∧ ∃ e, out = Err e) as Hspl.
    { intros amount mint decimals tr0 out0 Hspl.
      apply sendSPLTokenPayment_exec in Hspl
        as [(-> & _ & He) | [(_ & Hok & _) | (_ & Hok & _)]];
        [done|congruence|congruence]. }
    unfold sendPayment in Hexec.
    repeat match type of Hexec with
           | exec (if ?b then _ else _) _ _ => destruct b
           end;
      try (by eapply Hspl).
    + unfold sendSOLPayment, new_PublicKey, lift, bind_ok in Hexec.
      rewrite Hbad in Hexec. simpl in Hexec. destruct Hexec as [-> <-]. eauto.
    + destruct Hexec as [-> <-]. eauto.
  - intros Hcur Hmint. unfold sendPayment in Hexec. rewrite Hmint in Hexec.
    rewrite !bool_decide_eq_false_2 in Hexec by set_solver.
    by destruct Hexec as [-> <-].
Qed.

(** X25. [sendPayment] submits at most one transaction and never
    retries.  It returns a proof exactly when that transaction was
    confirmed: the proof carries the signature that the confirmation
    returned, the key of the payer, and the clock read after the
    confirmation.  When it throws, no transaction was confirmed and the
    clock was not read. *)
Theorem sendPayment_pays_at_most_once
    (key : string) (record : DNS402Record F)
    (tr : list (event (@chainreply I))) (out : result PaymentProof) :
  exec (sendPayment key record) tr out →
  (length (List.filter is_submit tr) ≤ 1)%nat ∧
  (∀ proof, out = Ok proof →
     ∃ pre transaction,
       tr = (pre ++ [Ev (SendAndConfirmTransaction transaction [key])
                        (Ok (signature proof));
                     Ev ClockNow (timestamp proof)])%list ∧
       List.filter is_submit pre = [] ∧ payer proof = key) ∧
  (∀ e, out = Err e → omap confirmed tr = [] ∧ List.filter is_clock tr = []).
Proof.
  intros Hexec. change (pays_at_most_once key tr out).
  unfold sendPayment, sendDNS402Payment in Hexec.
  repeat match type of Hexec with
         | exec (if ?b then _ else _) _ _ => destruct b
         end;
    try (by eapply sendSPLTokenPayment_once);
    try (by eapply sendSOLPayment_once).
  destruct Hexec as [-> <-]. by apply once_failed.
Qed.

(** X28. A SOL payment makes no call before it submits, and what it
    submits is one instruction signed by the payer: the transfer of
    [floor(amount * LAMPORTS_PER_SOL)] lamports from the payer to the
    recipient. *)
Theorem sol_payment_transaction
    (key recipient : string) (amount : F)
    (tr : list (event (@chainreply I))) (out : result PaymentProof)
    (transaction : list I) (signers : list string) :
  exec (sendSOLPayment key recipient amount) tr out →
  In (Some (transaction, signers)) (List.map submitted tr) →
  is_public_key recipient = true ∧ signers = [key] ∧
  head (List.map submitted tr) = Some (Some (transaction, signers)) ∧
  ∃ transfer,
    system_transfer key recipient (math_floor (num_mul amount LAMPORTS_PER_SOL))
    = Ok transfer ∧
    transaction = [transfer].
Proof.
  unfold sendSOLPayment, new_PublicKey, lift, bind_ok.
  destruct (is_public_key recipient); simpl;
    [|intros [-> _] Hin; simpl in Hin; tauto].
  destruct (system_transfer key recipient _) as [transfer|e] eqn:Et; simpl;
    [|intros [-> _] Hin; simpl in Hin; tauto].
  intros Hsub Hin.
  apply submit_exec in Hsub as [(e & -> & _) | (sig & now & -> & _)];
    simpl in Hin;
    (assert (transaction = [transfer] ∧ signers = [key]) as [-> ->]
       by intuition congruence);
    split; try done; split; try done; split; try done; by exists transfer.
Qed.

End SendFacts.


(** ** The code on concrete inputs *)

Module Scenarios.
Import Demo.

(** The second end-to-end scenario of the specification. *)
Example gate_challenge :
  run (offline 0) (dns402 gate (request []) ∅)
  = ([], (∅, Ok (Replied 402
                   [ ("DNS402-Price", "0.01"); ("DNS402-Currency", "USDC");
                     ("DNS402-Network", "solana"); ("DNS402-Wallet", "W1");
                     ("DNS402-Session-TTL", "60") ]
                   [ ("error", JString "Payment Required");
                     ("price", JNumber price_1_cent);
                     ("currency", JString "USDC");
                     ("network", JString "solana");
                     ("wallet", JString "W1");
                     ("sessionTTL", JInteger 60) ]))).
Proof. vm_compute. reflexivity. Qed.

(** The first end-to-end scenario of the specification. *)
Example decode_scenario : parseRecord cheap_txt = Some cheap.
Proof. vm_compute. reflexivity. Qed.

(** C1, as stated, fails: a request that carries a proof header but no
    payer header is answered with the 402 challenge, and the ledger is
    never asked to verify the proof. *)
Lemma gate_proof_without_payer :
  truthy (req_headers proof_only !! toLowerCase Headers.PROOF) = true ∧
  run (ledger (Some (usdc_transfer merchant price_1_cent)) 1000 false)
      (dns402 (shop false) proof_only ∅)
  = ([], (∅, Ok (send402 (shop false)))).
Proof. split; vm_compute; reflexivity. Qed.

Lemma gate_challenges_or_verifies_witness :
  ∃ pre (answer : reply (GetTransaction "sig1")) post,
    ([Ev (GetTransaction "sig1") (Ok None)] : trace dnum)
    = (pre ++ Ev (GetTransaction "sig1") answer :: post)%list ∧
    (verified (shop false) (Ev (GetTransaction "sig1") answer) = false →
     Ok (reply403 (F:=dnum)) = Ok reply403 ∧ post = []).
Proof.
  assert (exec (dns402 (shop false) both_headers ∅)
               [Ev (GetTransaction "sig1") (Ok None)] (∅, Ok reply403)) as Hexec.
  { apply (run_exec (ledger None 1000 false)). vm_compute. reflexivity. }
  destruct (gate_challenges_or_verifies _ _ _ _ _ _ Hexec) as [_ Hverify].
  { intros now [=]. }
  destruct (Hverify eq_refl eq_refl) as (pre & answer & post & Htr & _ & Hfail).
  exists pre, answer, post. split; [exact Htr|].
  intros Hno. destruct (Hfail Hno) as (? & _ & _ & ? & _). by split.
Defined.

(** C2, as stated, fails in both directions. A payment of price [0]
    verifies on a transaction that leaves the balance of the recipient
    as it was: the recipient is not among the accounts whose balance
    grew. And a transaction that was found, succeeded and credits the
    recipient with the whole price does not verify when the text of
    the recipient is not a valid public key. *)
Lemma verifyPayment_accepts_unchanged_balance :
  run (ledger (Some (no_transfer merchant)) 1000 false)
      (verifyPayment "sig1" merchant (Dec.mk 0 0) "SOL")
  = ([Ev (GetTransaction "sig1") (Ok (Some (no_transfer merchant)))], Ok true)
  ∧ is_public_key "W1" = false
  ∧ run (ledger (Some (usdc_transfer "W1" price_1_cent)) 1000 false)
        (verifyPayment "sig1" "W1" price_1_cent "USDC")
    = ([Ev (GetTransaction "sig1") (Ok (Some (usdc_transfer "W1" price_1_cent)))],
       Ok false).
Proof. repeat split; vm_compute; reflexivity. Qed.

Lemma verifyPayment_witness :
  ∃ (answer : reply (GetTransaction "sig1")) b,
    ([Ev (GetTransaction "sig1")
         (Ok (Some (usdc_top_up merchant (Dec.mk 5 0) (Dec.mk 501 (-2)))))]
     : trace dnum)
    = [Ev (GetTransaction "sig1") answer] ∧
    Ok true = Ok b ∧
    ∃ tx m post pre after before,
      answer = Ok (Some tx) ∧ meta tx = Some m ∧
      post ∈ default [] (postTokenBalances m) ∧
      owner post = Some merchant ∧
      first_at_index (default [] (preTokenBalances m)) (accountIndex post) pre ∧
      counts_as (uiAmount post) after ∧
      counts_as (pre ≫= uiAmount) before ∧
      num_ge (num_sub after before) (num_mul price_1_cent (num_lit 99 (-2))) = true.
Proof.
  assert (exec (verifyPayment "sig1" merchant price_1_cent "USDC")
               [Ev (GetTransaction "sig1")
                   (Ok (Some (usdc_top_up merchant (Dec.mk 5 0) (Dec.mk 501 (-2)))))]
               (Ok true)) as Hexec.
  { apply (run_exec (ledger (Some (usdc_top_up merchant (Dec.mk 5 0) (Dec.mk 501 (-2))))
                            1000 false)).
    vm_compute. reflexivity. }
  destruct (verifyPayment_never_throws_and_rejects _ _ _ _ _ _ Hexec)
    as (answer & b & Htr & Hout & Hiff & _).
  exists answer, b. split; [exact Htr|]. split; [exact Hout|].
  assert (b = true) as Hb by (by injection Hout).
  destruct (proj1 Hiff Hb) as (tx & m & Ha & Hm & _ & _ & [[Hcur _]|[_ Hc]]);
    [discriminate Hcur|].
  destruct Hc as (post & pre & after & before & Hc).
  exists tx, m, post, pre, after, before. split; [exact Ha|]. split; [exact Hm|].
  exact Hc.
Defined.






Lemma pay_idempotent_per_live_session_witness :
  ∃ now rest,
    ([Ev DateNow 2000] : trace dnum) = Ev DateNow now :: rest ∧
    (now < expiresAt cached → rest = [] ∧ Ok cached = Ok cached).
Proof.
  assert (exec (pay (client None) "api.example.com" {["api.example.com" := cached]})
               [Ev DateNow 2000] ({["api.example.com" := cached]}, Ok cached)) as Hexec.
  { apply (run_exec (offline 2000)). vm_compute. reflexivity. }
  destruct (pay_idempotent_per_live_session (client None) "api.example.com"
              {["api.example.com" := cached]} cached _ _ _
              (lookup_singleton_eq _ _) Hexec)
    as (now & rest & Htr & Hlive).
  exists now, rest. split; [exact Htr|].
  intros Hnow. destruct (Hlive Hnow) as (? & ? & _). by split.
Defined.

(** C6, as stated, fails: the session of the payer expires at 61000,
    a sweep runs at a reading of 70000, and a request handled at a
    reading of 60500 - the clock was set back - finds no session: it
    is answered with the 402 challenge. *)
Lemma late_sweep_ends_session :
  let later := apply_ops [OpSweep 70000] (<[customer := session_P1]> ∅) in
  60500 < ps_expiresAt session_P1
  ∧ later !! customer = None
  ∧ run (ledger None 60500 false)
        (dns402 (shop false) (request [("x-dns402-payer", customer)]) later)
    = ([], (later, Ok (send402 (shop false)))).
Proof. repeat split; vm_compute; reflexivity. Qed.

Lemma session_monotonicity_witness :
  let later := apply_ops busy_ops (<[customer := session_P1]> ∅) in
  Forall (op_before customer 60500) busy_ops ∧
  exec (dns402 (shop false) both_headers later) [Ev DateNow 60500]
       (later, Ok Forwarded) ∧
  (∀ rest sessions' out,
     exec (dns402 (shop false) both_headers later) (Ev DateNow 61000 :: rest)
          (sessions', out) →
     exec (challenge_or_verify (shop false) (Some "sig1") (Some customer) later)
          rest (sessions', out)).
Proof.
  intros later.
  assert (Forall (op_before customer 60500) busy_ops) as Hbusy.
  { apply List.Forall_cons; [unfold op_before; lia|].
    apply List.Forall_cons; [unfold op_before; discriminate|].
    apply List.Forall_cons; [unfold op_before; lia|]. apply List.Forall_nil. }
  assert (Forall (op_keeps customer) busy_ops) as Hkeeps.
  { apply List.Forall_cons; [exact I|].
    apply List.Forall_cons; [unfold op_keeps; discriminate|].
    apply List.Forall_cons; [exact I|]. apply List.Forall_nil. }
  assert (req_headers both_headers !! toLowerCase Headers.PAYER = Some customer)
    as Hpayer by (vm_compute; reflexivity).
  assert (customer ≠ "") as Hkey by discriminate.
  pose proof (session_monotonicity (shop false) both_headers ∅ customer session_P1
                busy_ops ∅ "d" cached Hpayer Hkey Hkeeps)
    as (Hlive & Hdead & _).
  split; [exact Hbusy|]. split.
  - apply (Hlive 60500); [simpl; lia|exact Hbusy].
  - intros rest sessions' out Hexec.
    apply (Hdead 61000 rest sessions' out); [simpl; lia|exact Hexec].
Defined.

(** C7, as stated, fails: the proof verifies, the callback fails, and
    the request is not forwarded (the session is stored all the same). *)
Lemma onPayment_failure_blocks_forwarding :
  run (ledger (Some (usdc_transfer merchant price_1_cent)) 1000 true)
      (dns402 (shop true) both_headers ∅)
  = ([ Ev (GetTransaction "sig1") (Ok (Some (usdc_transfer merchant price_1_cent)));
       Ev DateNow 1000; Ev DateNow 1000;
       Ev (OnPayment proof1) (Err "callback") ],
     (<[customer := session_P1]> ∅, Err "callback")).
Proof. vm_compute. reflexivity. Qed.

Lemma onPayment_is_awaited_witness :
  ∃ pre now stamp finished,
    ([ Ev (GetTransaction "sig1") (Ok (Some (usdc_transfer merchant price_1_cent)));
       Ev DateNow 1000; Ev DateNow 1000;
       Ev (OnPayment proof1) (Ok tt) ] : trace dnum)
    = (pre ++ [Ev DateNow now; Ev DateNow stamp;
               Ev (OnPayment {| signature := "sig1"; payer := customer;
                                timestamp := stamp |}) finished])%list ∧
    (∀ u, finished = Ok u → Ok Forwarded = Ok (Forwarded (F:=dnum))).
Proof.
  assert (exec (dns402 (shop true) both_headers ∅)
            [ Ev (GetTransaction "sig1") (Ok (Some (usdc_transfer merchant price_1_cent)));
              Ev DateNow 1000; Ev DateNow 1000;
              Ev (OnPayment proof1) (Ok tt) ]
            (<[customer := session_P1]> ∅, Ok Forwarded)) as Hexec.
  { apply (run_exec (ledger (Some (usdc_transfer merchant price_1_cent)) 1000 false)).
    vm_compute. reflexivity. }
  destruct (onPayment_is_awaited _ _ _ _ _ _ Hexec)
    as (proof & payer & pre & now & stamp & finished & Hp & Hq & Htr & _ & _ & Hok & _);
    [vm_compute; reflexivity|reflexivity|].
  vm_compute in Hp, Hq. injection Hp as <-. injection Hq as <-.
  exists pre, now, stamp, finished. split; [exact Htr|exact Hok].
Defined.

(** Validity of the terms used below. *)
Lemma valid_1800 (t : DNS402Record dnum) :
  version t = "dns402" → price t = price_1_cent → currency t = "USDC" →
  network t = "solana" → wallet t = "W1" → ttl t = Some (IntVal 1800) →
  model t = Some "session" → valid_terms t.
Proof.
  intros Hv Hp Hc Hn Hw Ht Hm. unfold valid_terms.
  rewrite Hv, Hp, Hc, Hn, Hw, Ht, Hm.
  split; [reflexivity|]. split; [vm_compute; reflexivity|].
  split; [reflexivity|]. split; [reflexivity|]. split; [reflexivity|].
  split; [|right; left; reflexivity].
  intros n [= <-]. exists 1800. split; [reflexivity|].
  unfold JsInt.MAX_SAFE_INTEGER. lia.
Qed.

(** C8, as stated, fails: the terms are valid and their callback is a
    URL, but the wire format has no escaping. A callback with a path
    parameter is cut at the [;], and one with a query string at the
    [=]. *)
Lemma round_trip_loses_callback :
  valid_terms terms_with_parameter ∧
  generateRecord (config_of_record terms_with_parameter)
  = "v=dns402;p=0.01;c=USDC;n=solana;w=W1;t=1800;m=session;cb=https://a.io/cb;lang" ∧
  (callback <$> parseRecord (generateRecord (config_of_record terms_with_parameter)))
  = Some (Some "https://a.io/cb") ∧
  parseRecord (generateRecord (config_of_record terms_with_parameter))
  ≠ Some terms_with_parameter ∧
  valid_terms terms_with_query ∧
  generateRecord (config_of_record terms_with_query)
  = "v=dns402;p=0.01;c=USDC;n=solana;w=W1;t=1800;m=session;cb=https://a.io/cb?id=7" ∧
  (callback <$> parseRecord (generateRecord (config_of_record terms_with_query)))
  = Some (Some "https://a.io/cb?id") ∧
  parseRecord (generateRecord (config_of_record terms_with_query))
  ≠ Some terms_with_query.
Proof.
  split; [apply valid_1800; reflexivity|].
  split; [vm_compute; reflexivity|]. split; [vm_compute; reflexivity|].
  split; [vm_compute; intros [=]|].
  split; [apply valid_1800; reflexivity|].
  split; [vm_compute; reflexivity|]. split; [vm_compute; reflexivity|].
  vm_compute. intros [=].
Qed.

Lemma record_round_trip_witness :
  valid_terms terms_plain ∧ wire_safe terms_plain ∧
  parseRecord (generateRecord (config_of_record terms_plain)) = Some terms_plain.
Proof.
  assert (valid_terms terms_plain) as Hvalid.
  { apply valid_1800; reflexivity. }
  assert (wire_safe terms_plain) as Hsafe.
  { unfold wire_safe.
    split; [vm_compute; reflexivity|]. split; [vm_compute; reflexivity|].
    split; [vm_compute; reflexivity|]. split; [vm_compute; reflexivity|].
    split; [vm_compute; reflexivity|]. split; vm_compute; reflexivity. }
  split; [exact Hvalid|]. split; [exact Hsafe|].
  exact (record_round_trip terms_plain Hvalid Hsafe).
Defined.

(** The record paid is the one of the second discovery, although the
    auto-pay policy refuses it. *)
Lemma fetch_pays_second_discovery_witness :
  autopay_refusal (client (Some auto_5_cents)) cheap = None ∧
  autopay_refusal (client (Some auto_5_cents)) dear
  = Some "Price 100 SOL exceeds auto-pay limit of 0.05 USDC" ∧
  exec (fetch (client (Some auto_5_cents)) url None ∅)
       [ first_402;
         Ev (DnsResolver "api.example.com") (Ok (Some cheap_txt));
         Ev (DnsResolver "api.example.com") (Ok (Some dear_txt));
         Ev (SendPayment dear) (Ok proof1);
         Ev DateNow 1000;
         retry_402 ]
       (<["api.example.com" := session_for "api.example.com" dear proof1 1000]> ∅,
        Ok {| status := 402; body := "Payment Required" |}).
Proof.
  split; [vm_compute; reflexivity|]. split; [vm_compute; reflexivity|].
  apply (proj2 (fetch_pays_second_discovery (client (Some auto_5_cents)) url None ∅)
           "api.example.com" {| status := 402; body := "Payment Required" |}
           [Ev (DnsResolver "api.example.com") (Ok (Some cheap_txt))]
           [Ev (DnsResolver "api.example.com") (Ok (Some dear_txt))]
           cheap dear proof1 1000
           (Ok {| status := 402; body := "Payment Required" |})).
  - vm_compute. reflexivity.
  - reflexivity.
  - reflexivity.
  - apply (run_exec (paywall cheap_txt dear_txt 1000)). vm_compute. reflexivity.
  - vm_compute. reflexivity.
  - apply (run_exec (paywall dear_txt dear_txt 1000)). vm_compute. reflexivity.
Defined.

Lemma parsePair_keeps_first_two_fields_witness :
  record_data ("v=dns402;p=0.01;c=USDC;n=solana;w=W1"
               ++ ";" ++ "cb" ++ "=" ++ "https://a.io/cb?id" ++ "=" ++ "7")
  = <["cb" := "https://a.io/cb?id"]>
      (record_data "v=dns402;p=0.01;c=USDC;n=solana;w=W1")
  ∧ parseRecord ("v=dns402;p=0.01;c=USDC;n=solana;w=W1"
                 ++ ";" ++ "cb" ++ "=" ++ "https://a.io/cb?id" ++ "=" ++ "7")
    = Some {| version := "dns402"; price := price_1_cent; currency := "USDC";
              network := "solana"; wallet := "W1"; ttl := None;
              model := Some "per-request";
              callback := Some "https://a.io/cb?id"; mint := None |}
  ∧ parseRecord ("v=dns402" ++ ";" ++ "=x" ++ ";"
                 ++ "p=0.01;c=USDC;n=solana;w=W1;t=1800")
    = Some cheap.
Proof.
  destruct (parsePair_keeps_first_two_fields (F:=dnum))
    as (_ & _ & Hkept & _ & _ & Hignored).
  destruct (Hkept "v=dns402;p=0.01;c=USDC;n=solana;w=W1" "cb" "https://a.io/cb?id" "7")
    as [Hdata Hrecord]; [reflexivity..|].
  split; [exact Hdata|]. split.
  - apply (Hrecord {| version := "dns402"; price := price_1_cent; currency := "USDC";
                      network := "solana"; wallet := "W1"; ttl := None;
                      model := Some "per-request"; callback := None; mint := None |});
      [reflexivity|vm_compute; reflexivity].
  - destruct (Hignored "v=dns402" "=x" "p=0.01;c=USDC;n=solana;w=W1;t=1800")
      as (_ & _ & Hsame); [reflexivity..|].
    apply Hsame. vm_compute. reflexivity.
Defined.

End Scenarios.


(** ** The further properties on concrete inputs *)

Module Checks.
Import Demo Samples.

Lemma parseRecord_normal_form_witness :
  ∃ r : DNS402Record dnum,
    parseRecord "v=dns402; p=0.01 ;c=usdc;n=SOLANA;w=W1;t=abc" = Some r ∧
    currency r = "USDC" ∧ network r = "solana" ∧
    toUpperCase (currency r) = currency r ∧
    model r = Some "per-request" ∧
    ttl r = Some (JsInt.parseInt "abc").
Proof.
  assert (parseRecord "v=dns402; p=0.01 ;c=usdc;n=SOLANA;w=W1;t=abc"
          = Some {| version := "dns402"; price := price_1_cent; currency := "USDC";
                    network := "solana"; wallet := "W1"; ttl := Some IntNaN;
                    model := Some "per-request"; callback := None; mint := None |})
    as Hparse by (vm_compute; reflexivity).
  destruct (parseRecord_normal_form _ _ Hparse)
    as (_ & Hupper & _ & _ & _ & _ & _ & Hmodel & _ & Httl).
  eexists. split; [exact Hparse|]. split; [reflexivity|]. split; [reflexivity|].
  split; [exact Hupper|]. split; [apply Hmodel; vm_compute; reflexivity|].
  apply Httl; vm_compute; reflexivity.
Defined.

Lemma later_field_overrides_witness :
  record_data (cheap_txt ++ ";" ++ "p" ++ "=" ++ "0.05")
  = <["p" := "0.05"]> (record_data cheap_txt)
  ∧ parseRecord (cheap_txt ++ ";" ++ "p" ++ "=" ++ "0.05")
    = Some {| version := "dns402"; price := parseFloat "0.05"; currency := "USDC";
              network := "solana"; wallet := "W1"; ttl := Some (IntVal 1800);
              model := Some "per-request"; callback := None; mint := None |}.
Proof.
  destruct (later_field_overrides (F:=dnum) cheap_txt "p" "0.05")
    as [Hdata Hprice]; [vm_compute; reflexivity|vm_compute; reflexivity|].
  split; [exact Hdata|].
  apply (Hprice cheap); [reflexivity|vm_compute; reflexivity].
Defined.

Lemma unknown_key_ignored_witness :
  parseRecord (F:=dnum)
    ("v=dns402;p=0.01" ++ ";" ++ "x" ++ "=" ++ "1" ++ ";" ++ "c=USDC;n=solana;w=W1")
  = parseRecord ("v=dns402;p=0.01" ++ ";" ++ "c=USDC;n=solana;w=W1").
Proof.
  apply (unknown_key_ignored (F:=dnum)); [vm_compute; reflexivity..|].
  unfold record_keys. intros Hin.
  repeat (apply elem_of_cons in Hin as [[=]|Hin]). by apply elem_of_nil in Hin.
Defined.

Lemma separators_and_padding_ignored_witness :
  parseRecord (F:=dnum) (cheap_txt ++ ";") = parseRecord cheap_txt
  ∧ parseRecord (F:=dnum) ("v=dns402" ++ ";" ++ "  p=0.01 " ++ ";" ++ "c=USDC;n=solana;w=W1")
    = parseRecord ("v=dns402" ++ ";" ++ trim "  p=0.01 " ++ ";" ++ "c=USDC;n=solana;w=W1").
Proof.
  split.
  - apply (proj1 (separators_and_padding_ignored (F:=dnum) cheap_txt "" "" "")).
  - apply (proj2 (proj2 (separators_and_padding_ignored (F:=dnum) ""
                           "v=dns402" "  p=0.01 " "c=USDC;n=solana;w=W1"))).
    reflexivity.
Defined.

Lemma generated_record_decodes_witness :
  generateRecord loose_config
  = "v=dns402;p=0.01;c=usdc;n=solana;w=7xKXtg2CW87d97TXJSDpbD5jBkheTqA83TZRuJosgAsU"
  ∧ decoded_config loose_config = loose_terms
  ∧ parseRecord (generateRecord loose_config) = Some (decoded_config loose_config)
  ∧ parseRecord (generateRecord (config_of_record (decoded_config loose_config)))
    = Some (decoded_config loose_config).
Proof.
  split; [vm_compute; reflexivity|]. split; [vm_compute; reflexivity|].
  apply (generated_record_decodes loose_config);
    first [ intros z [= <-]; unfold JsInt.MAX_SAFE_INTEGER; lia
          | vm_compute; reflexivity ].
Defined.

Lemma published_terms_match_gate_witness :
  createDNSRecord (gate_options (shop false) (Some "session"))
  = "v=dns402;p=0.01;c=USDC;n=solana;w=7xKXtg2CW87d97TXJSDpbD5jBkheTqA83TZRuJosgAsU;t=60;m=session"
  ∧ ∃ r, parseRecord (createDNSRecord (gate_options (shop false) (Some "session")))
         = Some r ∧
         price r = srv_price (shop false) ∧ wallet r = srv_wallet (shop false) ∧
         JsInt.or_default (ttl r) 3600
         = JsInt.or_default (srv_sessionTTL (shop false)) 3600.
Proof.
  split; [vm_compute; reflexivity|].
  destruct (published_terms_match_gate (shop false) (Some "session") "api.example.com")
    as (_ & r & Hparse & Hprice & _ & _ & Hwallet & _ & _ & Httl);
    first [ intros z [= <-]; unfold JsInt.MAX_SAFE_INTEGER; lia
          | vm_compute; reflexivity
          | idtac ].
  - right. reflexivity.
  - exists r. split; [exact Hparse|]. split; [exact Hprice|].
    split; [exact Hwallet|exact Httl].
Defined.

Lemma clean_domain_of_url_witness :
  clean_domain "api.example.com" = "api.example.com"
  ∧ clean_domain ("https://" ++ "api.example.com" ++ ":" ++ "8443" ++ "/" ++ "v1/data")
    = "api.example.com".
Proof.
  destruct (clean_domain_of_url "api.example.com" "8443" "v1/data")
    as (Hbare & _ & _ & _ & Hurl); try (vm_compute; reflexivity).
  split; [exact Hbare|exact Hurl].
Defined.

Lemma resolveRecord_first_valid_record_witness :
  ∃ (answer : reply (F:=dnum) (ResolveTxt "_402.api.example.com")) found,
    ([Ev (ResolveTxt "_402.api.example.com")
         (Ok [["v=dns401"]; ["v=dns402;p=0.01;"; "c=USDC;n=solana;w=W1;t=1800"]])]
     : trace dnum)
    = [Ev (ResolveTxt ("_402." ++ clean_domain "https://api.example.com:8443/data"))
          answer] ∧
    Ok (Some cheap) = Ok found.
Proof.
  assert (exec (resolveRecord "https://api.example.com:8443/data")
            [Ev (ResolveTxt "_402.api.example.com")
                (Ok [["v=dns401"]; ["v=dns402;p=0.01;"; "c=USDC;n=solana;w=W1;t=1800"]])]
            (Ok (Some cheap))) as Hexec.
  { apply (run_exec (dns_server [["v=dns401"];
                                 ["v=dns402;p=0.01;"; "c=USDC;n=solana;w=W1;t=1800"]])).
    vm_compute. reflexivity. }
  destruct (resolveRecord_first_valid_record _ _ _ Hexec)
    as (answer & found & Htr & Hout & _).
  exists answer, found. split; [exact Htr|exact Hout].
Defined.

Lemma discover_errors_witness :
  ∃ answer : reply (F:=dnum) (DnsResolver "api.example.com"),
    ([Ev (DnsResolver "api.example.com") (Err "dns")] : trace dnum)
    = [Ev (DnsResolver "api.example.com") answer] ∧
    (Err "dns" : result (option (DNS402Record dnum)))
    = match answer with
      | Err e => Err e
      | Ok txt => Ok (if truthy txt then parseRecord (default "" txt) else None)
      end.
Proof.
  assert (exec (discover (client None) "api.example.com")
            [Ev (DnsResolver "api.example.com") (Err "dns")] (Err "dns")) as Hexec.
  { apply (run_exec (offline 0)). vm_compute. reflexivity. }
  destruct (discover_errors _ _ _ _ Hexec) as [_ Hcustom].
  exact (Hcustom eq_refl).
Defined.

Lemma no_autopay_run :
  run (paywall cheap_txt cheap_txt 1000) (fetch (client None) url None ∅)
  = ([ first_402; Ev (DnsResolver "api.example.com") (Ok (Some cheap_txt)) ],
     (∅, Err "Payment required: 0.01 USDC. Enable autoPay or call pay() first.")).
Proof. vm_compute. reflexivity. Qed.

Lemma fetch_never_pays_without_autopay_witness :
  List.filter is_send
    [ first_402; Ev (DnsResolver "api.example.com") (Ok (Some cheap_txt)) ] = []
  ∧ (∅ : gmap string DNS402Session) = ∅.
Proof.
  destruct (fetch_never_pays_without_autopay (client None) url None ∅ _ _ _
              eq_refl (run_exec _ _ _ _ no_autopay_run)) as (Hsend & _ & Hcache).
  split; [exact Hsend|exact Hcache].
Defined.

Lemma open_run :
  run (open_server 5) (fetch (client (Some auto_5_cents)) url None ∅)
  = ([ Ev (HttpFetch url None) (Ok {| status := 200; body := "hello" |}) ],
     (∅, Ok {| status := 200; body := "hello" |})).
Proof. vm_compute. reflexivity. Qed.

Lemma fetch_returns_other_answers_as_is_witness :
  (Ok {| status := 200; body := "hello" |} : result Response)
  = Ok {| status := 200; body := "hello" |}
  ∧ List.filter is_lookup
      [ Ev (HttpFetch (F:=dnum) url None) (Ok {| status := 200; body := "hello" |}) ]
    = [].
Proof.
  destruct (fetch_returns_other_answers_as_is (client (Some auto_5_cents)) url None
              ∅ _ _ _ (Ok {| status := 200; body := "hello" |})
              (run_exec _ _ _ _ open_run) eq_refl)
    as (Hout & _ & _ & _ & Hlookup).
  - intros response [= <-]. discriminate.
  - split; [exact Hout|exact Hlookup].
Defined.

Lemma cached_run :
  run (paywall cheap_txt cheap_txt 2000)
      (fetch (client (Some auto_5_cents)) url None {["api.example.com" := cached]})
  = ([ Ev DateNow 2000; retry_402 ],
     ({["api.example.com" := cached]},
      Ok {| status := 402; body := "Payment Required" |})).
Proof. vm_compute. reflexivity. Qed.

Lemma fetch_uses_live_session_witness :
  ∃ now rest,
    ([ Ev DateNow 2000; retry_402 ] : trace dnum) = Ev DateNow now :: rest ∧
    (now < expiresAt cached →
     rest = [Ev (HttpFetch url (Some (with_proof None (proof cached))))
                (Ok {| status := 402; body := "Payment Required" |})] ∧
     init_headers (with_proof None (proof cached)) !! "x-dns402-proof" = Some "sig1").
Proof.
  assert (url_hostname url = Some "api.example.com") as Hhost
    by (vm_compute; reflexivity).
  destruct (fetch_uses_live_session (client (Some auto_5_cents)) url
              "api.example.com" None {["api.example.com" := cached]} _ cached _ _
              Hhost (lookup_singleton_eq _ _) (run_exec _ _ _ _ cached_run))
    as (now & rest & Htr & Hlive).
  exists now, rest. split; [exact Htr|]. intros Hnow.
  destruct (Hlive Hnow) as (Hrest & _ & Hproof & _). split; [exact Hrest|exact Hproof].
Defined.

Lemma pay_run :
  run (paywall cheap_txt cheap_txt 1000) (pay (client None) "api.example.com" ∅)
  = ([ Ev (DnsResolver "api.example.com") (Ok (Some cheap_txt));
       Ev (SendPayment cheap) (Ok proof1); Ev DateNow 1000 ],
     (<["api.example.com" := cached]> ∅, Ok cached)).
Proof. vm_compute. reflexivity. Qed.

Lemma pay_session_lifetime_witness :
  expiresAt cached = 1801000 ∧
  ∀ tr' found,
    exec (getSession (F:=dnum) "api.example.com" (<["api.example.com" := cached]> ∅))
         tr' found →
    ∃ now', tr' = [Ev DateNow now'] ∧
            (now' < expiresAt cached → found = Some cached) ∧
            (expiresAt cached ≤ now' → found = None).
Proof.
  destruct (pay_session_lifetime (client None) "api.example.com" ∅ _ _ cached
              (run_exec _ _ _ _ pay_run)) as (_ & Hserved & _).
  split; [reflexivity|]. exact (Hserved eq_refl).
Defined.

Lemma failed_pay_run :
  run (offline 0) (pay (client None) "api.example.com" ∅)
  = ([ Ev (DnsResolver "api.example.com") (Err "dns") ], (∅, Err "dns")).
Proof. vm_compute. reflexivity. Qed.

Lemma pay_fails_without_paying_witness :
  (∅ : gmap string DNS402Session) = ∅ ∧
  existsb payment_succeeded
    [ Ev (DnsResolver (F:=dnum) "api.example.com") (Err "dns") ] = false.
Proof.
  destruct (pay_fails_without_paying (client None) "api.example.com" ∅ _ _ _
              (run_exec _ _ _ _ failed_pay_run)) as (Hcache & Hpaid & _).
  split; [exact Hcache|exact Hpaid].
Defined.

Lemma clearCache_forgets_sessions_witness :
  ∃ record,
    List.filter is_send
      [ Ev (DnsResolver "api.example.com") (Ok (Some cheap_txt));
        Ev (SendPayment cheap) (Ok proof1); Ev DateNow 1000 ]
    = [Ev (SendPayment record) (Ok (proof cached))].
Proof.
  apply (proj1 (proj2 (clearCache_forgets_sessions (client None) "api.example.com"
                         {["api.example.com" := cached]}))
           _ (<["api.example.com" := cached]> ∅) cached).
  apply (run_exec (paywall cheap_txt cheap_txt 1000)). vm_compute. reflexivity.
Defined.

Lemma gate_admits_live_session_witness :
  ∃ now rest,
    ([Ev DateNow 2000] : trace dnum) = Ev DateNow now :: rest ∧
    (now < ps_expiresAt session_P1 →
     rest = [] ∧ Ok Forwarded = Ok (Forwarded (F:=dnum))).
Proof.
  assert (exec (dns402 (shop false) payer_only {[customer := session_P1]})
            [Ev DateNow 2000] ({[customer := session_P1]}, Ok Forwarded)) as Hexec.
  { apply (run_exec (offline 2000)). vm_compute. reflexivity. }
  destruct (gate_admits_live_session (shop false) payer_only
              {[customer := session_P1]} _ customer session_P1 _ _
              eq_refl eq_refl (lookup_singleton_eq _ _) Hexec)
    as (now & rest & Htr & Hlive).
  exists now, rest. split; [exact Htr|]. intros Hnow.
  destruct (Hlive Hnow) as (Hrest & Hout & _). split; [exact Hrest|exact Hout].
Defined.

Lemma verified_run :
  run (ledger (Some payment) 1000 false) (dns402 (shop false) both_headers ∅)
  = ([ Ev (GetTransaction "sig1") (Ok (Some payment)); Ev DateNow 1000 ],
     (<[customer := session_P1]> ∅, Ok Forwarded)).
Proof. vm_compute. reflexivity. Qed.

Lemma forwarded_request_opens_session_witness :
  ∃ p s now2 rest,
    req_headers both_headers !! "x-dns402-payer" = Some p ∧
    (<[customer := session_P1]> ∅ : gmap string PaymentSession) !! p = Some s ∧
    ([Ev DateNow 2000] : trace dnum) = Ev DateNow now2 :: rest ∧
    (now2 < ps_expiresAt s → rest = [] ∧ Ok Forwarded = Ok (Forwarded (F:=dnum))).
Proof.
  assert (exec (dns402 (shop false) payer_only (<[customer := session_P1]> ∅))
            [Ev DateNow 2000] (<[customer := session_P1]> ∅, Ok Forwarded)) as Hnext.
  { apply (run_exec (offline 2000)). vm_compute. reflexivity. }
  destruct (forwarded_request_opens_session (shop false) both_headers payer_only
              ∅ _ _ _ _ _ eq_refl (run_exec _ _ _ _ verified_run) Hnext)
    as (p & s & now2 & rest & Hp & Hs & _ & Htr & Hlive).
  exists p, s, now2, rest. split; [exact Hp|]. split; [exact Hs|].
  split; [exact Htr|]. intros Hnow.
  destruct (Hlive Hnow) as (Hrest & Hout & _). split; [exact Hrest|exact Hout].
Defined.

Lemma gate_forwards_only_paid_witness :
  ∃ p, req_headers both_headers !! "x-dns402-payer" = Some p ∧ nonempty p = true ∧
       ((∃ now s, ([ Ev (GetTransaction "sig1") (Ok (Some payment)); Ev DateNow 1000 ]
                   : trace dnum) = [Ev DateNow now]
                  ∧ (∅ : gmap string PaymentSession) !! p = Some s
                  ∧ now < ps_expiresAt s)
        ∨ existsb (verified (shop false))
            [ Ev (GetTransaction "sig1") (Ok (Some payment)); Ev DateNow 1000 ] = true).
Proof.
  exact (proj1 (gate_forwards_only_paid (shop false) both_headers ∅ _ _ _
                  (run_exec _ _ _ _ verified_run)) eq_refl).
Defined.

Lemma gate_grants_to_any_payer_witness :
  exec (dns402 (shop false)
          (request [("x-dns402-proof", "sig1"); ("x-dns402-payer", "anyone")])
          {[customer := session_P1]})
       [Ev (GetTransaction "sig1") (Ok (Some payment)); Ev DateNow 5000]
       (<["anyone" := granted (shop false) "sig1" "anyone" 5000]>
          {[customer := session_P1]},
        Ok Forwarded).
Proof.
  apply (gate_grants_to_any_payer (shop false)); vm_compute; reflexivity.
Defined.

Lemma gate_with_malformed_wallet_admits_nobody_witness :
  is_public_key (srv_wallet gate) = false ∧
  ∃ answer : reply (F:=dnum) (GetTransaction "sig1"),
    ([Ev (GetTransaction "sig1") (Ok (Some (usdc_transfer "W1" price_1_cent)))]
     : trace dnum)
    = [Ev (GetTransaction "sig1") answer] ∧
    (Ok reply403 : result (reaction dnum)) = Ok reply403.
Proof.
  assert (is_public_key (srv_wallet gate) = false) as Hbad
    by (vm_compute; reflexivity).
  assert (exec (dns402 gate both_headers ∅)
            [Ev (GetTransaction "sig1") (Ok (Some (usdc_transfer "W1" price_1_cent)))]
            (∅, Ok reply403)) as Hexec.
  { apply (run_exec (ledger (Some (usdc_transfer "W1" price_1_cent)) 1000 false)).
    vm_compute. reflexivity. }
  destruct (gate_with_malformed_wallet_admits_nobody gate both_headers ∅ _ _
              Hbad Hexec) as (_ & _ & Hboth & _).
  split; [exact Hbad|]. apply Hboth; reflexivity.
Defined.


Lemma token_verification_ignores_mint_witness :
  exec (verifyPayment "sig1" merchant price_1_cent "USDC")
       [Ev (GetTransaction "sig1") (Ok (Some payment))] (Ok true)
  ↔ exec (verifyPayment "sig1" merchant price_1_cent "DNS402")
         [Ev (GetTransaction "sig1") (Ok (Some (relabel (λ _, "any mint") payment)))]
         (Ok true).
Proof.
  apply (token_verification_ignores_mint (λ _, "any mint") "sig1" merchant
           price_1_cent "USDC" "DNS402" payment (Ok true)); discriminate.
Defined.

Lemma sweeps_compose_witness :
  sweep_at 60000 (sweep_at 20000 {[customer := session_P1; "P2" := session_P2]})
  = sweep_at (Z.max 20000 60000) {[customer := session_P1; "P2" := session_P2]}
  ∧ live_session (sweep_at 20000 {[customer := session_P1]}) customer 60500
    = live_session {[customer := session_P1]} customer 60500.
Proof.
  split.
  - apply (proj1 (proj2 (sweeps_compose 20000 60000
                           {[customer := session_P1; "P2" := session_P2]}))).
  - apply (proj2 (proj2 (sweeps_compose 20000 0 {[customer := session_P1]}))). lia.
Defined.

Lemma token_run :
  run (chain false (Ok "sig1") 1000)
      (sendSPLTokenPayment customer merchant price_1_cent USDC_MINTS.mainnet
         (Dec.mk 6 0))
  = ([ Ev (GetAssociatedTokenAddress USDC_MINTS.mainnet customer)
          (Ok ("ata:" ++ customer));
       Ev (GetAssociatedTokenAddress USDC_MINTS.mainnet merchant)
          (Ok ("ata:" ++ merchant));
       Ev (GetAccount ("ata:" ++ merchant)) (Err "account not found");
       Ev (SendAndConfirmTransaction
             [ CreateTokenAccount customer ("ata:" ++ merchant) merchant
                 USDC_MINTS.mainnet;
               usdc_instruction ]
             [customer]) (Ok "sig1");
       Ev ClockNow 1000 ],
     Ok proof1).
Proof. vm_compute. reflexivity. Qed.

Lemma token_payment_transaction_witness :
  ∃ payerATA recipientATA (found : result unit) transfer,
    create_transfer_instruction payerATA recipientATA customer
      (math_floor (num_mul price_1_cent (math_pow (num_lit 10 0) (Dec.mk 6 0))))
    = Ok transfer ∧
    match found with
    | Ok _ => [ CreateTokenAccount customer ("ata:" ++ merchant) merchant
                  USDC_MINTS.mainnet; usdc_instruction ] = [transfer]
    | Err _ =>
        ∃ create,
          create_account_instruction customer recipientATA merchant USDC_MINTS.mainnet
          = Ok create ∧
          [ CreateTokenAccount customer ("ata:" ++ merchant) merchant
              USDC_MINTS.mainnet; usdc_instruction ] = [create; transfer]
    end.
Proof.
  destruct (token_payment_transaction customer merchant price_1_cent
              USDC_MINTS.mainnet (Dec.mk 6 0) _ _
              [ CreateTokenAccount customer ("ata:" ++ merchant) merchant
                  USDC_MINTS.mainnet; usdc_instruction ]
              [customer] (run_exec _ _ _ _ token_run))
    as (_ & payerATA & recipientATA & found & transfer & rest & _ & Ht & Hshape).
  - simpl. right. right. right. left. reflexivity.
  - exists payerATA, recipientATA, found, transfer. split; [exact Ht|exact Hshape].
Defined.

Lemma unsupported_run :
  run (chain true (Ok "sig1") 1000) (sendPayment customer euro_terms)
  = ([], Err "Unsupported currency: EURC").
Proof. vm_compute. reflexivity. Qed.

Lemma sendPayment_rejects_early_witness :
  ([] : list (event (@chainreply instruction))) = [] ∧
  (Err "Unsupported currency: EURC" : result PaymentProof)
  = Err ("Unsupported currency: " ++ currency euro_terms).
Proof.
  apply (proj2 (sendPayment_rejects_early customer euro_terms [] _
                  (run_exec _ _ _ _ unsupported_run))).
  - intros Hin. repeat (apply elem_of_cons in Hin as [[=]|Hin]).
    by apply elem_of_nil in Hin.
  - reflexivity.
Defined.

Lemma payment_run :
  run (chain true (Ok "sig1") 1000) (sendPayment customer usdc_terms)
  = ([ Ev (GetAssociatedTokenAddress USDC_MINTS.mainnet customer)
          (Ok ("ata:" ++ customer));
       Ev (GetAssociatedTokenAddress USDC_MINTS.mainnet merchant)
          (Ok ("ata:" ++ merchant));
       Ev (GetAccount ("ata:" ++ merchant)) (Ok tt);
       Ev (SendAndConfirmTransaction [usdc_instruction] [customer]) (Ok "sig1");
       Ev ClockNow 1000 ],
     Ok proof1).
Proof. vm_compute. reflexivity. Qed.

Lemma sendPayment_pays_at_most_once_witness :
  ∃ pre transaction,
    [ Ev (GetAssociatedTokenAddress USDC_MINTS.mainnet customer)
         (Ok ("ata:" ++ customer));
      Ev (GetAssociatedTokenAddress USDC_MINTS.mainnet merchant)
         (Ok ("ata:" ++ merchant));
      Ev (GetAccount ("ata:" ++ merchant)) (Ok tt);
      Ev (SendAndConfirmTransaction [usdc_instruction] [customer]) (Ok "sig1");
      Ev ClockNow 1000 ]
    = (pre ++ [Ev (SendAndConfirmTransaction transaction [customer])
                  (Ok (signature proof1));
               Ev ClockNow (timestamp proof1)])%list ∧
    List.filter is_submit pre = [] ∧ payer proof1 = customer.
Proof.
  exact (proj1 (proj2 (sendPayment_pays_at_most_once customer usdc_terms _ _
                         (run_exec _ _ _ _ payment_run))) proof1 eq_refl).
Defined.

Lemma published_record_resolves_witness :
  ∃ name,
    generateDNSRecordString "api.example.com" loose_config
    = (name ++ " TXT " ++ dquote ++ generateRecord loose_config ++ dquote)%string ∧
    exec (resolveRecord "api.example.com")
         [Ev (ResolveTxt name)
             (Ok [["v=dns402;p=0.01;c=usdc;";
                   "n=solana;w=7xKXtg2CW87d97TXJSDpbD5jBkheTqA83TZRuJosgAsU"]])]
         (Ok (Some (decoded_config loose_config))).
Proof.
  apply (published_record_resolves "api.example.com" loose_config);
    first [ intros z [= <-]; unfold JsInt.MAX_SAFE_INTEGER; lia
          | vm_compute; reflexivity ].
Defined.

Lemma sol_run :
  run (chain true (Ok "sig1") 1000) (sendSOLPayment customer merchant (Dec.mk 1 0))
  = ([ Ev (SendAndConfirmTransaction [sol_instruction] [customer]) (Ok "sig1");
       Ev ClockNow 1000 ],
     Ok proof1).
Proof. vm_compute. reflexivity. Qed.

Lemma sol_payment_transaction_witness :
  ∃ transfer,
    system_transfer customer merchant
      (math_floor (num_mul (Dec.mk 1 0) LAMPORTS_PER_SOL)) = Ok transfer ∧
    [sol_instruction] = [transfer].
Proof.
  destruct (sol_payment_transaction customer merchant (Dec.mk 1 0) _ _
              [sol_instruction] [customer] (run_exec _ _ _ _ sol_run))
    as (_ & _ & _ & Htransfer).
  - simpl. left. reflexivity.
  - exact Htransfer.
Defined.

End Checks.
